(** * Cost accounting of biopaper-parser: pricing table, cost ledger and
      the processing of PDF files

    A shallow embedding of [model_config.py], [cost_monitor.py] and
    [pdf_parser.py].

    Python [float] is IEEE 754 binary64; it is modelled by the Standard
    Library's executable specification [SpecFloat] at precision 53 and
    maximal exponent 1024, with round-to-nearest-even.  Python [int] is
    unbounded and modelled by [Z].  Exceptions are modelled by a result
    type, mutable dictionaries by a store of [gmap]s addressed by
    locations, so that two references to one dictionary alias. *)

From Stdlib Require Import ZArith NArith Bool Lia QArith Qpower Lqa.
From Stdlib Require Import SpecFloat PrimFloat FloatOps.
From Stdlib Require Strings.Byte.
From stdpp Require Import gmap strings list fin_maps.

Set Warnings "-inexact-float".
Local Open Scope Z_scope.

(** ** Python floats *)

Module PyFloat.

Definition prec : Z := 53.
Definition emax : Z := 1024.

Definition float : Type := spec_float.

Definition fadd : float -> float -> float := SFadd prec emax.
Definition fmul : float -> float -> float := SFmul prec emax.
Definition fdiv : float -> float -> float := SFdiv prec emax.

(** Python's [<=] and [==] on floats. *)
Definition fle : float -> float -> bool := SFleb.
Definition feq : float -> float -> bool := SFeqb.

Definition zero : float := S754_zero false.

(** The integer [a] as an exact dyadic number, before any rounding. *)
Definition exact_int (a : Z) : float :=
  match a with
  | Z0 => S754_zero false
  | Zpos p => S754_finite false p 0
  | Zneg p => S754_finite true p 0
  end.

Definition is_infinity (x : float) : bool :=
  match x with S754_infinity _ => true | _ => false end.

(** A decimal literal [digits * 10^-scale], for instance [0.40] is
    [float_lit 40 2]: the binary64 number nearest to the decimal. *)
Definition float_lit (digits : Z) (scale : nat) : float :=
  fdiv (exact_int digits) (exact_int (10 ^ Z.of_nat scale)).

End PyFloat.
Import PyFloat.

(** ** Exceptions *)

(** [IOError] is Python's [OSError] under its older name, as [open]
    raises it in [cost_monitor.py]; it carries the [str] of the
    exception. *)
Inductive exn : Type :=
| ValueError (msg : string)
| OverflowError
| ZeroDivisionError
| IOError (message : string).

Inductive result (A : Type) : Type :=
| Ok (a : A)
| Raise (e : exn).
Arguments Ok {A} a.
Arguments Raise {A} e.

Definition bind {A B : Type} (r : result A) (k : A -> result B) : result B :=
  match r with
  | Ok a => k a
  | Raise e => Raise e
  end.

Notation "'do' x <- r ; k" := (bind r (fun x => k))
  (at level 10, x name, r at level 100, k at level 200).

(** [a / b] on Python integers: the correctly rounded quotient, or an
    exception when the divisor is zero or the quotient exceeds the range
    of a float. *)
Definition int_truediv (a b : Z) : result float :=
  if b =? 0 then Raise ZeroDivisionError
  else
    let q := fdiv (exact_int a) (exact_int b) in
    if is_infinity q then Raise OverflowError else Ok q.

(** ** model_config.py *)

Record ModelPricing : Type := {
  input_price : float;
  cached_input_price : float;
  output_price : float;
  description : string
}.

Definition gpt_4_1 : ModelPricing := {|
  input_price := float_lit 200 2;
  cached_input_price := float_lit 50 2;
  output_price := float_lit 800 2;
  description := "Smartest model for complex tasks"
|}.

Definition gpt_4_1_mini : ModelPricing := {|
  input_price := float_lit 40 2;
  cached_input_price := float_lit 10 2;
  output_price := float_lit 160 2;
  description := "Affordable model balancing speed and intelligence"
|}.

Definition gpt_4_1_nano : ModelPricing := {|
  input_price := float_lit 100 3;
  cached_input_price := float_lit 25 3;
  output_price := float_lit 400 3;
  description := "Fastest, most cost-effective model for low-latency tasks"
|}.

Definition o3 : ModelPricing := {|
  input_price := float_lit 1000 2;
  cached_input_price := float_lit 250 2;
  output_price := float_lit 4000 2;
  description := "Most powerful reasoning model with leading performance on coding, math, science, and vision"
|}.

Definition o4_mini : ModelPricing := {|
  input_price := float_lit 1100 3;
  cached_input_price := float_lit 275 3;
  output_price := float_lit 4400 3;
  description := "Faster, cost-efficient reasoning model delivering strong performance on math, coding and vision"
|}.

Definition pricing_entries : list (string * ModelPricing) :=
  [ ("gpt-4.1", gpt_4_1);
    ("gpt-4.1-mini", gpt_4_1_mini);
    ("gpt-4.1-nano", gpt_4_1_nano);
    ("o3", o3);
    ("o4-mini", o4_mini) ].

Definition MODEL_PRICING : gmap string ModelPricing :=
  list_to_map pricing_entries.

Definition unknown_model (model_name : string) : exn :=
  ValueError ("Unknown model: " ++ model_name).

Definition get_model_info (model_name : string) : result ModelPricing :=
  match MODEL_PRICING !! model_name with
  | None => Raise (unknown_model model_name)
  | Some p => Ok p
  end.

Definition list_available_models : gmap string string :=
  description <$> MODEL_PRICING.

(** ** cost_monitor.py: the pure cost function *)

Definition calculate_cost (model_info : ModelPricing)
    (input_tokens output_tokens : Z) (is_cached : bool) : result float :=
  do x <- int_truediv input_tokens 1000000;
  let input_cost :=
    fmul x (if is_cached then cached_input_price model_info
            else input_price model_info) in
  do y <- int_truediv output_tokens 1000000;
  let output_cost := fmul y (output_price model_info) in
  Ok (fadd input_cost output_cost).

(** The cost formula as the specification words it,
    [(inputTokens/1,000,000) x price + (outputTokens/1,000,000) x
    outputPrice], with each quotient, each product and the sum rounded to
    binary64.  The formula has no error case: a quotient beyond the range
    of a float is an infinity. *)
Definition computeCost_spec (p : ModelPricing)
    (inputTokens outputTokens : Z) (isCached : bool) : float :=
  fadd
    (fmul (fdiv (exact_int inputTokens) (exact_int 1000000))
          (if isCached then cached_input_price p else input_price p))
    (fmul (fdiv (exact_int outputTokens) (exact_int 1000000))
          (output_price p)).

(** ** cost_monitor.py: the ledger

    [get_summary] hands out the two dictionaries of the monitor by
    reference, so dictionaries live in a store and the monitor and its
    summaries hold locations. *)

Definition loc : Type := nat.

(** The lines emitted through [self.logger], by their content; the
    rendering of a line as text is the logging library's. *)
Inductive LogRecord : Type :=
| RequestLine (model_name file_path : string)
    (input_tokens output_tokens : Z) (cost : float)
| SavedLine (output_file : string).

(** The document [save_summary] hands to [json.dump]: a dictionary with
    four keys, two of them dictionaries from strings to floats.  The keys
    of the ledger are strings, as the signature of [log_request] has
    them; for keys of other types [json.dump] raises, which lies outside
    this model. *)
Record SummaryDoc : Type := {
  doc_total_cost : float;
  doc_cost_by_model : gmap string float;
  doc_cost_by_file : gmap string float;
  doc_timestamp : string
}.

(** The monitor and what it wrote: [logger] holds the lines given to
    [self.logger], which its handlers append to the log file of the
    monitor and show on the console; [files] holds the summaries that
    were saved, under the destination as the caller spelled it.  Two
    spellings of one file are two keys, so [files] tells what was saved
    under a name and not what a file system holds. *)
Record world : Type := {
  heap : gmap loc (gmap string float);
  total_cost : float;
  cost_by_model : loc;
  cost_by_file : loc;
  logger : list LogRecord;
  files : gmap string SummaryDoc
}.

(** The dictionary returned by [get_summary]: its two inner dictionaries
    are the monitor's own objects. *)
Record Summary : Type := {
  sum_total_cost : float;
  sum_cost_by_model : loc;
  sum_cost_by_file : loc;
  sum_timestamp : string
}.

Inductive outcome (A : Type) : Type :=
| Return (a : A)
| Raised (e : exn).
Arguments Return {A} a.
Arguments Raised {A} e.

(** Statements run in a world and leave a world behind, also when they
    raise. *)
Definition M (A : Type) : Type := world -> outcome A * world.

Definition ret {A : Type} (a : A) : M A := fun w => (Return a, w).

Definition mbind {A B : Type} (m : M A) (k : A -> M B) : M B :=
  fun w =>
    match m w with
    | (Return a, w') => k a w'
    | (Raised e, w') => (Raised e, w')
    end.

Definition lift {A : Type} (r : result A) : M A :=
  fun w =>
    match r with
    | Ok a => (Return a, w)
    | Raise e => (Raised e, w)
    end.

Definition modify (f : world -> world) : M unit :=
  fun w => (Return tt, f w).

Notation "'run' x <- m ; k" := (mbind m (fun x => k))
  (at level 10, x name, m at level 100, k at level 200).
Notation "'exec' m ; k" := (mbind m (fun _ => k))
  (at level 10, m at level 100, k at level 200).

(** The dictionary object at a location. *)
Definition deref (w : world) (l : loc) : gmap string float :=
  default ∅ (heap w !! l).

(** [d.get(key, 0)] for the dictionary at [l]; the integer default is
    converted to a float by the addition that follows. *)
Definition dict_get (l : loc) (key : string) (w : world) : float :=
  default zero (deref w l !! key).

(** [d[key] = value] for the dictionary at [l]. *)
Definition dict_setitem (l : loc) (key : string) (value : float)
    (w : world) : world :=
  {| heap := alter (insert key value) l (heap w);
     total_cost := total_cost w;
     cost_by_model := cost_by_model w;
     cost_by_file := cost_by_file w;
     logger := logger w;
     files := files w |}.

Definition set_total_cost (value : float) (w : world) : world :=
  {| heap := heap w;
     total_cost := value;
     cost_by_model := cost_by_model w;
     cost_by_file := cost_by_file w;
     logger := logger w;
     files := files w |}.

Definition logger_info (line : LogRecord) (w : world) : world :=
  {| heap := heap w;
     total_cost := total_cost w;
     cost_by_model := cost_by_model w;
     cost_by_file := cost_by_file w;
     logger := logger w ++ [line];
     files := files w |}.

Definition write_file (path : string) (doc : SummaryDoc) (w : world) : world :=
  {| heap := heap w;
     total_cost := total_cost w;
     cost_by_model := cost_by_model w;
     cost_by_file := cost_by_file w;
     logger := logger w;
     files := <[path := doc]> (files w) |}.

(** [CostMonitor()]: two fresh empty dictionaries and a zero total, in a
    process where the summaries [fs] were saved before.  The directory
    and the file of the log, which [__init__] and [setup_logging] create,
    are where the lines of [logger] go; creating them is taken to
    succeed. *)
Definition __init__ (fs : gmap string SummaryDoc) : world :=
  {| heap := {[ 0%nat := ∅; 1%nat := ∅ ]};
     total_cost := zero;
     cost_by_model := 0%nat;
     cost_by_file := 1%nat;
     logger := [];
     files := fs |}.

Definition log_request (model_name file_path : string)
    (input_tokens output_tokens : Z) (is_cached : bool)
    (model_info : option ModelPricing) : M float :=
  run model_info <- lift (match model_info with
                          | None => get_model_info model_name
                          | Some p => Ok p
                          end);
  run cost <- lift (calculate_cost model_info input_tokens output_tokens
                      is_cached);
  exec modify (fun w => set_total_cost (fadd (total_cost w) cost) w);
  exec modify (fun w =>
    dict_setitem (cost_by_model w) model_name
      (fadd (dict_get (cost_by_model w) model_name w) cost) w);
  exec modify (fun w =>
    dict_setitem (cost_by_file w) file_path
      (fadd (dict_get (cost_by_file w) file_path w) cost) w);
  exec modify (logger_info (RequestLine model_name file_path input_tokens
                              output_tokens cost));
  ret cost.

(** [now] is what [datetime.now().isoformat()] yields during the call. *)
Definition get_summary (now : string) : M Summary :=
  fun w =>
    (Return {| sum_total_cost := total_cost w;
               sum_cost_by_model := cost_by_model w;
               sum_cost_by_file := cost_by_file w;
               sum_timestamp := now |}, w).

(** [json.dump]: the document a summary denotes when it is serialised in
    world [w]. *)
Definition json_of_summary (w : world) (s : Summary) : SummaryDoc :=
  {| doc_total_cost := sum_total_cost s;
     doc_cost_by_model := deref w (sum_cost_by_model s);
     doc_cost_by_file := deref w (sum_cost_by_file s);
     doc_timestamp := sum_timestamp s |}.

(** [now] is the clock reading of the call, and [opened] is what
    [open(output_file, 'w')] does during the call: it returns, or it
    raises, for a destination that cannot be opened for writing.  Once
    the file is open, the summary is written. *)
Definition save_summary (now : string) (opened : result unit)
    (output_file : string) : M unit :=
  run summary <- get_summary now;
  exec lift opened;
  exec modify (fun w => write_file output_file (json_of_summary w summary) w);
  exec modify (logger_info (SavedLine output_file));
  ret tt.

(** What a reload of a destination finds if JSON loses nothing: the
    document last saved there, if any. *)
Definition reload (path : string) (w : world) : option SummaryDoc :=
  files w !! path.

(** The monitor's two dictionaries exist and are two objects. *)
Definition wf (w : world) : Prop :=
  is_Some (heap w !! cost_by_model w) /\
  is_Some (heap w !! cost_by_file w) /\
  cost_by_model w <> cost_by_file w.

(** The three updates and the log line of a request that costs [cost],
    as one world transformer. *)
Definition charge (model_name file_path : string)
    (input_tokens output_tokens : Z) (cost : float) (w : world) : world :=
  let w1 := set_total_cost (fadd (total_cost w) cost) w in
  let w2 := dict_setitem (cost_by_model w1) model_name
              (fadd (dict_get (cost_by_model w1) model_name w1) cost) w1 in
  let w3 := dict_setitem (cost_by_file w2) file_path
              (fadd (dict_get (cost_by_file w2) file_path w2) cost) w2 in
  logger_info (RequestLine model_name file_path input_tokens output_tokens
                 cost) w3.

(** The price record a request is charged with. *)
Definition resolve (model_name : string) (model_info : option ModelPricing)
    : result ModelPricing :=
  match model_info with
  | None => get_model_info model_name
  | Some p => Ok p
  end.

(** A batch as the caller runs it: one request per file, all with one
    model looked up in the registry; the returned costs in call order. *)
Fixpoint log_requests (model_name : string)
    (requests : list (string * (Z * Z * bool))) : M (list float) :=
  match requests with
  | [] => ret []
  | (file_path, (input_tokens, output_tokens, is_cached)) :: rest =>
      run cost <- log_request model_name file_path input_tokens
                    output_tokens is_cached None;
      run costs <- log_requests model_name rest;
      ret (cost :: costs)
  end.

(** Left-to-right accumulation of floats, starting from [start]. *)
Definition fsum_from (start : float) (costs : list float) : float :=
  fold_left fadd costs start.

Definition fsum (costs : list float) : float := fsum_from zero costs.

(** A document with its timestamp replaced. *)
Definition with_timestamp (t : string) (d : SummaryDoc) : SummaryDoc :=
  {| doc_total_cost := doc_total_cost d;
     doc_cost_by_model := doc_cost_by_model d;
     doc_cost_by_file := doc_cost_by_file d;
     doc_timestamp := t |}.

(** ** Predicates of the proofs *)

Definition nonneg (x : float) : bool := fle zero x.

Definition prices_nonneg (p : ModelPricing) : bool :=
  nonneg (input_price p) && nonneg (cached_input_price p)
  && nonneg (output_price p).

(** The three prices of a record. *)
Definition prices (p : ModelPricing) : float * float * float :=
  (input_price p, cached_input_price p, output_price p).

(** The result carries the sign it was given and is never a NaN. *)
Definition signed (s : bool) (x : float) : Prop :=
  match x with
  | S754_zero s' | S754_infinity s' | S754_finite s' _ _ => s' = s
  | S754_nan => False
  end.

(** The value of a finite float, in units of the smallest subnormal. *)
Definition units (m : positive) (e : Z) : Z := Z.pos m * 2 ^ (e + 1074).

(** A float the ledger can hold: a canonical representation of zero, a
    positive number or plus infinity. *)
Definition good (x : float) : bool := valid_binary prec emax x && fle zero x.

Definition price_ok (x : float) : bool := good x && negb (is_infinity x).

(** The invariant of a price record: three finite, non-negative prices. *)
Definition pricing_ok (p : ModelPricing) : bool :=
  price_ok (input_price p) && price_ok (cached_input_price p)
  && price_ok (output_price p).

Inductive op : Type :=
| LogRequest (model_name file_path : string)
    (input_tokens output_tokens : Z) (is_cached : bool)
    (model_info : option ModelPricing)
| GetSummary (now : string)
| SaveSummary (now : string) (opened : result unit) (output_file : string).

(** The world after an operation, whether it returned or raised. *)
Definition step (o : op) (w : world) : world :=
  match o with
  | LogRequest m f a b cached mi => snd (log_request m f a b cached mi w)
  | GetSummary now => snd (get_summary now w)
  | SaveSummary now opened path => snd (save_summary now opened path w)
  end.

Definition run_ops (ops : list op) (w : world) : world :=
  fold_left (fun w o => step o w) ops w.

(** Token counts are non-negative and a supplied price record satisfies
    the invariant of price records. *)
Definition op_ok (o : op) : Prop :=
  match o with
  | LogRequest _ _ a b _ mi =>
      0 <= a /\ 0 <= b /\
      match mi with Some p => pricing_ok p = true | None => True end
  | _ => True
  end.

(** Two price records a caller may hand to [log_request], which takes
    them as they are: prices without bound, and negative prices. *)
Definition unbounded_pricing : ModelPricing := {|
  input_price := S754_infinity false;
  cached_input_price := S754_infinity false;
  output_price := S754_infinity false;
  description := "prices without bound"
|}.

Definition negative_pricing : ModelPricing := {|
  input_price := float_lit (-100) 2;
  cached_input_price := float_lit (-100) 2;
  output_price := float_lit (-100) 2;
  description := "a refund"
|}.

Definition all_entries (P : float -> Prop) (w : world) : Prop :=
  P (total_cost w) /\
  (forall k v, deref w (cost_by_model w) !! k = Some v -> P v) /\
  (forall k v, deref w (cost_by_file w) !! k = Some v -> P v).

(** Python's [0 <= x] for the total and every entry. *)
Definition ledger_nonneg (w : world) : Prop :=
  all_entries (fun v => fle zero v = true) w.

(** Python's [old <= new] for the total and every entry; entries are
    never removed. *)
Definition ledger_le (w w' : world) : Prop :=
  fle (total_cost w) (total_cost w') = true /\
  (forall k v, deref w (cost_by_model w) !! k = Some v ->
     exists v', deref w' (cost_by_model w') !! k = Some v' /\
                fle v v' = true) /\
  (forall k v, deref w (cost_by_file w) !! k = Some v ->
     exists v', deref w' (cost_by_file w') !! k = Some v' /\
                fle v v' = true).

Definition ledger_inv (w : world) : Prop :=
  wf w /\ all_entries (fun v => good v = true) w.

(** The rational number a float denotes (zero for the non-finite ones). *)
Definition float_value (x : float) : Q :=
  match x with
  | S754_finite s m e =>
      ((if s then -1 else 1) * (inject_Z (Z.pos m) * 2 ^ e))%Q
  | _ => 0%Q
  end.

Definition is_finite (x : float) : bool :=
  match x with
  | S754_finite _ _ _ | S754_zero _ => true
  | _ => false
  end.

(** [x] and [y] agree within the factor [u]. *)
Definition agree (u x y : Q) : Prop := (x <= u * y /\ y <= u * x)%Q.

(** One rounding: a factor of [1 + 2^-52]. *)
Definition u52 : Q := (4503599627370497 # 4503599627370496)%Q.

(** The magnitude of a finite float: its value lies in
    [2^(mag-1), 2^mag). *)
Definition mag (m : positive) (e : Z) : Z := Zdigits2 (Z.pos m) + e.

(** A finite, positive price of ordinary size. *)
Definition price_normal (x : float) : bool :=
  match x with
  | S754_finite false m e =>
      valid_binary prec emax x && (-64 <=? mag m e) && (mag m e <=? 64)
  | _ => false
  end.

(** Five roundings, generously: a factor of [1 + 2^-49]. *)
Definition u49 : Q := (562949953421313 # 562949953421312)%Q.

(** ** Vocabulary of further statements about the ledger *)

(** The costs of the request lines of a log that [keep] selects by model
    and file, in the order of the log. *)
Definition logged_costs (keep : string -> string -> bool)
    (lines : list LogRecord) : list float :=
  omap (fun line =>
          match line with
          | RequestLine m f _ _ cost => if keep m f then Some cost else None
          | SavedLine _ => None
          end) lines.

(** The entry a dictionary of the ledger holds for a key with these
    costs: none when there are no costs, else their sum. *)
Definition entry_of (costs : list float) : option float :=
  match costs with
  | [] => None
  | _ => Some (fsum costs)
  end.

(** The ledger agrees with its log: the total and every entry are the
    sums of the costs of the request lines they answer for. *)
Definition matches_log (w : world) : Prop :=
  wf w /\
  total_cost w = fsum (logged_costs (fun _ _ => true) (logger w)) /\
  (forall k, deref w (cost_by_model w) !! k =
     entry_of (logged_costs (fun m _ => bool_decide (m = k)) (logger w))) /\
  (forall k, deref w (cost_by_file w) !! k =
     entry_of (logged_costs (fun _ f => bool_decide (f = k)) (logger w))).


(** The cost in exact arithmetic of rational numbers, at the values of
    the prices of the record. *)
Definition exact_cost (p : ModelPricing) (input_tokens output_tokens : Z)
    (is_cached : bool) : Q :=
  (inject_Z input_tokens / 1000000
   * float_value (if is_cached then cached_input_price p else input_price p)
   + inject_Z output_tokens / 1000000 * float_value (output_price p))%Q.

(** Three roundings, generously: a factor of [1 + 2^-50]. *)
Definition u50 : Q := (1125899906842625 # 1125899906842624)%Q.

(** ** pdf_parser.py: texts and word counts

    Identifiers, paths and messages are kept as strings of UTF-8 bytes,
    as the ledger keys them.  A text whose words are counted is a Python
    [str] proper: a sequence of code points. *)

Definition text : Type := list N.

(** [str.isspace] on one character: the code points whose bidirectional
    type is WS, B or S or whose category is Zs. *)
Definition py_isspace (c : N) : bool :=
  ((9 <=? c) && (c <=? 13) || (28 <=? c) && (c <=? 32)
   || (c =? 133) || (c =? 160) || (c =? 5760)
   || (8192 <=? c) && (c <=? 8202) || (c =? 8232) || (c =? 8233)
   || (c =? 8239) || (c =? 8287) || (c =? 12288))%N.

(** [s.split()] without a separator: the maximal runs of characters that
    are not whitespace; [word] holds the run being read, last character
    first. *)
Fixpoint split_from (word : text) (s : text) : list text :=
  match s with
  | [] => match word with [] => [] | _ => [rev word] end
  | c :: rest =>
      if py_isspace c then
        match word with
        | [] => split_from [] rest
        | _ => rev word :: split_from [] rest
        end
      else split_from (c :: word) rest
  end.

Definition str_split (s : text) : list text := split_from [] s.

Definition len {A : Type} (l : list A) : Z := Z.of_nat (length l).

(** The code points of a source literal, from its UTF-8 bytes; a byte
    that starts no well-formed sequence decodes to U+FFFD. *)
Fixpoint utf8_decode (bs : list N) : text :=
  let cont (b : N) : bool := ((128 <=? b) && (b <? 192))%N in
  match bs with
  | [] => []
  | b0 :: r0 =>
      if (b0 <? 128)%N then b0 :: utf8_decode r0
      else
        match r0 with
        | b1 :: r1 =>
            if ((192 <=? b0) && (b0 <? 224) && cont b1)%N then
              ((b0 - 192) * 64 + (b1 - 128))%N :: utf8_decode r1
            else
              match r1 with
              | b2 :: r2 =>
                  if ((224 <=? b0) && (b0 <? 240) && cont b1 && cont b2)%N then
                    ((b0 - 224) * 4096 + (b1 - 128) * 64 + (b2 - 128))%N
                      :: utf8_decode r2
                  else
                    match r2 with
                    | b3 :: r3 =>
                        if ((240 <=? b0) && (b0 <? 248) && cont b1 && cont b2
                            && cont b3)%N then
                          ((b0 - 240) * 262144 + (b1 - 128) * 4096
                           + (b2 - 128) * 64 + (b3 - 128))%N
                            :: utf8_decode r3
                        else 65533%N :: utf8_decode r0
                    | [] => 65533%N :: utf8_decode r0
                    end
              | [] => 65533%N :: utf8_decode r0
              end
        | [] => [65533%N]
        end
  end.

Definition text_of_literal (s : string) : text :=
  utf8_decode (Stdlib.Strings.Ascii.N_of_ascii <$> String.list_ascii_of_string s).

(** The prompt of [process_single_pdf], lines 80 to 116 of the source. *)
Definition prompt_literal : string :=
"Extract the data from the text in this paper, but extract the fields below as columns and tabulate them.
    
🔸 Structural
	•	aromatic_ring_count: count of aromatic rings in the polymer structure
	•	fused_ring_presence: presence of fused aromatic rings in the structure
	•	linkage_type: type of chemical bonds connecting polymer units
	•	steric_bulk: presence of bulky substituents affecting molecular structure
	•	degree_of_sulfonation_or_grafting: extent of sulfonation or grafting modifications
	•	cation_type ✅: type of cation present in the polymer
	•	acidic_proton ✅: presence of acidic protons in the structure
	•	acidic_proton_position ✅: location of acidic protons in the structure

🔸 Morphological & Environmental
	•	water_uptake_percent: percentage of water absorbed by the material
	•	koh_uptake_percent: percentage of KOH solution absorbed
	•	free_volume_nm3_per_g: free volume per gram in cubic nanometers
	•	swelling_degree_alkaline: extent of swelling in alkaline conditions
	•	porosity_description: description of material's porous structure

🔸 Conductivity
	•	conductivity_oh_mS_per_cm: ionic conductivity in millisiemens per centimeter
	•	temperature_conductivity_tested: temperature range for conductivity testing
	•	koh_concentration_tested_M: KOH concentration used in testing (molarity)
	•	aging_time_in_alkaline_conditions: duration of aging in alkaline environment
    
Please extract dataset and return it in the format of the PolymerDataResponse model.
Even if it's the same sample, if the values are different, organize them into separate rows.

Here is an example of the output data format:
Sample ID,aromatic_ring_count,fused_ring_presence,linkage_type,steric_bulk,degree_of_sulfonation_or_grafting,cation_type,acidic_proton,acidic_proton_position,water_uptake_percent,koh_uptake_percent,free_volume_nm3_per_g,swelling_degree_alkaline,porosity_description,conductivity_oh_mS_per_cm,temperature_conductivity_tested,koh_concentration_tested_M,aging_time_in_alkaline_conditions
TTT-PEMP,3,0,C–S,1,UV-cured,None,0,NA,N/A,N/A,N/A,Low,Gel-like,0.589,30,~1,0
TTT-PEMP,3,0,C–S,1,UV-cured,None,0,NA,N/A,N/A,N/A,Low,Gel-like,1.55,60,~1,0
TTT-PEMP-PEGDA,3,0,C–S,0,UV-cured,None,0,NA,N/A,N/A,N/A,Moderate,Gel-like,1.74,90,~1,0
TTT-PEMP-PDMS,3,0,C–S,Partial,UV-cured,None,0,NA,N/A,N/A,N/A,Moderate,Gel-like,0.442,30,~1,0
TTT-PEMP-PDMS,3,0,C–S,Partial,UV-cured,None,0,NA,N/A,N/A,N/A,Moderate,Gel-like,1.11,60,~1,0

".

Definition prompt : text := text_of_literal prompt_literal.

(** ** pdf_parser.py: paths and base64 *)

Section Characters.

Import Stdlib.Strings.Ascii.

(** [s.rfind(c) + 1]: one past the last occurrence of [c], and 0 when
    there is none. *)
Fixpoint rfind1 (c : ascii) (s : list ascii) : nat :=
  match s with
  | [] => 0
  | x :: rest =>
      match rfind1 c rest with
      | O => if (x =? c)%char then 1 else 0
      | S i => S (S i)
      end
  end.

(** [os.path.basename]: what follows the last slash. *)
Definition basename (p : string) : string :=
  let s := String.list_ascii_of_string p in
  String.string_of_list_ascii (drop (rfind1 "/"%char s) s).

(** [os.path.splitext]: the extension starts at the last dot, provided
    that dot lies in the last component and some character other than a
    dot stands between the start of that component and it. *)
Definition splitext (p : string) : string * string :=
  let s := String.list_ascii_of_string p in
  let sep1 := rfind1 "/"%char s in
  let dot1 := rfind1 "."%char s in
  if (sep1 <? dot1)%nat
     && existsb (fun c => negb (c =? ".")%char)
          (take (dot1 - 1 - sep1) (drop sep1 s))
  then (String.string_of_list_ascii (take (dot1 - 1) s),
        String.string_of_list_ascii (drop (dot1 - 1) s))
  else (p, "").

(** The name of the CSV file of a PDF:
    [f"{os.path.splitext(os.path.basename(pdf_path))[0]}_{output_file}"]. *)
Definition csv_name (pdf_path output_file : string) : string :=
  fst (splitext (basename pdf_path)) ++ "_" ++ output_file.

Definition b64_alphabet : list ascii :=
  String.list_ascii_of_string
    "ABCDEFGHIJKLMNOPQRSTUVWXYZabcdefghijklmnopqrstuvwxyz0123456789+/".

Definition b64_char (i : N) : ascii := nth (N.to_nat i) b64_alphabet "="%char.

(** [base64.b64encode(data).decode("utf-8")]: three bytes give four
    characters of six bits each; a last group of one or two bytes is
    filled with zero bits and closed with padding. *)
Fixpoint b64encode (data : list Byte.byte) : string :=
  match data with
  | [] => ""
  | [a] =>
      let n := (Byte.to_N a * 16)%N in
      String (b64_char (n / 64)) (String (b64_char (n mod 64)) "==")
  | [a; b] =>
      let n := ((Byte.to_N a * 256 + Byte.to_N b) * 4)%N in
      String (b64_char (n / 4096))
        (String (b64_char (n / 64 mod 64)) (String (b64_char (n mod 64)) "="))
  | a :: b :: c :: rest =>
      let n := (Byte.to_N a * 65536 + Byte.to_N b * 256 + Byte.to_N c)%N in
      String (b64_char (n / 262144))
        (String (b64_char (n / 4096 mod 64))
           (String (b64_char (n / 64 mod 64))
              (String (b64_char (n mod 64)) (b64encode rest))))
  end.

End Characters.

(** ** pdf_parser.py: processing

    The functions of [pdf_parser.py] read files, call the API, write
    files and print.  What they read, and whether a write succeeds, is
    given by the surroundings, a record of functions of the state; what
    they do is recorded in a trace of events, kept next to the cost
    monitor.  Paths are strings, as the signatures have them.  The
    progress bar is left out, and printing is taken to succeed. *)

(** A value of the fields of [PolymerData]. *)
Inductive Cell : Type :=
| CStr (s : string)
| CInt (i : Z)
| CFloat (x : float).

Record PolymerData : Type := {
  sample_id : string;
  aromatic_ring_count : Z;
  fused_ring_presence : Z;
  linkage_type : string;
  steric_bulk : string;
  degree_of_sulfonation_or_grafting : string;
  cation_type : string;
  acidic_proton : Z;
  acidic_proton_position : string;
  water_uptake_percent : string;
  koh_uptake_percent : string;
  free_volume_nm3_per_g : string;
  swelling_degree_alkaline : string;
  porosity_description : string;
  conductivity_oh_mS_per_cm : float;
  temperature_conductivity_tested : Z;
  koh_concentration_tested_M : string;
  aging_time_in_alkaline_conditions : Z
}.

Record PolymerDataResponse : Type := { data : list PolymerData }.

(** [item.model_dump()]: the fields in the order of their declaration. *)
Definition model_dump (item : PolymerData) : list (string * Cell) :=
  [ ("sample_id", CStr (sample_id item));
    ("aromatic_ring_count", CInt (aromatic_ring_count item));
    ("fused_ring_presence", CInt (fused_ring_presence item));
    ("linkage_type", CStr (linkage_type item));
    ("steric_bulk", CStr (steric_bulk item));
    ("degree_of_sulfonation_or_grafting",
       CStr (degree_of_sulfonation_or_grafting item));
    ("cation_type", CStr (cation_type item));
    ("acidic_proton", CInt (acidic_proton item));
    ("acidic_proton_position", CStr (acidic_proton_position item));
    ("water_uptake_percent", CStr (water_uptake_percent item));
    ("koh_uptake_percent", CStr (koh_uptake_percent item));
    ("free_volume_nm3_per_g", CStr (free_volume_nm3_per_g item));
    ("swelling_degree_alkaline", CStr (swelling_degree_alkaline item));
    ("porosity_description", CStr (porosity_description item));
    ("conductivity_oh_mS_per_cm", CFloat (conductivity_oh_mS_per_cm item));
    ("temperature_conductivity_tested",
       CInt (temperature_conductivity_tested item));
    ("koh_concentration_tested_M", CStr (koh_concentration_tested_M item));
    ("aging_time_in_alkaline_conditions",
       CInt (aging_time_in_alkaline_conditions item)) ].

(** The arguments of [client.responses.parse]: the model, and the file
    name, file data and text of the one user message. *)
Record ParseRequest : Type := {
  req_model : string;
  req_filename : string;
  req_file_data : string;
  req_text : text
}.

(** What the code reads of a parsed response. *)
Record Response : Type := {
  output_text : text;
  output_parsed : option PolymerDataResponse
}.

(** The values held by the dictionaries [process_single_pdf] returns. *)
Inductive PyValue : Type :=
| VStr (s : string)
| VText (t : text)
| VFloat (x : float)
| VList (items : list PolymerData).

(** What the process does to its surroundings, besides the ledger and
    its log.  [CsvWritten] and [TextWritten] are files written in full;
    [WriteFailed] is an attempt to write a file that raised, at [open] or
    later, after which the file may be missing, empty or cut short. *)
Inductive Event : Type :=
| ResponsesParse (request : ParseRequest)
| ResponsesCreate (model : string) (input_text : string)
| CsvWritten (path : string) (fieldnames : list string)
    (rows : list (list (string * Cell)))
| TextWritten (path : string) (content : text)
| WriteFailed (path : string)
| Printed (line : string).

Record pstate : Type := {
  monitor : world;
  trace : list Event
}.

(** The exceptions of the parser: those of the ledger's code, the
    [OSError] of [open(path, "rb")], and whatever the API client, the
    reading of a CSV file or the writing of a file raises, by its
    [str]. *)
Inductive Exception : Type :=
| Builtin (e : exn)
| OSError (strerror : string)
| ClientError (message : string)
| ReadError (message : string)
| WriteError (message : string).

(** [str(e)]. *)
Definition str_of_exception (e : Exception) : string :=
  match e with
  | Builtin (ValueError msg) => msg
  | Builtin OverflowError => "integer division result too large for a float"
  | Builtin ZeroDivisionError => "division by zero"
  | Builtin (IOError message) => message
  | OSError strerror => strerror
  | ClientError message => message
  | ReadError message => message
  | WriteError message => message
  end.

(** The surroundings: the file system read by [open(path, "rb")], the
    rows [csv.reader] finds in a file, the API behind
    [client.responses.parse] and [client.responses.create], the clock,
    and the file system written to, each free to depend on everything
    that happened before.  A call that raises is given by the [str] of
    its exception.  [write_raises s e] tells whether writing the file of
    the event [e], from [open(path, 'w')] to the end of the [with]
    block, raises: [None] when the file is written in full. *)
Record Env : Type := {
  open_rb : pstate -> string -> list Byte.byte + string;
  csv_reader : pstate -> string -> list (list string) + string;
  responses_parse : pstate -> ParseRequest -> Response + string;
  responses_create : pstate -> string -> string -> text + string;
  isoformat_now : pstate -> string;
  write_raises : pstate -> Event -> option string
}.

Inductive poutcome (A : Type) : Type :=
| PReturn (a : A)
| PRaised (e : Exception).
Arguments PReturn {A} a.
Arguments PRaised {A} e.

Definition P (A : Type) : Type := pstate -> poutcome A * pstate.

Definition pret {A : Type} (a : A) : P A := fun s => (PReturn a, s).

Definition pbind {A B : Type} (m : P A) (k : A -> P B) : P B :=
  fun s =>
    match m s with
    | (PReturn a, s') => k a s'
    | (PRaised e, s') => (PRaised e, s')
    end.

Notation "'call' x <- m ; k" := (pbind m (fun x => k))
  (at level 10, x name, m at level 100, k at level 200).
Notation "'stmt' m ; k" := (pbind m (fun _ => k))
  (at level 10, m at level 100, k at level 200).

(** [try: body except Exception as e: handler e]; what the body did
    before it raised stays done. *)
Definition try_except {A : Type} (body : P A) (handler : Exception -> P A)
    : P A :=
  fun s =>
    match body s with
    | (PReturn a, s') => (PReturn a, s')
    | (PRaised e, s') => handler e s'
    end.

Definition lift_result {A : Type} (r : result A) : P A :=
  fun s =>
    match r with
    | Ok a => (PReturn a, s)
    | Raise e => (PRaised (Builtin e), s)
    end.

(** A method of the cost monitor, run on the monitor of the state. *)
Definition on_monitor {A : Type} (m : M A) : P A :=
  fun s =>
    match m (monitor s) with
    | (Return a, w) => (PReturn a, {| monitor := w; trace := trace s |})
    | (Raised e, w) => (PRaised (Builtin e), {| monitor := w; trace := trace s |})
    end.

Definition emit (e : Event) : P unit :=
  fun s => (PReturn tt, {| monitor := monitor s; trace := trace s ++ [e] |}).

Definition print (line : string) : P unit := emit (Printed line).

(** Python's truth value of a dictionary value. *)
Definition truthy (v : PyValue) : bool :=
  match v with
  | VStr s => negb (String.eqb s "")
  | VText t => match t with [] => false | _ => true end
  | VFloat x => negb (feq x PyFloat.zero)
  | VList items => match items with [] => false | _ => true end
  end.

(** The items of a value that is iterated over; only lists are. *)
Definition items_of (v : PyValue) : list PolymerData :=
  match v with VList items => items | _ => [] end.

(** The text of a value that is formatted into a message; only strings
    are. *)
Definition str_of_value (v : PyValue) : string :=
  match v with VStr s => s | _ => "" end.

(** [sep.join(items)]. *)
Fixpoint join (sep : string) (items : list string) : string :=
  match items with
  | [] => ""
  | item :: rest =>
      match rest with
      | [] => item
      | _ => item ++ sep ++ join sep rest
      end
  end.

Definition newline : string := "
".

(** A row as [csv.DictReader] hands it out: the values by field name, a
    later field of the same name winning; the fields the row is too
    short for hold [restval], which is [None].  What a long row has
    beyond the fields goes under the key [None], which no field name
    reaches. *)
Definition dict_row (fieldnames row : list string)
    : gmap string (option string) :=
  let d := fold_left (fun d kv => <[kv.1 := Some kv.2]> d)
             (zip fieldnames row) ∅ in
  fold_left (fun d key => <[key := None]> d)
    (drop (length row) fieldnames) d.

(** [str(row.get(field, ""))]. *)
Definition cell_text (row : gmap string (option string)) (field : string)
    : string :=
  match row !! field with
  | Some (Some value) => value
  | Some None => "None"
  | None => ""
  end.

(** The cells of the markdown table, line by line: the header, the
    separator and one line for each row [csv.DictReader] yields, which
    passes over empty rows. *)
Definition table_cells (fieldnames : list string) (rows : list (list string))
    : list (list string) :=
  fieldnames
  :: replicate (length fieldnames) "---"
  :: ((fun row => cell_text (dict_row fieldnames row) <$> fieldnames)
        <$> filter (fun row => row <> []) rows).

Definition table_line (cells : list string) : string :=
  "| " ++ join " | " cells ++ " |" ++ newline.

Definition markdown_table (fieldnames : list string)
    (rows : list (list string)) : string :=
  String.concat "" (table_line <$> table_cells fieldnames rows).

(** A state with a fresh monitor, in the process of the old one. *)
Definition with_new_monitor (s : pstate) : pstate :=
  {| monitor := __init__ (files (monitor s)); trace := trace s |}.

(** The prompt of [parse_csv_to_markdown] for a table. *)
Definition report_prompt (markdown_content : string) : string :=
  "Interpret the following data in Korean and summarize it in a markdown table format:"
  ++ newline ++ markdown_content.

Section Processing.

Variable E : Env.

Definition encode_pdf_to_base64 (file_path : string) : P string :=
  fun s =>
    match open_rb E s file_path with
    | inl data => (PReturn (b64encode data), s)
    | inr strerror => (PRaised (OSError strerror), s)
    end.

(** [client.responses.parse(...)]: the request goes out, then the API
    answers or the client raises. *)
Definition client_responses_parse (request : ParseRequest) : P Response :=
  fun s =>
    let s' := {| monitor := monitor s;
                 trace := trace s ++ [ResponsesParse request] |} in
    match responses_parse E s request with
    | inl response => (PReturn response, s')
    | inr message => (PRaised (ClientError message), s')
    end.

(** The argument [cost_monitor] is the monitor of the state. *)
Definition process_single_pdf (pdf_path model_name : string)
    : P (gmap string PyValue) :=
  call base64_string <- encode_pdf_to_base64 pdf_path;
  call model_info <- lift_result (get_model_info model_name);
  try_except
    (call response <- client_responses_parse
         {| req_model := model_name;
            req_filename := basename pdf_path;
            req_file_data := "data:application/pdf;base64," ++ base64_string;
            req_text := prompt |};
     let input_tokens := len (str_split prompt) in
     let output_tokens := len (str_split (output_text response)) in
     call cost <- on_monitor
         (log_request model_name pdf_path input_tokens output_tokens false
            (Some model_info));
     pret (match output_parsed response with
           | Some parsed =>
               {[ "data" := VList (data parsed); "cost" := VFloat cost ]}
           | None =>
               {[ "error" := VStr "No data parsed from response";
                  "raw_response" := VText (output_text response);
                  "cost" := VFloat cost ]}
           end))
    (fun e =>
       pret {[ "error" := VStr (str_of_exception e);
               "file" := VStr pdf_path ]}).

(** [with open(path, 'w', ...) as f:] and the writing in its block, for
    the file of the event [e]: the file is written, or an exception
    escapes and leaves the file in an unknown condition. *)
Definition write (path : string) (e : Event) : P unit :=
  fun s =>
    match write_raises E s e with
    | None =>
        (PReturn tt, {| monitor := monitor s; trace := trace s ++ [e] |})
    | Some message =>
        (PRaised (WriteError message),
         {| monitor := monitor s; trace := trace s ++ [WriteFailed path] |})
    end.

(** [cost_monitor = CostMonitor()]; the directory and the file of its
    log belong to the monitor, see [__init__]. *)
Definition new_cost_monitor : P unit :=
  fun s => (PReturn tt, with_new_monitor s).

(** [cost_monitor.save_summary()], with the default destination, the
    file [cost_summary.json] of the working directory, which is taken to
    open. *)
Definition cost_monitor_save_summary : P unit :=
  fun s =>
    on_monitor
      (save_summary (isoformat_now E s) (Ok tt) "cost_summary.json") s.

(** The body of the loop of [process_pdfs]. *)
Definition process_pdfs_body (model_name output_file pdf_path : string)
    : P unit :=
  call result <- process_single_pdf pdf_path model_name;
  match result !! "error" with
  | None =>
      let polymer_data := default (VList []) (result !! "data") in
      let output_file_with_prefix := csv_name pdf_path output_file in
      if truthy polymer_data then
        let data_to_write := model_dump <$> items_of polymer_data in
        let fieldnames := (default [] (head data_to_write)).*1 in
        stmt write output_file_with_prefix
               (CsvWritten output_file_with_prefix fieldnames data_to_write);
        print ("CSV file saved: " ++ output_file_with_prefix)
      else print ("No data extracted from " ++ pdf_path)
  | Some error =>
      print ("Error processing " ++ pdf_path ++ ": " ++ str_of_value error)
  end.

Fixpoint for_each {A : Type} (items : list A) (body : A -> P unit) : P unit :=
  match items with
  | [] => pret tt
  | item :: rest => stmt body item; for_each rest body
  end.

Definition process_pdfs (pdf_paths : list string) (model_name : string)
    (output_file : string) : P (list (gmap string PyValue)) :=
  let results := [] in
  stmt new_cost_monitor;
  stmt for_each pdf_paths (process_pdfs_body model_name output_file);
  stmt cost_monitor_save_summary;
  pret results.

(** [client.responses.create(...)], read for its [output_text]. *)
Definition client_responses_create (model input_text : string) : P text :=
  fun s =>
    let s' := {| monitor := monitor s;
                 trace := trace s ++ [ResponsesCreate model input_text] |} in
    match responses_create E s model input_text with
    | inl output => (PReturn output, s')
    | inr message => (PRaised (ClientError message), s')
    end.

(** The rows of [csv.DictReader(f)] for the opened file, header first. *)
Definition read_csv (csv_file : string) : P (list (list string)) :=
  fun s =>
    match csv_reader E s csv_file with
    | inl rows => (PReturn rows, s)
    | inr message => (PRaised (ReadError message), s)
    end.

Definition parse_csv_to_markdown (csv_file markdown_file : string) : P unit :=
  try_except
    (call lines <- read_csv csv_file;
     match lines with
     | [] => print ("No data found in " ++ csv_file)
     | fieldnames :: rows =>
         if bool_decide (fieldnames = []) then
           print ("No data found in " ++ csv_file)
         else
           let markdown_content := markdown_table fieldnames rows in
           let prompt := report_prompt markdown_content in
           try_except
             (call output_text <-
                client_responses_create "gpt-4.1-nano" prompt;
              stmt write markdown_file
                     (TextWritten markdown_file output_text);
              print ("Markdown report saved to " ++ markdown_file))
             (fun e =>
                print ("Error interpreting results: " ++ str_of_exception e))
     end)
    (fun e => print ("Error reading CSV file: " ++ str_of_exception e)).

End Processing.

(** ** Vocabulary of the statements about pdf_parser.py *)

(** The request [process_single_pdf] sends for a file of content
    [content]. *)
Definition request_for (pdf_path model_name : string)
    (content : list Byte.byte) : ParseRequest :=
  {| req_model := model_name;
     req_filename := basename pdf_path;
     req_file_data := "data:application/pdf;base64," ++ b64encode content;
     req_text := prompt |}.

(** The state once a request has gone out. *)
Definition sent (request : ParseRequest) (s : pstate) : pstate :=
  {| monitor := monitor s; trace := trace s ++ [ResponsesParse request] |}.

(** The parse requests of a trace, in order. *)
Definition api_calls (events : list Event) : list ParseRequest :=
  omap (fun e => match e with ResponsesParse r => Some r | _ => None end)
       events.

(** The field names of [PolymerData], in the order of declaration. *)
Definition polymer_fieldnames : list string :=
  [ "sample_id"; "aromatic_ring_count"; "fused_ring_presence";
    "linkage_type"; "steric_bulk"; "degree_of_sulfonation_or_grafting";
    "cation_type"; "acidic_proton"; "acidic_proton_position";
    "water_uptake_percent"; "koh_uptake_percent"; "free_volume_nm3_per_g";
    "swelling_degree_alkaline"; "porosity_description";
    "conductivity_oh_mS_per_cm"; "temperature_conductivity_tested";
    "koh_concentration_tested_M"; "aging_time_in_alkaline_conditions" ].

(** The dictionary returned when the request was answered. *)
Definition answered (response : Response) (cost : float)
    : gmap string PyValue :=
  match output_parsed response with
  | Some parsed => {[ "data" := VList (data parsed); "cost" := VFloat cost ]}
  | None =>
      {[ "error" := VStr "No data parsed from response";
         "raw_response" := VText (output_text response);
         "cost" := VFloat cost ]}
  end.

(** The dictionary returned when the request or the accounting raised. *)
Definition failed (message pdf_path : string) : gmap string PyValue :=
  {[ "error" := VStr message; "file" := VStr pdf_path ]}.

(** The dictionaries [process_single_pdf] returns. *)
Definition is_result (pdf_path : string) (result : gmap string PyValue)
    : Prop :=
  (exists message, result = failed message pdf_path) \/
  (exists response cost, result = answered response cost).

(** The CSV file one round of the loop of [process_pdfs] sets out to
    write for the dictionary [result] of [pdf_path], if any. *)
Definition csv_of (pdf_path output_file : string)
    (result : gmap string PyValue) : option Event :=
  match result !! "error" with
  | None =>
      let polymer_data := default (VList []) (result !! "data") in
      if truthy polymer_data then
        Some (CsvWritten (csv_name pdf_path output_file)
                (default [] (head (model_dump <$> items_of polymer_data))).*1
                (model_dump <$> items_of polymer_data))
      else None
  | Some _ => None
  end.

(** What one round of the loop of [process_pdfs] writes and prints for
    the dictionary [result] of [pdf_path], when writing does not
    raise. *)
Definition report (pdf_path output_file : string)
    (result : gmap string PyValue) : list Event :=
  match result !! "error" with
  | None =>
      let polymer_data := default (VList []) (result !! "data") in
      if truthy polymer_data then
        [ CsvWritten (csv_name pdf_path output_file)
            (default [] (head (model_dump <$> items_of polymer_data))).*1
            (model_dump <$> items_of polymer_data);
          Printed ("CSV file saved: " ++ csv_name pdf_path output_file) ]
      else [ Printed ("No data extracted from " ++ pdf_path) ]
  | Some error =>
      [ Printed ("Error processing " ++ pdf_path ++ ": "
                 ++ str_of_value error) ]
  end.

(** The events of one round of the loop of [process_pdfs], for
    [pdf_path]: one request for that file; then either its CSV file,
    named after it, with the field names of [PolymerData] as header and
    at least one row, and the line that announces it, or a failed attempt
    to write that CSV file, or one printed line. *)
Definition round (model_name output_file pdf_path : string)
    (events : list Event) : Prop :=
  exists content after,
    events = ResponsesParse (request_for pdf_path model_name content) :: after /\
    ((exists rows,
        rows <> [] /\
        Forall (fun row => row.*1 = polymer_fieldnames) rows /\
        after = [ CsvWritten (csv_name pdf_path output_file)
                    polymer_fieldnames rows;
                  Printed ("CSV file saved: "
                           ++ csv_name pdf_path output_file) ]) \/
     after = [ WriteFailed (csv_name pdf_path output_file) ] \/
     exists line, after = [ Printed line ]).

(** The log line of a charged request of a run of [process_pdfs], given
    its file, the words of the answer and the cost. *)
Definition request_line (model_name : string) (x : string * Z * float)
    : LogRecord :=
  RequestLine model_name x.1.1 219 x.1.2 x.2.

(** The request is one for this file. *)
Definition requests (model_name pdf_path : string) (request : ParseRequest)
    : Prop :=
  exists content, request = request_for pdf_path model_name content.





Section Decoding.

Import Stdlib.Strings.Ascii.





End Decoding.

(** ** Surroundings of the examples *)

(** Every file but [missing.pdf] can be read and holds the four bytes of
    ["%PDF"]; the API fails for [bad.pdf], parses nothing for
    [blank.pdf] and otherwise answers with one row; the clock stands
    still; every file can be written but the CSV file and the report of
    [locked.pdf]. *)
Definition example_row : PolymerData := {|
  sample_id := "TTT-PEMP";
  aromatic_ring_count := 3;
  fused_ring_presence := 0;
  linkage_type := "C-S";
  steric_bulk := "1";
  degree_of_sulfonation_or_grafting := "UV-cured";
  cation_type := "None";
  acidic_proton := 0;
  acidic_proton_position := "NA";
  water_uptake_percent := "N/A";
  koh_uptake_percent := "N/A";
  free_volume_nm3_per_g := "N/A";
  swelling_degree_alkaline := "Low";
  porosity_description := "Gel-like";
  conductivity_oh_mS_per_cm := float_lit 589 3;
  temperature_conductivity_tested := 30;
  koh_concentration_tested_M := "~1";
  aging_time_in_alkaline_conditions := 0
|}.

Definition example_response : Response := {|
  output_text := [123; 125; 32; 111; 107]%N;
  output_parsed := Some {| data := [example_row] |}
|}.

Definition example_env : Env := {|
  open_rb := fun _ path =>
    if String.eqb path "missing.pdf"
    then inr "[Errno 2] No such file or directory: 'missing.pdf'"
    else inl [Byte.x25; Byte.x50; Byte.x44; Byte.x46];
  csv_reader := fun _ _ => inl [["sample_id"; "linkage_type"]; ["TTT-PEMP"]];
  responses_parse := fun _ request =>
    if String.eqb (req_filename request) "bad.pdf"
    then inr "Connection error."
    else if String.eqb (req_filename request) "blank.pdf"
    then inl {| output_text := []; output_parsed := None |}
    else inl example_response;
  responses_create := fun _ _ _ => inl [35; 32; 50]%N;
  isoformat_now := fun _ => "2025-05-01T10:00:00";
  write_raises := fun _ e =>
    match e with
    | CsvWritten path _ _ =>
        if String.eqb path "locked_results.csv"
        then Some "[Errno 13] Permission denied: 'locked_results.csv'"
        else None
    | TextWritten path _ =>
        if String.eqb path "locked_results.md"
        then Some "[Errno 13] Permission denied: 'locked_results.md'"
        else None
    | _ => None
    end
|}.

Definition example_state : pstate :=
  {| monitor := __init__ ∅; trace := [] |}.

(** ** Sanity of the float layer *)

(** The decimal literals agree with the kernel's own binary64 parser. *)
Lemma float_lit_agrees_with_kernel :
  Prim2SF 0.40%float = float_lit 40 2 /\
  Prim2SF 0.10%float = float_lit 10 2 /\
  Prim2SF 1.60%float = float_lit 160 2 /\
  Prim2SF 2.00%float = float_lit 200 2 /\
  Prim2SF 0.50%float = float_lit 50 2 /\
  Prim2SF 8.00%float = float_lit 800 2 /\
  Prim2SF 0.025%float = float_lit 25 3 /\
  Prim2SF 0.275%float = float_lit 275 3 /\
  Prim2SF 4.400%float = float_lit 4400 3 /\
  Prim2SF 1.20%float = float_lit 120 2 /\
  Prim2SF 0.20%float = float_lit 20 2 /\
  Prim2SF 1.2000000000000002%float = float_lit 12000000000000002 16.
Proof. vm_compute. repeat split. Qed.

(** ** Binary64 rounding *)

Lemma fexp_unfold e : fexp prec emax e = Z.max (e - 53) (-1074).
Proof. reflexivity. Qed.

Lemma fexp_mono e e' : e <= e' -> fexp prec emax e <= fexp prec emax e'.
Proof. rewrite !fexp_unfold. lia. Qed.

Lemma digits2_pos_bounds p :
  2 ^ (Zpos (digits2_pos p) - 1) <= Zpos p < 2 ^ Zpos (digits2_pos p).
Proof.
  induction p as [p IH | p IH |]; simpl digits2_pos.
  - rewrite Pos2Z.inj_succ.
    replace (Z.succ (Zpos (digits2_pos p)) - 1)
      with (Z.succ (Zpos (digits2_pos p) - 1)) by lia.
    rewrite !Z.pow_succ_r by lia. lia.
  - rewrite Pos2Z.inj_succ.
    replace (Z.succ (Zpos (digits2_pos p)) - 1)
      with (Z.succ (Zpos (digits2_pos p) - 1)) by lia.
    rewrite !Z.pow_succ_r by lia. lia.
  - simpl. lia.
Qed.

Lemma Zdigits2_bounds m :
  0 < m -> 2 ^ (Zdigits2 m - 1) <= m < 2 ^ Zdigits2 m.
Proof.
  destruct m as [| p | p]; try lia. intros _. apply digits2_pos_bounds.
Qed.

Lemma Zdigits2_pos m : 0 < m -> 0 < Zdigits2 m.
Proof. destruct m; simpl; lia. Qed.

Lemma Zdigits2_nonneg m : 0 <= Zdigits2 m.
Proof. destruct m; simpl; lia. Qed.

Lemma Zdigits2_ge m k : 0 <= k -> 2 ^ k <= m -> k + 1 <= Zdigits2 m.
Proof.
  intros Hk Hm.
  assert (0 < m) by (pose proof (Z.pow_pos_nonneg 2 k); lia).
  destruct (Zdigits2_bounds m H) as [_ Hup].
  assert (2 ^ k < 2 ^ Zdigits2 m) by lia.
  apply Z.pow_lt_mono_r_iff in H0; [lia | lia | apply Zdigits2_nonneg].
Qed.

Lemma Zdigits2_le m k : 0 <= k -> 0 <= m < 2 ^ k -> Zdigits2 m <= k.
Proof.
  intros Hk [Hm0 Hm].
  destruct (Z.eq_dec m 0) as [-> | Hne]; [simpl; lia |].
  destruct (Zdigits2_bounds m ltac:(lia)) as [Hlo _].
  assert (2 ^ (Zdigits2 m - 1) < 2 ^ k) by lia.
  apply Z.pow_lt_mono_r_iff in H; lia.
Qed.

Lemma Zdigits2_unique m d :
  0 < m -> 2 ^ (d - 1) <= m < 2 ^ d -> Zdigits2 m = d.
Proof.
  intros Hm [Hlo Hup].
  assert (0 < d).
  { destruct (Z_lt_le_dec 0 d); [assumption |].
    destruct (Z.eq_dec d 0) as [-> | ?]; [simpl in Hup; lia |].
    rewrite Z.pow_neg_r in Hup by lia. lia. }
  pose proof (Zdigits2_ge m (d - 1) ltac:(lia) Hlo).
  pose proof (Zdigits2_le m d ltac:(lia) ltac:(lia)).
  lia.
Qed.

Lemma Zdigits2_mono m m' : 0 <= m <= m' -> Zdigits2 m <= Zdigits2 m'.
Proof.
  intros [H0 Hle].
  destruct (Z.eq_dec m' 0) as [-> | Hne].
  - replace m with 0 by lia. lia.
  - apply Zdigits2_le; [apply Zdigits2_nonneg |].
    destruct (Zdigits2_bounds m' ltac:(lia)). lia.
Qed.

Lemma Zdigits2_shift m n :
  0 <= n -> 0 < m / 2 ^ n -> Zdigits2 (m / 2 ^ n) = Zdigits2 m - n.
Proof.
  intros Hn Hq.
  assert (Hp : 0 < 2 ^ n) by (apply Z.pow_pos_nonneg; lia).
  assert (Hm : 2 ^ n <= m).
  { destruct (Z_lt_le_dec m (2 ^ n)); [| assumption].
    destruct (Z_lt_le_dec m 0).
    - pose proof (Z.div_lt_upper_bound m (2 ^ n) 0 Hp ltac:(lia)). lia.
    - rewrite Z.div_small in Hq by lia. lia. }
  destruct (Zdigits2_bounds m ltac:(lia)) as [Hlo Hup].
  pose proof (Zdigits2_ge m n Hn Hm) as Hd.
  apply Zdigits2_unique; [assumption |]. split.
  - apply Z.div_le_lower_bound; [assumption |].
    rewrite <- Z.pow_add_r by lia.
    replace (n + (Zdigits2 m - n - 1)) with (Zdigits2 m - 1) by lia. exact Hlo.
  - apply Z.div_lt_upper_bound; [assumption |].
    rewrite <- Z.pow_add_r by lia.
    replace (n + (Zdigits2 m - n)) with (Zdigits2 m) by lia. exact Hup.
Qed.

Lemma iter_pos_nat {A : Type} (f : A -> A) p : forall x,
  SpecFloat.iter_pos f p x = Nat.iter (Pos.to_nat p) f x.
Proof.
  induction p as [p IH | p IH |]; intros x; simpl SpecFloat.iter_pos.
  - rewrite !IH, Pos2Nat.inj_xI. simpl Nat.iter.
    rewrite <- Nat.iter_add.
    replace (Pos.to_nat p + Pos.to_nat p)%nat with (2 * Pos.to_nat p)%nat by lia.
    rewrite <- Nat.iter_succ_r. reflexivity.
  - rewrite !IH, Pos2Nat.inj_xO, <- Nat.iter_add.
    replace (Pos.to_nat p + Pos.to_nat p)%nat with (2 * Pos.to_nat p)%nat by lia.
    reflexivity.
  - reflexivity.
Qed.

Lemma shr_1_m mrs :
  0 <= shr_m mrs -> shr_m (shr_1 mrs) = shr_m mrs / 2.
Proof.
  destruct mrs as [m r s]. simpl shr_m. intros Hm.
  destruct m as [| p | p]; [reflexivity | | lia].
  destruct p as [p | p |]; simpl shr_m.
  - rewrite Pos2Z.inj_xI. apply Z.div_unique with 1; lia.
  - rewrite Pos2Z.inj_xO. apply Z.div_unique with 0; lia.
  - reflexivity.
Qed.

Lemma shr_iter_m (n : nat) mrs :
  0 <= shr_m mrs ->
  shr_m (Nat.iter n shr_1 mrs) = shr_m mrs / 2 ^ Z.of_nat n.
Proof.
  intros Hm. induction n as [| n IH].
  - simpl. rewrite Z.div_1_r. reflexivity.
  - simpl Nat.iter. rewrite shr_1_m.
    + rewrite IH, Nat2Z.inj_succ, Z.pow_succ_r by lia.
      rewrite Z.div_div by (try apply Z.pow_pos_nonneg; lia).
      f_equal. lia.
    + rewrite IH. apply Z.div_pos; [assumption |].
      apply Z.pow_pos_nonneg; lia.
Qed.

Lemma shr_record_of_loc_m m l : shr_m (shr_record_of_loc m l) = m.
Proof. destruct l as [| []]; reflexivity. Qed.

(** Shifting right to the exponent of the format truncates the
    mantissa. *)
Lemma shr_fexp_spec m e l :
  0 <= m ->
  e <= fexp prec emax (Zdigits2 m + e) ->
  snd (shr_fexp prec emax m e l) = fexp prec emax (Zdigits2 m + e) /\
  shr_m (fst (shr_fexp prec emax m e l))
    = m / 2 ^ (fexp prec emax (Zdigits2 m + e) - e).
Proof.
  intros Hm He. unfold shr_fexp, shr.
  destruct (fexp prec emax (Zdigits2 m + e) - e) as [| n | n] eqn:Hn;
    simpl fst; simpl snd.
  - rewrite shr_record_of_loc_m, Z.div_1_r. split; lia.
  - rewrite iter_pos_nat, shr_iter_m, shr_record_of_loc_m
      by (rewrite shr_record_of_loc_m; exact Hm).
    rewrite positive_nat_Z. split; [lia | reflexivity].
  - lia.
Qed.

Lemma round_nearest_even_cases m l :
  round_nearest_even m l = m \/ round_nearest_even m l = m + 1.
Proof.
  destruct l as [| []]; simpl; auto. destruct (Z.even m); auto.
Qed.

(** What [binary_round_aux] computes on a mantissa that is at or below
    the exponent of the format: truncate, round up by at most one unit,
    truncate once more in case of a carry. *)
Lemma binary_round_aux_spec s mx ex lx :
  0 <= mx ->
  ex <= fexp prec emax (Zdigits2 mx + ex) ->
  exists m1',
    let e1 := fexp prec emax (Zdigits2 mx + ex) in
    let m1 := mx / 2 ^ (e1 - ex) in
    (m1' = m1 \/ m1' = m1 + 1) /\
    let e2 := fexp prec emax (Zdigits2 m1' + e1) in
    e1 <= e2 /\
    binary_round_aux prec emax s mx ex lx =
      match m1' / 2 ^ (e2 - e1) with
      | Z0 => S754_zero s
      | Zpos m =>
          if e2 <=? emax - prec then S754_finite s m e2
          else S754_infinity s
      | Zneg _ => S754_nan
      end.
Proof.
  intros Hm He.
  destruct (shr_fexp_spec mx ex lx Hm He) as [Hsnd Hfst].
  unfold binary_round_aux.
  destruct (shr_fexp prec emax mx ex lx) as [mrs' e'] eqn:Hshr.
  simpl in Hsnd, Hfst. subst e'.
  set (e1 := fexp prec emax (Zdigits2 mx + ex)) in *.
  set (m1 := mx / 2 ^ (e1 - ex)) in *.
  set (m1' := round_nearest_even (shr_m mrs') (loc_of_shr_record mrs')).
  assert (Hp : 0 < 2 ^ (e1 - ex)) by (apply Z.pow_pos_nonneg; lia).
  assert (Hm1 : 0 <= m1) by (apply Z.div_pos; assumption).
  assert (Hcases : m1' = m1 \/ m1' = m1 + 1).
  { unfold m1'. rewrite <- Hfst. apply round_nearest_even_cases. }
  assert (Hm1' : 0 <= m1') by lia.
  assert (He1 : e1 <= fexp prec emax (Zdigits2 m1' + e1)).
  { destruct (Z.eq_dec m1 0) as [Hz | Hnz].
    - assert (mx < 2 ^ (e1 - ex)).
      { destruct (Z_lt_le_dec mx (2 ^ (e1 - ex))); [assumption |].
        assert (1 <= m1); [| lia].
        unfold m1. apply Z.div_le_lower_bound; lia. }
      pose proof (Zdigits2_le mx (e1 - ex) ltac:(lia) ltac:(lia)).
      assert (He1 : e1 = Z.max (Zdigits2 mx + ex - 53) (-1074))
        by apply fexp_unfold.
      rewrite fexp_unfold. lia.
    - assert (Hd : Zdigits2 m1 = Zdigits2 mx - (e1 - ex)).
      { unfold m1. apply Zdigits2_shift; [lia | fold m1; lia]. }
      pose proof (Zdigits2_mono m1 m1' ltac:(lia)).
      unfold e1 at 1. apply fexp_mono. lia. }
  exists m1'. split; [exact Hcases |]. split; [exact He1 |].
  destruct (shr_fexp_spec m1' e1 loc_Exact Hm1' He1) as [Hsnd2 Hfst2].
  destruct (shr_fexp prec emax m1' e1 loc_Exact) as [mrs'' e''] eqn:Hshr2.
  simpl in Hsnd2, Hfst2. subst e''. rewrite Hfst2. reflexivity.
Qed.

(** *** Validity and sign of rounded results *)

Lemma binary_round_aux_valid s mx ex lx :
  0 <= mx ->
  ex <= fexp prec emax (Zdigits2 mx + ex) ->
  valid_binary prec emax (binary_round_aux prec emax s mx ex lx) = true.
Proof.
  intros Hm He.
  destruct (binary_round_aux_spec s mx ex lx Hm He)
    as (m1' & Hcases & He1 & ->).
  cbv zeta in *.
  set (e1 := fexp prec emax (Zdigits2 mx + ex)) in *.
  set (e2 := fexp prec emax (Zdigits2 m1' + e1)) in *.
  destruct (m1' / 2 ^ (e2 - e1)) as [| m |] eqn:Hq; try reflexivity.
  destruct (e2 <=? emax - prec) eqn:Hle; [| reflexivity].
  simpl. unfold bounded, canonical_mantissa. rewrite Hle, andb_true_r.
  apply Z.eqb_eq.
  change (Z.pos (digits2_pos m)) with (Zdigits2 (Z.pos m)).
  rewrite <- Hq, Zdigits2_shift by lia.
  replace (Zdigits2 m1' - (e2 - e1) + e2) with (Zdigits2 m1' + e1) by lia.
  reflexivity.
Qed.

Lemma binary_round_aux_signed s mx ex lx :
  0 <= mx ->
  ex <= fexp prec emax (Zdigits2 mx + ex) ->
  signed s (binary_round_aux prec emax s mx ex lx).
Proof.
  intros Hm He.
  destruct (binary_round_aux_spec s mx ex lx Hm He)
    as (m1' & Hcases & He1 & ->).
  cbv zeta in *.
  set (e1 := fexp prec emax (Zdigits2 mx + ex)) in *.
  set (e2 := fexp prec emax (Zdigits2 m1' + e1)) in *.
  assert (0 <= m1' / 2 ^ (e2 - e1)).
  { apply Z.div_pos; [| apply Z.pow_pos_nonneg; lia].
    assert (0 <= mx / 2 ^ (e1 - ex)); [| lia].
    apply Z.div_pos; [assumption | apply Z.pow_pos_nonneg; lia]. }
  destruct (m1' / 2 ^ (e2 - e1)) as [| m |]; [reflexivity | | lia].
  destruct (e2 <=? emax - prec); reflexivity.
Qed.

Lemma signed_false_nonneg x : signed false x -> fle zero x = true.
Proof. destruct x as [s | s | | s m e]; simpl; try tauto; intros ->; reflexivity. Qed.

Lemma pos_iter_xO m d : Z.pos (Pos.iter xO m d) = Z.pos m * 2 ^ Z.pos d.
Proof.
  rewrite <- (positive_nat_Z d), Pos2Nat.inj_iter.
  induction (Pos.to_nat d) as [| n IH].
  - simpl. lia.
  - rewrite Nat2Z.inj_succ, Z.pow_succ_r by lia. simpl nat_rect.
    rewrite Pos2Z.inj_xO, IH. lia.
Qed.

Lemma shl_align_spec mx ex e' :
  e' <= ex ->
  Z.pos (fst (shl_align mx ex e')) = Z.pos mx * 2 ^ (ex - e') /\
  snd (shl_align mx ex e') = e'.
Proof.
  intros Hle. unfold shl_align.
  destruct (e' - ex) as [| d | d] eqn:Hd; simpl fst; simpl snd.
  - replace (ex - e') with 0 by lia. split; lia.
  - lia.
  - rewrite pos_iter_xO. replace (ex - e') with (Z.pos d) by lia.
    split; reflexivity.
Qed.

Lemma shl_align_id mx ex e' :
  ex <= e' -> shl_align mx ex e' = (mx, ex).
Proof.
  intros Hle. unfold shl_align.
  destruct (e' - ex) as [| d | d] eqn:Hd; try reflexivity. lia.
Qed.

Lemma Zdigits2_mul_pow2 m k :
  0 < m -> 0 <= k -> Zdigits2 (m * 2 ^ k) = Zdigits2 m + k.
Proof.
  intros Hm Hk.
  destruct (Zdigits2_bounds m Hm) as [Hlo Hup].
  pose proof (Zdigits2_pos m Hm).
  assert (0 < 2 ^ k) by (apply Z.pow_pos_nonneg; lia).
  apply Zdigits2_unique; [nia |].
  replace (Zdigits2 m + k - 1) with (Zdigits2 m - 1 + k) by lia.
  rewrite !Z.pow_add_r by lia. split; nia.
Qed.

(** [binary_round] first aligns the mantissa to the exponent of the
    format; the value is unchanged and [binary_round_aux] applies. *)
Lemma binary_round_align ms ez :
  exists mz e0,
    shl_align ms ez (fexp prec emax (Z.pos (digits2_pos ms) + ez)) = (mz, e0) /\
    e0 <= ez /\
    Z.pos mz = Z.pos ms * 2 ^ (ez - e0) /\
    e0 <= fexp prec emax (Zdigits2 (Z.pos mz) + e0) /\
    (-1074 <= ez -> -1074 <= e0).
Proof.
  set (fe := fexp prec emax (Z.pos (digits2_pos ms) + ez)).
  destruct (Z_lt_le_dec fe ez) as [Hlt | Hge].
  - destruct (shl_align_spec ms ez fe ltac:(lia)) as [Hm He].
    destruct (shl_align ms ez fe) as [mz e0]. simpl in Hm, He. subst e0.
    exists mz, fe. split; [reflexivity |]. split; [lia |].
    split; [exact Hm |]. split.
    + rewrite Hm, Zdigits2_mul_pow2 by lia.
      replace (Zdigits2 (Z.pos ms) + (ez - fe) + fe)
        with (Z.pos (digits2_pos ms) + ez) by (simpl; lia).
      fold fe. lia.
    + intros _. unfold fe. rewrite fexp_unfold. lia.
  - exists ms, ez. rewrite shl_align_id by exact Hge.
    split; [reflexivity |]. split; [lia |].
    split; [rewrite Z.sub_diag; lia |]. split; [exact Hge | tauto].
Qed.

Lemma binary_round_valid s ms ez :
  valid_binary prec emax (binary_round prec emax s ms ez) = true.
Proof.
  destruct (binary_round_align ms ez) as (mz & e0 & Hal & _ & _ & He0 & _).
  unfold binary_round. rewrite Hal.
  apply binary_round_aux_valid; [lia | exact He0].
Qed.

Lemma binary_round_signed s ms ez :
  signed s (binary_round prec emax s ms ez).
Proof.
  destruct (binary_round_align ms ez) as (mz & e0 & Hal & _ & _ & He0 & _).
  unfold binary_round. rewrite Hal.
  apply binary_round_aux_signed; [lia | exact He0].
Qed.

(** *** Order *)

Lemma valid_finite_inv s m e :
  valid_binary prec emax (S754_finite s m e) = true ->
  e = fexp prec emax (Zdigits2 (Z.pos m) + e) /\ e <= 971 /\ -1074 <= e.
Proof.
  simpl. unfold bounded, canonical_mantissa.
  intros H. apply andb_true_iff in H as [Hc Hb].
  apply Z.eqb_eq in Hc. apply Z.leb_le in Hb.
  change (Z.pos (digits2_pos m)) with (Zdigits2 (Z.pos m)) in Hc.
  split; [symmetry; exact Hc |]. split; [exact Hb |].
  rewrite fexp_unfold in Hc. lia.
Qed.

Lemma pow2_le_mono a b : 0 <= a <= b -> 2 ^ a <= 2 ^ b.
Proof. intros. apply Z.pow_le_mono_r; lia. Qed.

Lemma pow2_pos a : 0 <= a -> 0 < 2 ^ a.
Proof. intros. apply Z.pow_pos_nonneg; lia. Qed.

(** On canonical representations the comparison by exponent, then by
    mantissa, is the comparison of the values. *)
Lemma canonical_le m1 e1 m2 e2 :
  valid_binary prec emax (S754_finite false m1 e1) = true ->
  valid_binary prec emax (S754_finite false m2 e2) = true ->
  units m1 e1 <= units m2 e2 ->
  fle (S754_finite false m1 e1) (S754_finite false m2 e2) = true.
Proof.
  intros H1 H2 Hle.
  apply valid_finite_inv in H1 as (Hc1 & _ & Hlo1).
  apply valid_finite_inv in H2 as (Hc2 & _ & Hlo2).
  unfold units in Hle. unfold fle, SFleb, SFcompare.
  destruct (Z.compare_spec e1 e2) as [-> | Hlt | Hgt]; [| reflexivity |].
  - assert (0 < 2 ^ (e2 + 1074)) by (apply pow2_pos; lia).
    assert (Hm : (m1 <= m2)%positive) by nia.
    rewrite Pos.compare_cont_spec. simpl.
    apply Pos.compare_le_iff in Hm.
    destruct (m1 ?= m2)%positive; [reflexivity | reflexivity | congruence].
  - exfalso.
    assert (Hd : Zdigits2 (Z.pos m2) + e2 < Zdigits2 (Z.pos m1) + e1).
    { rewrite fexp_unfold in Hc1, Hc2. lia. }
    destruct (Zdigits2_bounds (Z.pos m1) ltac:(lia)) as [Hlo _].
    destruct (Zdigits2_bounds (Z.pos m2) ltac:(lia)) as [_ Hup].
    pose proof (Zdigits2_pos (Z.pos m1) ltac:(lia)).
    pose proof (Zdigits2_pos (Z.pos m2) ltac:(lia)).
    assert (Z.pos m2 * 2 ^ (e2 + 1074)
            < 2 ^ (Zdigits2 (Z.pos m2) + (e2 + 1074))).
    { rewrite (Z.pow_add_r 2 (Zdigits2 (Z.pos m2))) by lia.
      apply Z.mul_lt_mono_pos_r; [apply pow2_pos; lia | exact Hup]. }
    assert (2 ^ (Zdigits2 (Z.pos m1) - 1 + (e1 + 1074))
            <= Z.pos m1 * 2 ^ (e1 + 1074)).
    { rewrite (Z.pow_add_r 2 (Zdigits2 (Z.pos m1) - 1)) by lia.
      apply Z.mul_le_mono_nonneg_r; [apply Z.lt_le_incl, pow2_pos; lia |].
      exact Hlo. }
    pose proof (pow2_le_mono (Zdigits2 (Z.pos m2) + (e2 + 1074))
                  (Zdigits2 (Z.pos m1) - 1 + (e1 + 1074)) ltac:(lia)).
    lia.
Qed.

Lemma fle_refl_valid x :
  fle zero x = true -> fle x x = true.
Proof.
  destruct x as [s | s | | s m e]; simpl; try reflexivity; try discriminate.
  - destruct s; [discriminate | reflexivity].
  - destruct s; [discriminate |]. intros _.
    unfold fle, SFleb, SFcompare. rewrite Z.compare_refl.
    rewrite Pos.compare_cont_refl. reflexivity.
Qed.

(** Truncating [m * 2^e] to the exponent of the format does not go
    below a number of the format that is at most [m * 2^e]. *)
Lemma floor_keeps_format mt et m e :
  0 < mt -> -1074 <= et ->
  fexp prec emax (Zdigits2 mt + et) <= et ->
  0 < m -> -1074 <= e ->
  e <= fexp prec emax (Zdigits2 m + e) ->
  mt * 2 ^ (et + 1074) <= m * 2 ^ (e + 1074) ->
  mt * 2 ^ (et + 1074)
  <= m / 2 ^ (fexp prec emax (Zdigits2 m + e) - e)
     * 2 ^ (fexp prec emax (Zdigits2 m + e) + 1074).
Proof.
  intros Hmt Het Hfmt Hm He Hfe Hle.
  set (e' := fexp prec emax (Zdigits2 m + e)) in *.
  assert (He' : e' = Z.max (Zdigits2 m + e - 53) (-1074))
    by apply fexp_unfold.
  rewrite fexp_unfold in Hfmt.
  assert (Hpn : 0 < 2 ^ (e' - e)) by (apply pow2_pos; lia).
  assert (Hpe : 0 < 2 ^ (e + 1074)) by (apply pow2_pos; lia).
  replace (e' + 1074) with ((e' - e) + (e + 1074)) by lia.
  rewrite (Z.pow_add_r 2 (e' - e) (e + 1074)) by lia.
  destruct (Z_lt_le_dec et e') as [Hlt | Hge].
  - (* the format number lies in a lower binade *)
    destruct (Zdigits2_bounds mt Hmt) as [_ Hup].
    destruct (Zdigits2_bounds m Hm) as [Hlo _].
    pose proof (Zdigits2_pos mt Hmt). pose proof (Zdigits2_pos m Hm).
    assert (Hq : 2 ^ 52 <= m / 2 ^ (e' - e)).
    { apply Z.div_le_lower_bound; [exact Hpn |].
      rewrite <- Z.pow_add_r by lia.
      replace (e' - e + 52) with (Zdigits2 m - 1) by lia. exact Hlo. }
    assert (Ht : mt * 2 ^ (et + 1074) < 2 ^ (Zdigits2 mt + (et + 1074))).
    { rewrite (Z.pow_add_r 2 (Zdigits2 mt)) by lia.
      apply Z.mul_lt_mono_pos_r; [apply pow2_pos; lia | exact Hup]. }
    pose proof (pow2_le_mono (Zdigits2 mt + (et + 1074))
                  (52 + ((e' - e) + (e + 1074))) ltac:(lia)) as Hpw.
    rewrite (Z.pow_add_r 2 52), (Z.pow_add_r 2 (e' - e)) in Hpw by lia.
    assert (2 ^ 52 * (2 ^ (e' - e) * 2 ^ (e + 1074))
            <= m / 2 ^ (e' - e) * (2 ^ (e' - e) * 2 ^ (e + 1074))).
    { apply Z.mul_le_mono_nonneg_r; [nia | exact Hq]. }
    lia.
  - (* the format number is a multiple of the new unit *)
    replace (et + 1074) with ((et - e') + ((e' - e) + (e + 1074))) in * by lia.
    rewrite (Z.pow_add_r 2 (et - e')), (Z.pow_add_r 2 (e' - e)) in * by lia.
    assert (Hpt : 0 < 2 ^ (et - e')) by (apply pow2_pos; lia).
    assert (Hc : mt * 2 ^ (et - e') * 2 ^ (e' - e) <= m) by nia.
    assert (mt * 2 ^ (et - e') <= m / 2 ^ (e' - e)).
    { apply Z.div_le_lower_bound; [exact Hpn | lia]. }
    nia.
Qed.

Lemma binary_round_aux_ge mt et mx ex lx :
  valid_binary prec emax (S754_finite false mt et) = true ->
  0 < mx -> -1074 <= ex ->
  ex <= fexp prec emax (Zdigits2 mx + ex) ->
  units mt et <= mx * 2 ^ (ex + 1074) ->
  fle (S754_finite false mt et) (binary_round_aux prec emax false mx ex lx)
    = true.
Proof.
  intros Hv Hmx Hex Hfe Hle.
  pose proof (binary_round_aux_valid false mx ex lx ltac:(lia) Hfe) as Hvr.
  destruct (binary_round_aux_spec false mx ex lx ltac:(lia) Hfe)
    as (m1' & Hcases & He1 & Heq).
  cbv zeta in *. rewrite Heq in *. clear Heq.
  set (e1 := fexp prec emax (Zdigits2 mx + ex)) in *.
  set (e2 := fexp prec emax (Zdigits2 m1' + e1)) in *.
  pose proof (valid_finite_inv _ _ _ Hv) as (Hcan & _ & Het).
  assert (Ht : 0 < units mt et).
  { unfold units. apply Z.mul_pos_pos; [lia | apply pow2_pos; lia]. }
  pose proof (floor_keeps_format (Z.pos mt) et mx ex ltac:(lia) Het
                ltac:(lia) Hmx Hex Hfe Hle) as H1.
  fold e1 in H1. fold (units mt et) in H1.
  assert (Hp1 : 0 < 2 ^ (e1 + 1074)) by (apply pow2_pos; lia).
  assert (H1' : units mt et <= m1' * 2 ^ (e1 + 1074)) by nia.
  assert (Hm1' : 0 < m1') by nia.
  pose proof (floor_keeps_format (Z.pos mt) et m1' e1 ltac:(lia) Het
                ltac:(lia) Hm1' ltac:(lia) He1 H1') as H2.
  fold e2 in H2. fold (units mt et) in H2.
  assert (Hp2 : 0 < 2 ^ (e2 + 1074)) by (apply pow2_pos; lia).
  destruct (m1' / 2 ^ (e2 - e1)) as [| m2 |] eqn:Hq; [lia | | lia].
  destruct (e2 <=? emax - prec); [| reflexivity].
  apply canonical_le; [exact Hv | exact Hvr | exact H2].
Qed.

Lemma binary_round_ge mt et ms ez :
  valid_binary prec emax (S754_finite false mt et) = true ->
  -1074 <= ez ->
  units mt et <= units ms ez ->
  fle (S754_finite false mt et) (binary_round prec emax false ms ez) = true.
Proof.
  intros Hv Hez Hle.
  destruct (binary_round_align ms ez) as (mz & e0 & Hal & He0 & Hmz & Hfe & Hlo).
  unfold binary_round. rewrite Hal.
  apply binary_round_aux_ge; [exact Hv | lia | auto | exact Hfe |].
  rewrite Hmz, <- Z.mul_assoc, <- Z.pow_add_r by (specialize (Hlo Hez); lia).
  replace (ez - e0 + (e0 + 1074)) with (ez + 1074) by lia. exact Hle.
Qed.

(** *** Addition of non-negative floats *)

Lemma good_inv x :
  good x = true -> valid_binary prec emax x = true /\ fle zero x = true.
Proof. unfold good. intros H. apply andb_true_iff in H. exact H. Qed.

Lemma good_intro x :
  valid_binary prec emax x = true -> signed false x -> good x = true.
Proof.
  intros Hv Hs. unfold good. rewrite Hv, (signed_false_nonneg _ Hs). reflexivity.
Qed.

Lemma fadd_finite mx ex my ey :
  -1074 <= ex -> -1074 <= ey ->
  exists ms,
    fadd (S754_finite false mx ex) (S754_finite false my ey)
      = binary_round prec emax false ms (Z.min ex ey) /\
    units mx ex <= units ms (Z.min ex ey).
Proof.
  intros Hex Hey.
  destruct (shl_align_spec mx ex (Z.min ex ey) ltac:(lia)) as [Hx _].
  destruct (shl_align_spec my ey (Z.min ex ey) ltac:(lia)) as [Hy _].
  unfold fadd, SFadd, cond_Zopp, binary_normalize.
  set (ax := fst (shl_align mx ex (Z.min ex ey))) in *.
  set (ay := fst (shl_align my ey (Z.min ex ey))) in *.
  exists (ax + ay)%positive. split; [reflexivity |].
  unfold units. rewrite Pos2Z.inj_add, Hx.
  assert (0 < 2 ^ (Z.min ex ey + 1074)) by (apply pow2_pos; lia).
  replace (ex + 1074) with ((ex - Z.min ex ey) + (Z.min ex ey + 1074)) by lia.
  rewrite Z.pow_add_r by lia. nia.
Qed.

Lemma good_cases x :
  good x = true ->
  (exists s, x = S754_zero s) \/ x = S754_infinity false \/
  (exists m e, x = S754_finite false m e /\
               valid_binary prec emax x = true /\ -1074 <= e).
Proof.
  intros H. apply good_inv in H as [Hv Hn].
  destruct x as [s | s | | s m e]; simpl in Hn; try discriminate.
  - left. eauto.
  - destruct s; [discriminate |]. right. left. reflexivity.
  - destruct s; [discriminate |]. right. right. exists m, e.
    split; [reflexivity |]. split; [exact Hv |].
    apply valid_finite_inv in Hv. lia.
Qed.

Lemma fadd_good x y : good x = true -> good y = true -> good (fadd x y) = true.
Proof.
  intros Hx Hy.
  destruct (good_cases x Hx) as [[sx ->] | [-> | (mx & ex & -> & Hvx & Hex)]];
  destruct (good_cases y Hy) as [[sy ->] | [-> | (my & ey & -> & Hvy & Hey)]];
    try exact Hx; try exact Hy; try reflexivity.
  - destruct sx, sy; reflexivity.
  - destruct (fadd_finite mx ex my ey Hex Hey) as (ms & -> & _).
    apply good_intro; [apply binary_round_valid | apply binary_round_signed].
Qed.

(** Adding a non-negative float never gives less. *)
Lemma fadd_ge x y :
  good x = true -> good y = true -> fle x (fadd x y) = true.
Proof.
  intros Hx Hy.
  destruct (good_cases x Hx) as [[sx ->] | [-> | (mx & ex & -> & Hvx & Hex)]];
  destruct (good_cases y Hy) as [[sy ->] | [-> | (my & ey & -> & Hvy & Hey)]];
    try reflexivity.
  - destruct sx, sy; reflexivity.
  - unfold fadd, SFadd. apply fle_refl_valid. reflexivity.
  - destruct (fadd_finite mx ex my ey Hex Hey) as (ms & -> & Hle).
    apply binary_round_ge; [exact Hvx | lia | exact Hle].
Qed.

Lemma fle_finite_iff m1 e1 m2 e2 :
  fle (S754_finite false m1 e1) (S754_finite false m2 e2) = true
  <-> e1 < e2 \/ (e1 = e2 /\ (m1 <= m2)%positive).
Proof.
  unfold fle, SFleb, SFcompare. rewrite Pos.compare_cont_spec. simpl.
  destruct (Z.compare_spec e1 e2) as [-> | Hlt | Hgt].
  - rewrite <- Pos.compare_le_iff.
    destruct (m1 ?= m2)%positive; split; intros H;
      try reflexivity; try discriminate; try (right; split; congruence);
      try (destruct H as [H | [_ H]]; [lia | congruence]).
  - split; [left; exact Hlt | reflexivity].
  - split; [discriminate | lia].
Qed.

Lemma fle_trans x y z :
  fle zero x = true -> fle zero y = true -> fle zero z = true ->
  fle x y = true -> fle y z = true -> fle x z = true.
Proof.
  destruct x as [sx | sx | | sx mx ex]; destruct y as [sy | sy | | sy my ey];
    destruct z as [sz | sz | | sz mz ez];
    try destruct sx; try destruct sy; try destruct sz;
    try discriminate; try reflexivity.
  intros _ _ _. rewrite !fle_finite_iff. intros H1 H2.
  destruct H1 as [H1 | [-> H1]]; destruct H2 as [H2 | [-> H2]];
    try (left; lia).
  right. split; [reflexivity | lia].
Qed.

(** *** Multiplication and integer division *)

Lemma Zdigits2_mul_ge m1 m2 :
  0 < m1 -> 0 < m2 -> Zdigits2 m1 + Zdigits2 m2 - 1 <= Zdigits2 (m1 * m2).
Proof.
  intros H1 H2.
  destruct (Zdigits2_bounds m1 H1) as [Hlo1 _].
  destruct (Zdigits2_bounds m2 H2) as [Hlo2 _].
  pose proof (Zdigits2_pos m1 H1). pose proof (Zdigits2_pos m2 H2).
  pose proof (pow2_pos (Zdigits2 m1 - 1) ltac:(lia)).
  pose proof (pow2_pos (Zdigits2 m2 - 1) ltac:(lia)).
  pose proof (Zdigits2_ge (m1 * m2) (Zdigits2 m1 - 1 + (Zdigits2 m2 - 1))
                ltac:(lia)) as Hge.
  rewrite Z.pow_add_r in Hge by lia.
  assert (2 ^ (Zdigits2 m1 - 1) * 2 ^ (Zdigits2 m2 - 1) <= m1 * m2) by nia.
  specialize (Hge H5). lia.
Qed.

Lemma fmul_finite_good mx ex my ey :
  valid_binary prec emax (S754_finite false mx ex) = true ->
  valid_binary prec emax (S754_finite false my ey) = true ->
  good (fmul (S754_finite false mx ex) (S754_finite false my ey)) = true.
Proof.
  intros Hx Hy.
  apply valid_finite_inv in Hx as (Hcx & _ & Hlx).
  apply valid_finite_inv in Hy as (Hcy & _ & Hly).
  unfold fmul, SFmul. simpl xorb.
  assert (Hpre : ex + ey
                 <= fexp prec emax (Zdigits2 (Z.pos (mx * my)) + (ex + ey))).
  { pose proof (Zdigits2_mul_ge (Z.pos mx) (Z.pos my) ltac:(lia) ltac:(lia)).
    pose proof (Zdigits2_pos (Z.pos mx) ltac:(lia)).
    pose proof (Zdigits2_pos (Z.pos my) ltac:(lia)).
    rewrite Pos2Z.inj_mul. rewrite fexp_unfold in *. lia. }
  apply good_intro.
  - apply binary_round_aux_valid; [lia | exact Hpre].
  - apply binary_round_aux_signed; [lia | exact Hpre].
Qed.

(** Prices and token ratios are finite; their products are good. *)
Lemma fmul_good x y :
  good x = true -> good y = true ->
  is_infinity x = false -> is_infinity y = false ->
  good (fmul x y) = true.
Proof.
  intros Hx Hy Hix Hiy.
  destruct (good_cases x Hx) as [[sx ->] | [-> | (mx & ex & -> & Hvx & Hex)]];
  destruct (good_cases y Hy) as [[sy ->] | [-> | (my & ey & -> & Hvy & Hey)]];
    try discriminate; try reflexivity.
  apply fmul_finite_good; assumption.
Qed.

Lemma SFdiv_core_binary_pre m1 e1 m2 e2 :
  0 < m1 -> 0 < m2 ->
  exists q e' l,
    SFdiv_core_binary prec emax m1 e1 m2 e2 = (q, e', l) /\
    0 <= q /\ e' <= fexp prec emax (Zdigits2 q + e').
Proof.
  intros H1 H2. unfold SFdiv_core_binary.
  set (d1 := Zdigits2 m1). set (d2 := Zdigits2 m2).
  set (e' := Z.min (fexp prec emax (d1 + e1 - (d2 + e2))) (e1 - e2)).
  set (s := e1 - e2 - e').
  assert (Hs : 0 <= s) by (unfold s, e'; lia).
  set (m' := match s with
             | 0 => m1
             | Z.pos _ => Z.shiftl m1 s
             | Z.neg _ => 0
             end).
  assert (Hm' : m' = m1 * 2 ^ s).
  { unfold m'. destruct s as [| p | p] eqn:Hsp; [simpl; lia | | lia].
    rewrite Z.shiftl_mul_pow2 by lia. reflexivity. }
  pose proof (Z_div_mod m' m2 ltac:(lia)) as Hdm.
  destruct (Z.div_eucl m' m2) as [q r] eqn:Hqr.
  destruct Hdm as [Hdm Hr].
  exists q, e', (new_location m2 r). split; [reflexivity |].
  assert (Hps : 0 < 2 ^ s) by (apply pow2_pos; lia).
  assert (Hq0 : 0 <= q) by nia.
  split; [exact Hq0 |].
  destruct (Zdigits2_bounds m1 H1) as [Hlo1 Hup1].
  destruct (Zdigits2_bounds m2 H2) as [Hlo2 Hup2].
  pose proof (Zdigits2_pos m1 H1) as Hd1. pose proof (Zdigits2_pos m2 H2) as Hd2.
  fold d1 in Hlo1, Hup1, Hd1. fold d2 in Hlo2, Hup2, Hd2.
  assert (He' : e' <= fexp prec emax (d1 + e1 - (d2 + e2)))
    by (unfold e'; lia).
  destruct (Z.eq_dec q 0) as [-> | Hqne].
  - (* the quotient vanishes: the dividend has fewer digits *)
    assert (Hlt : m1 * 2 ^ s < m2) by lia.
    assert (Hd : d1 - 1 + s < d2).
    { apply (Z.pow_lt_mono_r_iff 2); [lia | lia |].
      rewrite Z.pow_add_r by lia. nia. }
    simpl Zdigits2. rewrite fexp_unfold in *. unfold s in Hd. lia.
  - assert (Hdq : d1 + s - d2 <= Zdigits2 q).
    { destruct (Z_le_gt_dec (d1 + s - d2) 1) as [Hsmall | Hbig].
      - pose proof (Zdigits2_pos q ltac:(lia)). lia.
      - pose proof (Zdigits2_ge q (d1 + s - d2 - 1) ltac:(lia)) as Hge.
        assert (2 ^ (d1 + s - d2 - 1) <= q); [| lia].
        assert (Hpk : 0 < 2 ^ (d1 + s - d2 - 1)) by (apply pow2_pos; lia).
        assert (Hprod : 2 ^ (d1 + s - d2 - 1) * 2 ^ d2 <= m1 * 2 ^ s).
        { rewrite <- Z.pow_add_r by lia.
          replace (d1 + s - d2 - 1 + d2) with (d1 - 1 + s) by lia.
          rewrite Z.pow_add_r by lia. nia. }
        nia. }
    apply Z.le_trans with (1 := He'). apply fexp_mono. unfold s in Hdq. lia.
Qed.

Lemma fdiv_finite_good mx ex my ey :
  valid_binary prec emax
    (fdiv (S754_finite false mx ex) (S754_finite false my ey)) = true /\
  signed false (fdiv (S754_finite false mx ex) (S754_finite false my ey)).
Proof.
  unfold fdiv, SFdiv. simpl xorb.
  destruct (SFdiv_core_binary_pre (Z.pos mx) ex (Z.pos my) ey
              ltac:(lia) ltac:(lia)) as (q & e' & l & -> & Hq & Hpre).
  split.
  - apply binary_round_aux_valid; assumption.
  - apply binary_round_aux_signed; assumption.
Qed.

Lemma int_truediv_good a x :
  0 <= a -> int_truediv a 1000000 = Ok x ->
  good x = true /\ is_infinity x = false.
Proof.
  intros Ha. unfold int_truediv. simpl (1000000 =? 0).
  destruct (is_infinity (fdiv (exact_int a) (exact_int 1000000))) eqn:Hinf;
    [discriminate |].
  intros H. injection H as <-. split; [| exact Hinf].
  destruct a as [| p | p]; [reflexivity | | lia].
  destruct (fdiv_finite_good p 0 1000000 0) as [Hv Hs].
  apply good_intro; assumption.
Qed.

(** *** Rounding in the normal range *)

(** In the normal range the rounded mantissa has 53 digits and is the
    truncated mantissa or its successor. *)
Lemma binary_round_aux_normal s mx ex lx :
  0 < mx ->
  ex <= fexp prec emax (Zdigits2 mx + ex) ->
  -1021 <= Zdigits2 mx + ex <= 1023 ->
  exists m2 e2 k,
    binary_round_aux prec emax s mx ex lx = S754_finite s m2 e2 /\
    (k = 0 \/ k = 1) /\
    Zdigits2 (Z.pos m2) = 53 /\
    Zdigits2 mx + ex - 53 <= e2 <= Zdigits2 mx + ex - 52 /\
    Z.pos m2 * 2 ^ (e2 - (Zdigits2 mx + ex - 53))
      = mx / 2 ^ (Zdigits2 mx + ex - 53 - ex) + k /\
    2 ^ 52 <= mx / 2 ^ (Zdigits2 mx + ex - 53 - ex).
Proof.
  intros Hm He HD.
  destruct (binary_round_aux_spec s mx ex lx ltac:(lia) He)
    as (m1' & Hcases & He1 & ->).
  cbv zeta in *.
  assert (Hfe : fexp prec emax (Zdigits2 mx + ex) = Zdigits2 mx + ex - 53)
    by (rewrite fexp_unfold; lia).
  rewrite Hfe in *.
  set (e1 := Zdigits2 mx + ex - 53) in *.
  set (m1 := mx / 2 ^ (e1 - ex)) in *.
  destruct (Zdigits2_bounds mx Hm) as [Hlo Hup].
  assert (Hpn : 0 < 2 ^ (e1 - ex)) by (apply pow2_pos; lia).
  assert (Hm1lo : 2 ^ 52 <= m1).
  { unfold m1. apply Z.div_le_lower_bound; [exact Hpn |].
    rewrite <- Z.pow_add_r by lia.
    replace (e1 - ex + 52) with (Zdigits2 mx - 1) by (unfold e1; lia).
    exact Hlo. }
  assert (Hm1up : m1 < 2 ^ 53).
  { unfold m1. apply Z.div_lt_upper_bound; [exact Hpn |].
    rewrite <- Z.pow_add_r by lia.
    replace (e1 - ex + 53) with (Zdigits2 mx) by (unfold e1; lia).
    exact Hup. }
  destruct (Z_lt_le_dec m1' (2 ^ 53)) as [Hlt | Hge].
  - assert (Hd : Zdigits2 m1' = 53)
      by (apply Zdigits2_unique; [lia | simpl (53 - 1); lia]).
    rewrite Hd in *.
    assert (Hfe2 : fexp prec emax (53 + e1) = e1)
      by (rewrite fexp_unfold; unfold e1; lia).
    rewrite Hfe2 in *. rewrite Z.sub_diag, Z.div_1_r.
    destruct m1' as [| m2 |]; [lia | | lia].
    replace (e1 <=? emax - prec) with true
      by (symmetry; apply Z.leb_le; unfold e1, emax, prec; lia).
    exists m2, e1, (Z.pos m2 - m1).
    split; [reflexivity |]. split; [lia |]. split; [exact Hd |].
    split; [lia |]. rewrite Z.sub_diag. split; [lia | exact Hm1lo].
  - assert (Hm1' : m1' = 2 ^ 53) by lia.
    assert (Hd : Zdigits2 m1' = 54)
      by (apply Zdigits2_unique; [lia | simpl (54 - 1); rewrite Hm1'; simpl; lia]).
    rewrite Hd in *.
    assert (Hfe2 : fexp prec emax (54 + e1) = e1 + 1)
      by (rewrite fexp_unfold; unfold e1; lia).
    rewrite Hfe2 in *.
    replace (e1 + 1 - e1) with 1 by lia. rewrite Hm1'.
    change (2 ^ 53 / 2 ^ 1) with (Z.pos (2 ^ 52)).
    replace (e1 + 1 <=? emax - prec) with true
      by (symmetry; apply Z.leb_le; unfold e1, emax, prec; lia).
    exists (2 ^ 52)%positive, (e1 + 1), 1.
    split; [reflexivity |]. split; [lia |]. split; [reflexivity |].
    split; [lia |]. replace (e1 + 1 - e1) with 1 by lia.
    split; [| exact Hm1lo].
    change (Z.pos (2 ^ 52) * 2 ^ 1) with (2 ^ 53). lia.
Qed.

(** *** Values and relative error *)

Lemma agree_sym u x y : agree u x y -> agree u y x.
Proof. unfold agree. tauto. Qed.

Lemma agree_refl u x : (1 <= u)%Q -> (0 <= x)%Q -> agree u x x.
Proof. unfold agree. intros. split; nra. Qed.

Lemma agree_trans u u' x y z :
  (0 <= u)%Q -> (0 <= u')%Q ->
  agree u x y -> agree u' y z -> agree (u * u') x z.
Proof. unfold agree. intros Hu Hu' [H1 H2] [H3 H4]. split; nra. Qed.

Lemma agree_mul u x y p :
  (0 <= p)%Q -> agree u x y -> agree u (x * p) (y * p).
Proof. unfold agree. intros Hp [H1 H2]. split; nra. Qed.

Lemma agree_add u x y x' y' :
  agree u x y -> agree u x' y' -> agree u (x + x') (y + y').
Proof. unfold agree. intros [H1 H2] [H3 H4]. split; lra. Qed.

Lemma agree_weaken u u' x y :
  (u <= u')%Q -> (0 <= x)%Q -> (0 <= y)%Q -> agree u x y -> agree u' x y.
Proof. unfold agree. intros Hu Hx Hy [H1 H2]. split; nra. Qed.

Lemma agree_cell (m1 k w r v : Q) :
  (0 < w)%Q -> (4503599627370496 <= m1)%Q -> (0 <= k <= 1)%Q ->
  (r == (m1 + k) * w)%Q ->
  (m1 * w <= v)%Q -> (v <= (m1 + 1) * w)%Q ->
  agree u52 r v.
Proof.
  unfold agree, u52. intros Hw Hm Hk Hr Hlo Hup. rewrite Hr.
  assert (4503599627370496 * w <= m1 * w)%Q by nra.
  split; nra.
Qed.

Lemma pow2Q_pos e : (0 < 2 ^ e)%Q.
Proof. apply Qpower_0_lt. reflexivity. Qed.

Lemma pow2Q_add a b : (2 ^ (a + b) == 2 ^ a * 2 ^ b)%Q.
Proof. apply Qpower_plus. discriminate. Qed.

Lemma inject_pow2 n : 0 <= n -> (inject_Z (2 ^ n) == 2 ^ n)%Q.
Proof. intros Hn. rewrite Zpower_Qpower by exact Hn. reflexivity. Qed.

Lemma binary_round_aux_agree s mx ex lx (v : Q) :
  0 < mx ->
  ex <= fexp prec emax (Zdigits2 mx + ex) ->
  -1021 <= Zdigits2 mx + ex <= 1023 ->
  (inject_Z mx * 2 ^ ex <= v)%Q ->
  (v <= inject_Z (mx + 1) * 2 ^ ex)%Q ->
  exists m2 e2,
    binary_round_aux prec emax s mx ex lx = S754_finite s m2 e2 /\
    Zdigits2 (Z.pos m2) = 53 /\
    Zdigits2 mx + ex - 53 <= e2 <= Zdigits2 mx + ex - 52 /\
    agree u52 (inject_Z (Z.pos m2) * 2 ^ e2) v.
Proof.
  intros Hm He HD Hlo Hup.
  destruct (binary_round_aux_normal s mx ex lx Hm He HD)
    as (m2 & e2 & k & Heq & Hk & Hd & He2 & Hval & Hm1).
  exists m2, e2. split; [exact Heq |]. split; [exact Hd |].
  split; [exact He2 |].
  assert (Hfe : fexp prec emax (Zdigits2 mx + ex) = Zdigits2 mx + ex - 53)
    by (rewrite fexp_unfold; lia).
  rewrite Hfe in He.
  set (e1 := Zdigits2 mx + ex - 53) in *.
  set (m1 := mx / 2 ^ (e1 - ex)) in *.
  assert (Hpn : 0 < 2 ^ (e1 - ex)) by (apply pow2_pos; lia).
  assert (Hfloor : m1 * 2 ^ (e1 - ex) <= mx).
  { unfold m1. rewrite Z.mul_comm. apply Z.mul_div_le. exact Hpn. }
  assert (Hceil : mx + 1 <= (m1 + 1) * 2 ^ (e1 - ex)).
  { pose proof (Z.mod_pos_bound mx (2 ^ (e1 - ex)) Hpn).
    pose proof (Z.div_mod mx (2 ^ (e1 - ex)) ltac:(lia)).
    fold m1 in H0. nia. }
  apply (agree_cell (inject_Z m1) (inject_Z k) (2 ^ e1)%Q).
  - apply pow2Q_pos.
  - change 4503599627370496%Q with (inject_Z (2 ^ 52)).
    rewrite <- Zle_Qle. exact Hm1.
  - change 0%Q with (inject_Z 0). change 1%Q with (inject_Z 1).
    rewrite <- !Zle_Qle. lia.
  - rewrite <- inject_Z_plus, <- Hval, inject_Z_mult.
    rewrite (inject_pow2 (e2 - e1)) by lia.
    rewrite <- Qmult_assoc, <- pow2Q_add.
    replace (e2 - e1 + e1) with e2 by lia. reflexivity.
  - apply Qle_trans with (2 := Hlo).
    replace e1 with ((e1 - ex) + ex) at 1 by lia.
    rewrite pow2Q_add, Qmult_assoc, <- (inject_pow2 (e1 - ex)) by lia.
    rewrite <- inject_Z_mult.
    apply Qmult_le_compat_r; [| apply Qlt_le_weak, pow2Q_pos].
    rewrite <- Zle_Qle. exact Hfloor.
  - apply Qle_trans with (1 := Hup).
    replace e1 with ((e1 - ex) + ex) at 1 by lia.
    change 1%Q with (inject_Z 1).
    rewrite pow2Q_add, Qmult_assoc, <- inject_Z_plus,
      <- (inject_pow2 (e1 - ex)) by lia.
    rewrite <- inject_Z_mult.
    apply Qmult_le_compat_r; [| apply Qlt_le_weak, pow2Q_pos].
    rewrite <- Zle_Qle. exact Hceil.
Qed.

(** *** The three operations in the normal range *)

Lemma quotient_cell (q a M s : Z) :
  0 < M -> 0 <= s ->
  q * M <= a * 2 ^ s -> a * 2 ^ s <= (q + 1) * M ->
  (inject_Z q * 2 ^ (- s) <= inject_Z a / inject_Z M)%Q /\
  (inject_Z a / inject_Z M <= inject_Z (q + 1) * 2 ^ (- s))%Q.
Proof.
  intros HM Hs Hlo Hup.
  assert (HMq : (0 < inject_Z M)%Q)
    by (change 0%Q with (inject_Z 0); rewrite <- Zlt_Qlt; exact HM).
  pose proof (pow2Q_pos s) as Hps.
  rewrite Qpower_opp. split.
  - apply Qle_shift_div_l; [exact HMq |].
    setoid_replace (inject_Z q * / 2 ^ s * inject_Z M)%Q
      with ((inject_Z q * inject_Z M) / 2 ^ s)%Q using relation Qeq
      by (unfold Qdiv; ring).
    apply Qle_shift_div_r; [exact Hps |].
    rewrite <- (inject_pow2 s), <- !inject_Z_mult, <- Zle_Qle by exact Hs.
    exact Hlo.
  - apply Qle_shift_div_r; [exact HMq |].
    setoid_replace (inject_Z (q + 1) * / 2 ^ s * inject_Z M)%Q
      with ((inject_Z (q + 1) * inject_Z M) / 2 ^ s)%Q using relation Qeq
      by (unfold Qdiv; ring).
    apply Qle_shift_div_l; [exact Hps |].
    rewrite <- (inject_pow2 s), <- !inject_Z_mult, <- Zle_Qle by exact Hs.
    exact Hup.
Qed.

Lemma int_truediv_agree a :
  0 < a -> Zdigits2 a <= 1000 ->
  exists m e,
    int_truediv a 1000000 = Ok (S754_finite false m e) /\
    valid_binary prec emax (S754_finite false m e) = true /\
    Zdigits2 a - 20 <= mag m e <= Zdigits2 a - 18 /\
    agree u52 (inject_Z (Z.pos m) * 2 ^ e) (inject_Z a / 1000000).
Proof.
  intros Ha Hda.
  destruct a as [| p | p]; try lia.
  pose proof (Zdigits2_pos (Z.pos p) Ha) as Hd1.
  destruct (Zdigits2_bounds (Z.pos p) Ha) as [Hlo1 Hup1].
  set (d1 := Zdigits2 (Z.pos p)) in *.
  assert (Hd2 : Zdigits2 1000000 = 20) by reflexivity.
  assert (HM : 2 ^ 19 <= 1000000 < 2 ^ 20) by (simpl; lia).
  (* the quotient and its exponent *)
  assert (Hfe : fexp prec emax (d1 + 0 - (20 + 0)) = d1 - 73)
    by (rewrite fexp_unfold; lia).
  set (e' := Z.min (d1 - 73) 0).
  set (s := - e').
  assert (Hs : 0 <= s /\ 73 - d1 <= s) by (unfold s, e'; lia).
  assert (Hps : 0 < 2 ^ s) by (apply pow2_pos; lia).
  pose proof (Z_div_mod (Z.pos p * 2 ^ s) 1000000 ltac:(lia)) as Hdm.
  assert (Hcore : SFdiv_core_binary prec emax (Z.pos p) 0 1000000 0
                  = (let '(q, r) := Z.div_eucl (Z.pos p * 2 ^ s) 1000000 in
                     (q, e', new_location 1000000 r))).
  { unfold SFdiv_core_binary. fold d1. rewrite Hd2, Hfe.
    replace (Z.min (d1 - 73) (0 - 0)) with e' by reflexivity.
    replace (0 - 0 - e') with s by (unfold s; lia).
    destruct s as [| ps | ps] eqn:Hsp; [| | lia].
    - rewrite Z.mul_1_r. reflexivity.
    - rewrite Z.shiftl_mul_pow2 by lia. reflexivity. }
  destruct (Z.div_eucl (Z.pos p * 2 ^ s) 1000000) as [q r] eqn:Hqr.
  destruct Hdm as [Hdm Hr].
  (* the quotient has 53 digits or more *)
  assert (Hqlo : 2 ^ (d1 + s - 21) <= q).
  { assert (Hpk : 0 < 2 ^ (d1 + s - 21)) by (apply pow2_pos; lia).
    assert (2 ^ (d1 + s - 21) * 2 ^ 20 <= Z.pos p * 2 ^ s).
    { rewrite <- Z.pow_add_r by lia.
      replace (d1 + s - 21 + 20) with ((d1 - 1) + s) by lia.
      rewrite (Z.pow_add_r 2 (d1 - 1) s) by lia. nia. }
    nia. }
  assert (Hqup : q < 2 ^ (d1 + s - 19)).
  { assert (Hpk : 0 < 2 ^ (d1 + s - 19)) by (apply pow2_pos; lia).
    assert (Z.pos p * 2 ^ s < 2 ^ (d1 + s - 19) * 2 ^ 19).
    { rewrite <- Z.pow_add_r by lia.
      replace (d1 + s - 19 + 19) with (d1 + s) by lia.
      rewrite (Z.pow_add_r 2 d1 s) by lia. nia. }
    nia. }
  assert (Hq : 0 < q)
    by (pose proof (pow2_pos (d1 + s - 21) ltac:(lia)); lia).
  pose proof (Zdigits2_ge q (d1 + s - 21) ltac:(lia) Hqlo) as Hdq1.
  pose proof (Zdigits2_le q (d1 + s - 19) ltac:(lia) ltac:(lia)) as Hdq2.
  assert (Hpre : e' <= fexp prec emax (Zdigits2 q + e')).
  { rewrite fexp_unfold. unfold s, e' in *. lia. }
  destruct (binary_round_aux_agree false q e' (new_location 1000000 r)
              (inject_Z (Z.pos p) / 1000000) Hq Hpre)
    as (m & e & Heq & Hdm2 & He & Hag).
  { unfold s in *. lia. }
  { replace e' with (- s) by (unfold s; lia).
    apply (quotient_cell q (Z.pos p) 1000000 s); lia. }
  { replace e' with (- s) by (unfold s; lia).
    apply (quotient_cell q (Z.pos p) 1000000 s); lia. }
  assert (Hdiv : fdiv (exact_int (Z.pos p)) (exact_int 1000000)
                 = S754_finite false m e).
  { unfold fdiv, SFdiv, exact_int. rewrite Hcore. simpl xorb. exact Heq. }
  exists m, e. split.
  - unfold int_truediv. simpl (1000000 =? 0). cbv zeta. rewrite Hdiv.
    reflexivity.
  - split.
    + rewrite <- Hdiv. apply fdiv_finite_good.
    + split; [| exact Hag]. unfold mag. rewrite Hdm2. unfold s in *. lia.
Qed.

Lemma value_scale (m : Z) (a b : Z) :
  0 <= a ->
  (inject_Z (m * 2 ^ a) * 2 ^ b == inject_Z m * 2 ^ (a + b))%Q.
Proof.
  intros Ha. rewrite inject_Z_mult, inject_pow2, pow2Q_add by exact Ha.
  ring.
Qed.

Lemma fmul_agree mx ex my ey :
  valid_binary prec emax (S754_finite false mx ex) = true ->
  valid_binary prec emax (S754_finite false my ey) = true ->
  -1020 <= mag mx ex + mag my ey <= 1023 ->
  exists m e,
    fmul (S754_finite false mx ex) (S754_finite false my ey)
      = S754_finite false m e /\
    valid_binary prec emax (S754_finite false m e) = true /\
    mag mx ex + mag my ey - 1 <= mag m e <= mag mx ex + mag my ey + 1 /\
    agree u52 (inject_Z (Z.pos m) * 2 ^ e)
      ((inject_Z (Z.pos mx) * 2 ^ ex) * (inject_Z (Z.pos my) * 2 ^ ey)).
Proof.
  intros Hx Hy Hmag.
  pose proof (fmul_finite_good mx ex my ey Hx Hy) as Hgood.
  apply valid_finite_inv in Hx as (Hcx & _ & Hlx).
  apply valid_finite_inv in Hy as (Hcy & _ & Hly).
  unfold mag in *.
  pose proof (Zdigits2_mul_ge (Z.pos mx) (Z.pos my) ltac:(lia) ltac:(lia))
    as Hdlo.
  pose proof (Zdigits2_pos (Z.pos mx) ltac:(lia)) as Hdx.
  pose proof (Zdigits2_pos (Z.pos my) ltac:(lia)) as Hdy.
  assert (Hdup : Zdigits2 (Z.pos mx * Z.pos my)
                 <= Zdigits2 (Z.pos mx) + Zdigits2 (Z.pos my)).
  { apply Zdigits2_le; [lia |].
    destruct (Zdigits2_bounds (Z.pos mx) ltac:(lia)) as [_ Hux].
    destruct (Zdigits2_bounds (Z.pos my) ltac:(lia)) as [_ Huy].
    rewrite Z.pow_add_r by lia. nia. }
  assert (Hpre : ex + ey
                 <= fexp prec emax (Zdigits2 (Z.pos (mx * my)) + (ex + ey))).
  { rewrite Pos2Z.inj_mul. rewrite fexp_unfold in *. lia. }
  destruct (binary_round_aux_agree false (Z.pos (mx * my)) (ex + ey) loc_Exact
              ((inject_Z (Z.pos mx) * 2 ^ ex) * (inject_Z (Z.pos my) * 2 ^ ey))
              ltac:(lia) Hpre)
    as (m & e & Heq & Hd & He & Hag).
  { rewrite Pos2Z.inj_mul. lia. }
  { rewrite Pos2Z.inj_mul, inject_Z_mult, pow2Q_add.
    apply Qle_lteq. right. ring. }
  { rewrite Pos2Z.inj_mul, inject_Z_plus, inject_Z_mult, pow2Q_add.
    pose proof (pow2Q_pos ex). pose proof (pow2Q_pos ey).
    change (inject_Z 1) with 1%Q. nra. }
  assert (Hmul : fmul (S754_finite false mx ex) (S754_finite false my ey)
                 = S754_finite false m e) by exact Heq.
  exists m, e. split; [exact Hmul |]. split.
  - rewrite Hmul in Hgood. apply good_inv in Hgood. tauto.
  - split; [| exact Hag]. rewrite Hd. rewrite Pos2Z.inj_mul in He. lia.
Qed.

Lemma fadd_finite_exact mx ex my ey :
  exists ms,
    fadd (S754_finite false mx ex) (S754_finite false my ey)
      = binary_round prec emax false ms (Z.min ex ey) /\
    Z.pos ms = Z.pos mx * 2 ^ (ex - Z.min ex ey)
               + Z.pos my * 2 ^ (ey - Z.min ex ey).
Proof.
  destruct (shl_align_spec mx ex (Z.min ex ey) ltac:(lia)) as [Hx _].
  destruct (shl_align_spec my ey (Z.min ex ey) ltac:(lia)) as [Hy _].
  unfold fadd, SFadd, cond_Zopp, binary_normalize.
  set (ax := fst (shl_align mx ex (Z.min ex ey))) in *.
  set (ay := fst (shl_align my ey (Z.min ex ey))) in *.
  exists (ax + ay)%positive. split; [reflexivity |].
  rewrite Pos2Z.inj_add, Hx, Hy. reflexivity.
Qed.

Lemma fadd_agree mx ex my ey :
  -1021 <= Z.max (mag mx ex) (mag my ey) <= 1022 ->
  exists m e,
    fadd (S754_finite false mx ex) (S754_finite false my ey)
      = S754_finite false m e /\
    valid_binary prec emax (S754_finite false m e) = true /\
    Z.max (mag mx ex) (mag my ey) <= mag m e
      <= Z.max (mag mx ex) (mag my ey) + 2 /\
    agree u52 (inject_Z (Z.pos m) * 2 ^ e)
      (inject_Z (Z.pos mx) * 2 ^ ex + inject_Z (Z.pos my) * 2 ^ ey).
Proof.
  intros Hmag.
  destruct (fadd_finite_exact mx ex my ey) as (ms & Hadd & Hms).
  destruct (binary_round_align ms (Z.min ex ey))
    as (mz & e0 & Hal & He0 & Hmz & Hpre & _).
  unfold binary_round in Hadd. rewrite Hal in Hadd.
  set (ez := Z.min ex ey) in *. unfold mag in *.
  pose proof (Zdigits2_pos (Z.pos mx) ltac:(lia)) as Hdx.
  pose proof (Zdigits2_pos (Z.pos my) ltac:(lia)) as Hdy.
  destruct (Zdigits2_bounds (Z.pos mx) ltac:(lia)) as [Hlx Hux].
  destruct (Zdigits2_bounds (Z.pos my) ltac:(lia)) as [Hly Huy].
  assert (Hpx : 0 < 2 ^ (ex - ez)) by (apply pow2_pos; lia).
  assert (Hpy : 0 < 2 ^ (ey - ez)) by (apply pow2_pos; lia).
  (* the magnitude of the exact sum *)
  assert (Hdz : Zdigits2 (Z.pos mz) + e0 = Zdigits2 (Z.pos ms) + ez).
  { rewrite Hmz, Zdigits2_mul_pow2 by lia. lia. }
  assert (Hdlo : Z.max (Zdigits2 (Z.pos mx) + ex) (Zdigits2 (Z.pos my) + ey)
                 <= Zdigits2 (Z.pos ms) + ez).
  { assert (Zdigits2 (Z.pos mx) + (ex - ez) <= Zdigits2 (Z.pos ms)).
    { rewrite <- (Zdigits2_mul_pow2 (Z.pos mx) (ex - ez)) by lia.
      apply Zdigits2_mono. nia. }
    assert (Zdigits2 (Z.pos my) + (ey - ez) <= Zdigits2 (Z.pos ms)).
    { rewrite <- (Zdigits2_mul_pow2 (Z.pos my) (ey - ez)) by lia.
      apply Zdigits2_mono. nia. }
    lia. }
  assert (Hdup : Zdigits2 (Z.pos ms) + ez
                 <= Z.max (Zdigits2 (Z.pos mx) + ex)
                          (Zdigits2 (Z.pos my) + ey) + 1).
  { set (k := Z.max (Zdigits2 (Z.pos mx) + ex) (Zdigits2 (Z.pos my) + ey)
              - ez) in *.
    assert (Zdigits2 (Z.pos ms) <= k + 1); [| lia].
    apply Zdigits2_le; [lia |]. split; [lia |].
    assert (Z.pos mx * 2 ^ (ex - ez) < 2 ^ k).
    { apply Z.lt_le_trans with (2 ^ Zdigits2 (Z.pos mx) * 2 ^ (ex - ez));
        [nia |].
      rewrite <- Z.pow_add_r by lia. apply pow2_le_mono. lia. }
    assert (Z.pos my * 2 ^ (ey - ez) < 2 ^ k).
    { apply Z.lt_le_trans with (2 ^ Zdigits2 (Z.pos my) * 2 ^ (ey - ez));
        [nia |].
      rewrite <- Z.pow_add_r by lia. apply pow2_le_mono. lia. }
    rewrite Z.pow_add_r by lia. change (2 ^ 1) with 2. lia. }
  destruct (binary_round_aux_agree false (Z.pos mz) e0 loc_Exact
              (inject_Z (Z.pos mx) * 2 ^ ex + inject_Z (Z.pos my) * 2 ^ ey)
              ltac:(lia) Hpre)
    as (m & e & Heq & Hd & He & Hag).
  { lia. }
  { apply Qle_lteq. right.
    rewrite Hmz, value_scale by lia.
    replace (ez - e0 + e0) with ez by lia. rewrite Hms, inject_Z_plus.
    rewrite Qmult_plus_distr_l, !value_scale by lia.
    replace (ex - ez + ez) with ex by lia.
    replace (ey - ez + ez) with ey by lia. reflexivity. }
  { apply Qle_trans with (inject_Z (Z.pos mz) * 2 ^ e0)%Q.
    - apply Qle_lteq. right.
      rewrite Hmz, value_scale by lia.
      replace (ez - e0 + e0) with ez by lia. rewrite Hms, inject_Z_plus.
      rewrite Qmult_plus_distr_l, !value_scale by lia.
      replace (ex - ez + ez) with ex by lia.
      replace (ey - ez + ez) with ey by lia. reflexivity.
    - apply Qmult_le_compat_r; [| apply Qlt_le_weak, pow2Q_pos].
      rewrite <- Zle_Qle. lia. }
  rewrite Heq in Hadd.
  exists m, e. split; [exact Hadd |]. split.
  - rewrite <- Hadd. destruct (fadd_finite_exact mx ex my ey) as (ms' & -> & _).
    apply binary_round_valid.
  - split; [| exact Hag]. rewrite Hd. lia.
Qed.

(** ** The pricing table *)

Lemma registry_lookup (model_name : string) (p : ModelPricing) :
  MODEL_PRICING !! model_name = Some p -> (model_name, p) ∈ pricing_entries.
Proof.
  unfold MODEL_PRICING. intros H.
  apply elem_of_list_to_map_2 in H. exact H.
Qed.

(** Case analysis on a registered record: one goal per entry of the
    table, each closed by [tac]. *)
Ltac registry_cases H tac :=
  apply registry_lookup in H; unfold pricing_entries in H;
  repeat (apply elem_of_cons in H; destruct H as [H | H];
          [inversion H; subst; tac |]);
  apply elem_of_nil in H; destruct H.

(** C9: the registry holds the tier with input price 2.00, cached-input
    price 0.50 and output price 8.00; every tier carries the decimal
    constants of the source, read as the kernel reads binary64 literals;
    and all three prices of every registered record are non-negative. *)
Theorem registry_prices :
  MODEL_PRICING !! "gpt-4.1" =
    Some {| input_price := float_lit 200 2;
            cached_input_price := float_lit 50 2;
            output_price := float_lit 800 2;
            description := "Smartest model for complex tasks" |} /\
  prices <$> MODEL_PRICING !! "gpt-4.1"
    = Some (Prim2SF 2.00, Prim2SF 0.50, Prim2SF 8.00) /\
  prices <$> MODEL_PRICING !! "gpt-4.1-mini"
    = Some (Prim2SF 0.40, Prim2SF 0.10, Prim2SF 1.60) /\
  prices <$> MODEL_PRICING !! "gpt-4.1-nano"
    = Some (Prim2SF 0.100, Prim2SF 0.025, Prim2SF 0.400) /\
  prices <$> MODEL_PRICING !! "o3"
    = Some (Prim2SF 10.00, Prim2SF 2.50, Prim2SF 40.00) /\
  prices <$> MODEL_PRICING !! "o4-mini"
    = Some (Prim2SF 1.100, Prim2SF 0.275, Prim2SF 4.400) /\
  (forall model_name p,
      MODEL_PRICING !! model_name = Some p -> prices_nonneg p = true).
Proof.
  do 6 (split; [vm_compute; reflexivity |]).
  intros model_name p H. registry_cases H ltac:(vm_compute; reflexivity).
Qed.

(** ** The cost function *)

Lemma calculate_cost_unfold p a b cached x y :
  int_truediv a 1000000 = Ok x ->
  int_truediv b 1000000 = Ok y ->
  calculate_cost p a b cached
  = Ok (fadd (fmul x (if cached then cached_input_price p else input_price p))
             (fmul y (output_price p))).
Proof.
  intros Hx Hy. unfold calculate_cost, bind. rewrite Hx, Hy. reflexivity.
Qed.

Lemma int_truediv_returns a :
  0 <= a < 2 ^ 1000 -> exists x, int_truediv a 1000000 = Ok x.
Proof.
  intros [Ha Hup]. destruct (Z.eq_dec a 0) as [-> | Hne].
  - exists (S754_zero false). reflexivity.
  - destruct (int_truediv_agree a ltac:(lia)) as (m & e & H & _).
    + apply Zdigits2_le; lia.
    + eauto.
Qed.

Lemma calculate_cost_returns p a b cached :
  0 <= a < 2 ^ 1000 -> 0 <= b < 2 ^ 1000 ->
  exists c, calculate_cost p a b cached = Ok c.
Proof.
  intros Ha Hb.
  destruct (int_truediv_returns a Ha) as [x Hx].
  destruct (int_truediv_returns b Hb) as [y Hy].
  rewrite (calculate_cost_unfold p a b cached x y Hx Hy). eauto.
Qed.

Lemma int_truediv_value a x :
  int_truediv a 1000000 = Ok x -> x = fdiv (exact_int a) (exact_int 1000000).
Proof.
  unfold int_truediv. simpl (1000000 =? 0).
  destruct (is_infinity _); [discriminate |].
  intros H. injection H as <-. reflexivity.
Qed.

Lemma int_truediv_million_cases a :
  int_truediv a 1000000 = Ok (fdiv (exact_int a) (exact_int 1000000)) \/
  int_truediv a 1000000 = Raise OverflowError.
Proof.
  unfold int_truediv. simpl (1000000 =? 0).
  destruct (is_infinity _); [right | left]; reflexivity.
Qed.

(** C1, as the code has it: for token counts from 0 to below 2^1000
    [calculate_cost] returns the specified formula evaluated in binary64
    arithmetic, and being a function of its arguments alone it has no
    side effect.  For any counts it returns that value or raises
    [OverflowError]; it raises for 10^400 input tokens, where the formula
    gives an infinity.  For the record (0.40, 0.10, 1.60) with 1,000,000
    input and 500,000 output tokens, uncached, the result is
    1.2000000000000002, the float next above 1.20; with 2,000,000 cached
    input tokens and no output tokens it is 0.20. *)
Theorem calculate_cost_formula :
  (forall p a b c,
     0 <= a < 2 ^ 1000 -> 0 <= b < 2 ^ 1000 ->
     calculate_cost p a b c = Ok (computeCost_spec p a b c)) /\
  (forall p a b c,
     calculate_cost p a b c = Ok (computeCost_spec p a b c) \/
     calculate_cost p a b c = Raise OverflowError) /\
  calculate_cost gpt_4_1_mini (10 ^ 400) 0 false = Raise OverflowError /\
  computeCost_spec gpt_4_1_mini (10 ^ 400) 0 false = S754_infinity false /\
  calculate_cost gpt_4_1_mini 1000000 500000 false
    = Ok (float_lit 12000000000000002 16) /\
  SFsucc prec emax (float_lit 120 2) = float_lit 12000000000000002 16 /\
  calculate_cost gpt_4_1_mini 2000000 0 true = Ok (float_lit 20 2).
Proof.
  split.
  { intros p a b c Ha Hb.
    destruct (int_truediv_returns a Ha) as [x Hx].
    destruct (int_truediv_returns b Hb) as [y Hy].
    rewrite (calculate_cost_unfold p a b c x y Hx Hy).
    rewrite (int_truediv_value a x Hx), (int_truediv_value b y Hy).
    reflexivity. }
  split.
  { intros p a b c. unfold calculate_cost, bind.
    destruct (int_truediv_million_cases a) as [-> | ->]; [| right; reflexivity].
    destruct (int_truediv_million_cases b) as [-> | ->]; [| right; reflexivity].
    left. reflexivity. }
  repeat split; vm_compute; reflexivity.
Qed.

Lemma calculate_cost_formula_witness :
  calculate_cost gpt_4_1 1200 300 true
  = Ok (computeCost_spec gpt_4_1 1200 300 true).
Proof.
  apply (proj1 calculate_cost_formula gpt_4_1 1200 300 true); lia.
Defined.

(** C1, counterexample: the first worked example does not yield 1.20,
    neither as the same float nor under Python's [==]. *)
Lemma calculate_cost_example_not_1_20 :
  calculate_cost gpt_4_1_mini 1000000 500000 false <> Ok (float_lit 120 2) /\
  exists c, calculate_cost gpt_4_1_mini 1000000 500000 false = Ok c /\
            feq c (float_lit 120 2) = false.
Proof.
  split.
  - vm_compute. discriminate.
  - exists (float_lit 12000000000000002 16).
    split; vm_compute; reflexivity.
Qed.

(** ** Requests *)

Lemma log_request_unfold m f a b c mi w :
  log_request m f a b c mi w =
  match resolve m mi with
  | Raise e => (Raised e, w)
  | Ok p =>
      match calculate_cost p a b c with
      | Raise e => (Raised e, w)
      | Ok cost => (Return cost, charge m f a b cost w)
      end
  end.
Proof.
  unfold log_request, resolve, mbind, lift, modify, ret.
  destruct mi as [p |].
  - destruct (calculate_cost p a b c); reflexivity.
  - destruct (get_model_info m) as [p | e]; [| reflexivity].
    destruct (calculate_cost p a b c); reflexivity.
Qed.

Lemma get_model_info_known m p :
  MODEL_PRICING !! m = Some p -> get_model_info m = Ok p.
Proof. intros H. unfold get_model_info. rewrite H. reflexivity. Qed.

Lemma get_model_info_unknown m :
  MODEL_PRICING !! m = None -> get_model_info m = Raise (unknown_model m).
Proof. intros H. unfold get_model_info. rewrite H. reflexivity. Qed.

(** C2: a request for a model outside the registry, without a supplied
    price record, raises the unknown-model error and leaves the whole
    world, so [total_cost] and both dictionaries, as it was. *)
Theorem log_request_unknown_model m f a b c w :
  MODEL_PRICING !! m = None ->
  log_request m f a b c None w = (Raised (unknown_model m), w).
Proof.
  intros H. rewrite log_request_unfold. unfold resolve.
  rewrite (get_model_info_unknown _ H). reflexivity.
Qed.

Lemma log_request_unknown_model_witness :
  MODEL_PRICING !! "gpt-5" = None /\
  log_request "gpt-5" "paper.pdf" 1200 300 false None (__init__ ∅)
    = (Raised (unknown_model "gpt-5"), __init__ ∅).
Proof.
  split; [vm_compute; reflexivity |].
  apply (log_request_unknown_model "gpt-5" "paper.pdf" 1200 300 false
           (__init__ ∅)).
  vm_compute; reflexivity.
Defined.

(** ** The store of dictionaries *)

Lemma deref_setitem_same l k v w :
  is_Some (heap w !! l) ->
  deref (dict_setitem l k v w) l = <[k := v]> (deref w l).
Proof.
  intros [d Hd]. unfold deref, dict_setitem. simpl.
  rewrite lookup_alter_eq, Hd. reflexivity.
Qed.

Lemma deref_setitem_other l l' k v w :
  l <> l' -> deref (dict_setitem l k v w) l' = deref w l'.
Proof.
  intros Hne. unfold deref, dict_setitem. simpl.
  rewrite lookup_alter_ne by exact Hne. reflexivity.
Qed.

Lemma setitem_allocated l l' k v w :
  is_Some (heap (dict_setitem l k v w) !! l') <-> is_Some (heap w !! l').
Proof.
  unfold dict_setitem. simpl. destruct (decide (l = l')) as [-> | Hne].
  - rewrite lookup_alter_eq. apply fmap_is_Some.
  - rewrite lookup_alter_ne by exact Hne. reflexivity.
Qed.

Lemma charge_total m f a b c w :
  total_cost (charge m f a b c w) = fadd (total_cost w) c.
Proof. reflexivity. Qed.

Lemma charge_cost_by_model m f a b c w :
  cost_by_model (charge m f a b c w) = cost_by_model w.
Proof. reflexivity. Qed.

Lemma charge_cost_by_file m f a b c w :
  cost_by_file (charge m f a b c w) = cost_by_file w.
Proof. reflexivity. Qed.

Lemma charge_files m f a b c w : files (charge m f a b c w) = files w.
Proof. reflexivity. Qed.

Lemma charge_logger m f a b c w :
  logger (charge m f a b c w) = logger w ++ [RequestLine m f a b c].
Proof. reflexivity. Qed.

Lemma charge_by_model m f a b c w :
  wf w ->
  deref (charge m f a b c w) (cost_by_model w)
  = <[m := fadd (default zero (deref w (cost_by_model w) !! m)) c]>
      (deref w (cost_by_model w)).
Proof.
  intros (Hm & Hf & Hne). unfold charge, logger_info, deref at 1. simpl.
  rewrite lookup_alter_ne by (intros E; apply Hne; symmetry; exact E).
  rewrite lookup_alter_eq.
  destruct Hm as [d Hd]. unfold dict_get, deref. simpl. rewrite Hd.
  reflexivity.
Qed.

Lemma charge_by_file m f a b c w :
  wf w ->
  deref (charge m f a b c w) (cost_by_file w)
  = <[f := fadd (default zero (deref w (cost_by_file w) !! f)) c]>
      (deref w (cost_by_file w)).
Proof.
  intros (Hm & Hf & Hne). unfold charge, logger_info, deref at 1. simpl.
  rewrite lookup_alter_eq.
  rewrite lookup_alter_ne by exact Hne.
  destruct Hf as [d Hd]. unfold dict_get, deref. simpl.
  rewrite lookup_alter_ne by exact Hne. rewrite Hd.
  reflexivity.
Qed.


Lemma charge_wf m f a b c w : wf w -> wf (charge m f a b c w).
Proof.
  intros (Hm & Hf & Hne). unfold wf.
  rewrite charge_cost_by_model, charge_cost_by_file.
  unfold charge, logger_info. simpl.
  repeat split; [| | exact Hne].
  - rewrite lookup_alter_ne by (intros E; apply Hne; symmetry; exact E).
    rewrite lookup_alter_eq. apply fmap_is_Some. exact Hm.
  - rewrite lookup_alter_eq. apply fmap_is_Some.
    rewrite lookup_alter_ne by exact Hne. exact Hf.
Qed.

Lemma init_wf fs : wf (__init__ fs).
Proof.
  unfold wf, __init__. simpl. repeat split.
  - exists ∅. reflexivity.
  - exists ∅. reflexivity.
  - discriminate.
Qed.

Lemma log_request_inv m f a b cached mi w c w' :
  log_request m f a b cached mi w = (Return c, w') ->
  exists p, resolve m mi = Ok p /\ calculate_cost p a b cached = Ok c /\
            w' = charge m f a b c w.
Proof.
  rewrite log_request_unfold.
  destruct (resolve m mi) as [p | e]; [| discriminate].
  destruct (calculate_cost p a b cached) as [c0 | e] eqn:Hc; [| discriminate].
  intros H. injection H as -> ->. exists p. auto.
Qed.

Lemma int_truediv_million_raises a e :
  int_truediv a 1000000 = Raise e -> e = OverflowError.
Proof.
  unfold int_truediv. simpl (1000000 =? 0).
  destruct (is_infinity _); congruence.
Qed.

Lemma calculate_cost_raises p a b cached e :
  calculate_cost p a b cached = Raise e -> e = OverflowError.
Proof.
  unfold calculate_cost, bind.
  destruct (int_truediv a 1000000) as [x | e1] eqn:Ha.
  - destruct (int_truediv b 1000000) as [y | e2] eqn:Hb; [discriminate |].
    intros H. injection H as <-. exact (int_truediv_million_raises _ _ Hb).
  - intros H. injection H as <-. exact (int_truediv_million_raises _ _ Ha).
Qed.

(** C3: a successful request for a registered model returns the cost of
    this one call, and adds it to [total_cost], to the model's entry and
    to the file's entry, an absent entry counting as zero; every other
    entry is left alone. *)
Theorem log_request_adds_cost w m f a b cached p c w' :
  wf w ->
  MODEL_PRICING !! m = Some p ->
  log_request m f a b cached None w = (Return c, w') ->
  calculate_cost p a b cached = Ok c /\
  total_cost w' = fadd (total_cost w) c /\
  cost_by_model w' = cost_by_model w /\
  cost_by_file w' = cost_by_file w /\
  deref w' (cost_by_model w') !! m
    = Some (fadd (default zero (deref w (cost_by_model w) !! m)) c) /\
  deref w' (cost_by_file w') !! f
    = Some (fadd (default zero (deref w (cost_by_file w) !! f)) c) /\
  (forall k, k <> m ->
     deref w' (cost_by_model w') !! k = deref w (cost_by_model w) !! k) /\
  (forall k, k <> f ->
     deref w' (cost_by_file w') !! k = deref w (cost_by_file w) !! k).
Proof.
  intros Hwf Hp Hrun.
  apply log_request_inv in Hrun as (p' & Hres & Hcost & ->).
  simpl in Hres. rewrite (get_model_info_known _ _ Hp) in Hres.
  injection Hres as <-.
  rewrite charge_cost_by_model, charge_cost_by_file, charge_total,
    (charge_by_model _ _ _ _ _ _ Hwf), (charge_by_file _ _ _ _ _ _ Hwf).
  repeat split; try assumption.
  - apply lookup_insert_eq.
  - apply lookup_insert_eq.
  - intros k Hk. apply lookup_insert_ne. congruence.
  - intros k Hk. apply lookup_insert_ne. congruence.
Qed.

Lemma log_request_adds_cost_witness :
  total_cost (charge "gpt-4.1-mini" "paper.pdf" 1000000 500000
                (float_lit 12000000000000002 16) (__init__ ∅))
  = fadd zero (float_lit 12000000000000002 16).
Proof.
  refine (proj1 (proj2 (log_request_adds_cost (__init__ ∅) "gpt-4.1-mini"
    "paper.pdf" 1000000 500000 false gpt_4_1_mini
    (float_lit 12000000000000002 16) _ _ _ _))).
  - unfold wf. simpl. repeat split; [exists ∅; reflexivity ..| discriminate].
  - vm_compute; reflexivity.
  - vm_compute; reflexivity.
Defined.

(** C10: with a price record supplied by the caller the registry is not
    consulted: whatever the model identifier, the call raises no
    [ValueError]; it succeeds whenever the cost computes, accumulating
    the cost under that identifier, and otherwise raises the
    [OverflowError] of the cost computation with the world untouched. *)
Theorem log_request_supplied_price m f a b cached p w :
  wf w ->
  resolve m (Some p) = Ok p /\
  (forall msg,
     fst (log_request m f a b cached (Some p) w) <> Raised (ValueError msg)) /\
  (forall c, calculate_cost p a b cached = Ok c ->
     exists w', log_request m f a b cached (Some p) w = (Return c, w') /\
       total_cost w' = fadd (total_cost w) c /\
       deref w' (cost_by_model w') !! m
         = Some (fadd (default zero (deref w (cost_by_model w) !! m)) c)) /\
  (forall e, calculate_cost p a b cached = Raise e ->
     e = OverflowError /\
     log_request m f a b cached (Some p) w = (Raised e, w)).
Proof.
  intros Hwf. split; [reflexivity |].
  rewrite log_request_unfold. simpl resolve. cbv iota beta.
  destruct (calculate_cost p a b cached) as [c | e] eqn:Hc.
  - split; [intros msg; simpl; discriminate |]. split.
    + intros c' Hc'. injection Hc' as <-. eexists. split; [reflexivity |].
      rewrite charge_cost_by_model, (charge_by_model _ _ _ _ _ _ Hwf).
      split; [reflexivity | apply lookup_insert_eq].
    + intros e He. discriminate.
  - pose proof (calculate_cost_raises _ _ _ _ _ Hc) as ->.
    split; [intros msg; simpl; discriminate |]. split.
    + intros c Hc'. discriminate.
    + intros e He. injection He as <-. split; reflexivity.
Qed.

Lemma log_request_supplied_price_witness :
  MODEL_PRICING !! "in-house-model" = None /\
  forall msg,
    fst (log_request "in-house-model" "paper.pdf" 1000000 0 false
           (Some gpt_4_1) (__init__ ∅)) <> Raised (ValueError msg).
Proof.
  split; [vm_compute; reflexivity |].
  refine (proj1 (proj2 (log_request_supplied_price "in-house-model"
    "paper.pdf" 1000000 0 false gpt_4_1 (__init__ ∅) _))).
  unfold wf. simpl. repeat split; [exists ∅; reflexivity ..| discriminate].
Defined.

(** ** Summaries and persistence *)

Lemma save_summary_unfold now u path w :
  save_summary now (Ok u) path w =
  (Return tt,
   logger_info (SavedLine path)
     (write_file path
        {| doc_total_cost := total_cost w;
           doc_cost_by_model := deref w (cost_by_model w);
           doc_cost_by_file := deref w (cost_by_file w);
           doc_timestamp := now |} w)).
Proof. reflexivity. Qed.

Lemma save_summary_raises now e path w :
  save_summary now (Raise e) path w = (Raised e, w).
Proof. reflexivity. Qed.

(** C8, as the code has it: [get_summary] leaves the world as it is and
    stamps the summary with the clock reading of the call; the summary
    holds [total_cost] by value and the two dictionaries by reference.
    A later successful request therefore leaves the summary's total and
    timestamp alone, and shows through the summary's [cost_by_model] and
    [cost_by_file]. *)
Theorem get_summary_shares_dicts (w : world) (now : string) :
  exists s,
    get_summary now w = (Return s, w) /\
    sum_timestamp s = now /\
    sum_total_cost s = total_cost w /\
    sum_cost_by_model s = cost_by_model w /\
    sum_cost_by_file s = cost_by_file w /\
    forall m f a b cached mi c w',
      wf w ->
      log_request m f a b cached mi w = (Return c, w') ->
      doc_total_cost (json_of_summary w' s) = total_cost w /\
      doc_timestamp (json_of_summary w' s) = now /\
      doc_cost_by_model (json_of_summary w' s) !! m
        = Some (fadd (default zero (deref w (cost_by_model w) !! m)) c) /\
      doc_cost_by_file (json_of_summary w' s) !! f
        = Some (fadd (default zero (deref w (cost_by_file w) !! f)) c).
Proof.
  eexists. split; [reflexivity |]. simpl.
  do 4 (split; [reflexivity |]).
  intros m f a b cached mi c w' Hwf Hrun.
  apply log_request_inv in Hrun as (p & _ & _ & ->).
  split; [reflexivity |]. split; [reflexivity |]. split.
  - rewrite (charge_by_model _ _ _ _ _ _ Hwf). apply lookup_insert_eq.
  - rewrite (charge_by_file _ _ _ _ _ _ Hwf). apply lookup_insert_eq.
Qed.

Lemma get_summary_shares_dicts_witness :
  exists s,
    get_summary "2025-05-01T10:00:00" (__init__ ∅) = (Return s, __init__ ∅) /\
    doc_cost_by_model
      (json_of_summary
         (charge "gpt-4.1" "paper.pdf" 1000000 0 (float_lit 200 2)
            (__init__ ∅)) s) !! "gpt-4.1"
    = Some (fadd zero (float_lit 200 2)).
Proof.
  destruct (get_summary_shares_dicts (__init__ ∅) "2025-05-01T10:00:00")
    as (s & Hs & _ & _ & _ & _ & Hlater).
  exists s. split; [exact Hs |].
  refine (proj1 (proj2 (proj2 (Hlater "gpt-4.1" "paper.pdf" 1000000 0 false
    None (float_lit 200 2) _ _ _)))).
  - unfold wf. simpl. repeat split; [exists ∅; reflexivity ..| discriminate].
  - vm_compute; reflexivity.
Defined.

(** C8, counterexample: a summary taken from a fresh ledger reads an empty
    [cost_by_model]; after one later request the same summary reads the
    new entry. *)
Lemma summary_altered_by_later_request :
  exists s c w1,
    get_summary "2025-05-01T10:00:00" (__init__ ∅) = (Return s, __init__ ∅) /\
    log_request "gpt-4.1" "paper.pdf" 1000000 0 false None (__init__ ∅)
      = (Return c, w1) /\
    doc_cost_by_model (json_of_summary (__init__ ∅) s) !! "gpt-4.1" = None /\
    doc_cost_by_model (json_of_summary w1 s) !! "gpt-4.1"
      = Some (float_lit 200 2) /\
    json_of_summary w1 s <> json_of_summary (__init__ ∅) s.
Proof.
  exists {| sum_total_cost := zero; sum_cost_by_model := 0%nat;
            sum_cost_by_file := 1%nat;
            sum_timestamp := "2025-05-01T10:00:00" |},
    (float_lit 200 2),
    (charge "gpt-4.1" "paper.pdf" 1000000 0 (float_lit 200 2) (__init__ ∅)).
  split; [reflexivity |].
  split; [vm_compute; reflexivity |].
  split; [vm_compute; reflexivity |].
  split; [vm_compute; reflexivity |].
  intros H.
  apply (f_equal (fun d => doc_cost_by_model d !! "gpt-4.1")) in H.
  vm_compute in H. discriminate H.
Qed.

(** C6, as the code has it: [save_summary] takes its own summary at its
    own clock reading.  When the destination opens for writing, it saves
    there, in place of what was saved there before, the [total_cost],
    [cost_by_model] and [cost_by_file] that a summary taken immediately
    before holds, under the timestamp of the save: what is saved is that
    earlier summary exactly when the two clock readings coincide.  The
    ledger is left as it was and one line is logged.  When the
    destination does not open, the exception of [open] escapes and
    nothing is saved or logged. *)
Theorem save_summary_saves_own_summary (w : world) (t0 t1 : string)
    (opened : result unit) (path : string) :
  exists s,
    get_summary t0 w = (Return s, w) /\
    match opened with
    | Ok _ =>
        exists w2,
          save_summary t1 opened path w = (Return tt, w2) /\
          files w2 !! path = Some (with_timestamp t1 (json_of_summary w s)) /\
          json_of_summary w2 s = json_of_summary w s /\
          (files w2 !! path = Some (json_of_summary w2 s) <-> t0 = t1) /\
          heap w2 = heap w /\
          total_cost w2 = total_cost w /\
          cost_by_model w2 = cost_by_model w /\
          cost_by_file w2 = cost_by_file w /\
          logger w2 = logger w ++ [SavedLine path]
    | Raise e => save_summary t1 opened path w = (Raised e, w)
    end.
Proof.
  eexists. split; [reflexivity |].
  destruct opened as [u | e]; [| apply save_summary_raises].
  eexists. rewrite save_summary_unfold. split; [reflexivity |].
  unfold json_of_summary, with_timestamp, deref. simpl.
  rewrite lookup_insert_eq.
  repeat split; try reflexivity.
  - intros H. injection H as H. symmetry. exact H.
  - intros ->. reflexivity.
Qed.

(** C6, counterexample: the clock moves between the summary and the save,
    and the reloaded structure differs from the summary in its
    timestamp, even if JSON loses nothing. *)
Lemma reload_differs_from_earlier_summary :
  exists s w2,
    get_summary "2025-05-01T10:00:00.000001" (__init__ ∅)
      = (Return s, __init__ ∅) /\
    save_summary "2025-05-01T10:00:00.000002" (Ok tt) "cost_summary.json"
      (__init__ ∅) = (Return tt, w2) /\
    reload "cost_summary.json" w2 <> Some (json_of_summary w2 s).
Proof.
  eexists. eexists. split; [reflexivity |]. split; [reflexivity |].
  intros H.
  apply (f_equal (fun o => doc_timestamp <$> o)) in H.
  vm_compute in H. discriminate H.
Qed.

(** ** Batches of requests *)

Lemma log_requests_cons_inv m f a b cached rest w costs w' :
  log_requests m ((f, (a, b, cached)) :: rest) w = (Return costs, w') ->
  exists c cs p,
    costs = c :: cs /\
    get_model_info m = Ok p /\
    calculate_cost p a b cached = Ok c /\
    log_requests m rest (charge m f a b c w) = (Return cs, w').
Proof.
  simpl. unfold mbind at 1.
  destruct (log_request m f a b cached None w) as [[c | e] w1] eqn:H1;
    [| discriminate].
  apply log_request_inv in H1 as (p & Hres & Hcost & ->).
  unfold mbind, ret.
  destruct (log_requests m rest _) as [[cs | e] w2] eqn:H2; [| discriminate].
  intros H. injection H as <- <-.
  exists c, cs, p. auto.
Qed.

Lemma log_requests_accumulate m requests : forall w costs w',
  wf w ->
  log_requests m requests w = (Return costs, w') ->
  wf w' /\
  cost_by_model w' = cost_by_model w /\
  cost_by_file w' = cost_by_file w /\
  length costs = length requests /\
  total_cost w' = fsum_from (total_cost w) costs /\
  default zero (deref w' (cost_by_model w') !! m)
    = fsum_from (default zero (deref w (cost_by_model w) !! m)) costs /\
  (requests <> [] -> is_Some (deref w' (cost_by_model w') !! m)) /\
  (forall k, k <> m ->
     deref w' (cost_by_model w') !! k = deref w (cost_by_model w) !! k) /\
  (forall k, k ∉ requests.*1 ->
     deref w' (cost_by_file w') !! k = deref w (cost_by_file w) !! k).
Proof.
  induction requests as [| [f [[a b] cached]] rest IH]; intros w costs w' Hwf.
  - simpl. unfold ret. intros H. injection H as <- <-.
    repeat split; try reflexivity; try tauto. apply Hwf. apply Hwf. apply Hwf.
  - intros H. apply log_requests_cons_inv in H as (c & cs & p & -> & _ & _ & H).
    pose proof (charge_wf m f a b c w Hwf) as Hwf1.
    destruct (IH _ _ _ Hwf1 H) as (Hwf' & Hm & Hf & Hlen & Htot & Hsum & _
                                   & Hmframe & Hfframe).
    rewrite charge_cost_by_model in Hm, Hsum, Hmframe.
    rewrite charge_cost_by_file in Hf, Hfframe.
    rewrite (charge_by_model _ _ _ _ _ _ Hwf) in Hsum, Hmframe.
    rewrite (charge_by_file _ _ _ _ _ _ Hwf) in Hfframe.
    rewrite charge_total in Htot. rewrite lookup_insert_eq in Hsum.
    split; [exact Hwf' |]. split; [exact Hm |]. split; [exact Hf |].
    split; [simpl; f_equal; exact Hlen |].
    split; [exact Htot |]. split; [exact Hsum |].
    split; [| split].
    + intros _. destruct (decide (rest = [])) as [-> | Hne].
      * simpl in H. unfold ret in H. injection H as <- <-.
        rewrite charge_cost_by_model, (charge_by_model _ _ _ _ _ _ Hwf).
        rewrite lookup_insert_eq. eexists; reflexivity.
      * destruct (IH _ _ _ Hwf1 H) as (_ & _ & _ & _ & _ & _ & Hsome & _).
        exact (Hsome Hne).
    + intros k Hk. rewrite (Hmframe k Hk). apply lookup_insert_ne. congruence.
    + intros k Hk. rewrite fmap_cons, not_elem_of_cons in Hk. simpl in Hk.
      destruct Hk as [Hkf Hk]. rewrite (Hfframe k Hk).
      apply lookup_insert_ne. congruence.
Qed.

Lemma log_requests_by_file m requests : forall w costs w',
  wf w ->
  NoDup requests.*1 ->
  log_requests m requests w = (Return costs, w') ->
  forall (i : nat) f c,
    requests.*1 !! i = Some f -> costs !! i = Some c ->
    deref w' (cost_by_file w') !! f
      = Some (fadd (default zero (deref w (cost_by_file w) !! f)) c).
Proof.
  induction requests as [| [f0 [[a b] cached]] rest IH];
    intros w costs w' Hwf Hnd Hrun i f c Hf Hc.
  - destruct i; discriminate Hf.
  - apply log_requests_cons_inv in Hrun as (c0 & cs & p & -> & _ & _ & Hrun).
    rewrite fmap_cons in Hnd. apply NoDup_cons in Hnd as [Hnotin Hnd].
    pose proof (charge_wf m f0 a b c0 w Hwf) as Hwf1.
    destruct i as [| i]; simpl in Hf, Hc.
    + injection Hf as <-. injection Hc as <-.
      destruct (log_requests_accumulate _ _ _ _ _ Hwf1 Hrun)
        as (_ & _ & _ & _ & _ & _ & _ & _ & Hframe).
      rewrite (Hframe f0 Hnotin).
      rewrite charge_cost_by_file, (charge_by_file _ _ _ _ _ _ Hwf).
      apply lookup_insert_eq.
    + rewrite (IH _ _ _ Hwf1 Hnd Hrun i f c Hf Hc).
      rewrite charge_cost_by_file, (charge_by_file _ _ _ _ _ _ Hwf).
      rewrite lookup_insert_ne; [reflexivity |].
      intros ->. apply Hnotin. apply list_elem_of_lookup. eauto.
Qed.

(** C5: on a fresh ledger, after a batch of successful requests for one
    registered model, [total_cost] and the model's entry of
    [cost_by_model] both equal the sum of the returned costs, accumulated
    in call order from zero; with distinct file paths each file's entry is
    zero plus the cost returned for it. *)
Theorem log_requests_sums fs m requests costs w' :
  log_requests m requests (__init__ fs) = (Return costs, w') ->
  length costs = length requests /\
  total_cost w' = fsum costs /\
  (requests <> [] ->
     deref w' (cost_by_model w') !! m = Some (fsum costs)) /\
  (NoDup requests.*1 ->
     forall (i : nat) f c,
       requests.*1 !! i = Some f -> costs !! i = Some c ->
       deref w' (cost_by_file w') !! f = Some (fadd zero c)).
Proof.
  intros Hrun.
  destruct (log_requests_accumulate _ _ _ _ _ (init_wf fs) Hrun)
    as (_ & _ & _ & Hlen & Htot & Hsum & Hsome & _).
  split; [exact Hlen |]. split; [exact Htot |]. split.
  - intros Hne. destruct (Hsome Hne) as [v Hv].
    rewrite Hv in Hsum. simpl in Hsum. rewrite Hv, Hsum. reflexivity.
  - intros Hnd i f c Hf Hc.
    rewrite (log_requests_by_file _ _ _ _ _ (init_wf fs) Hnd Hrun i f c Hf Hc).
    reflexivity.
Qed.

Lemma log_requests_sums_witness :
  let requests := [("a.pdf", (1000000, 500000, false));
                   ("b.pdf", (1, 0, false));
                   ("c.pdf", (2, 0, true))] in
  let res := log_requests "gpt-4.1-mini" requests (__init__ ∅) in
  let costs := match fst res with Return cs => cs | Raised _ => [] end in
  res = (Return costs, snd res) /\
  requests <> [] /\
  NoDup requests.*1 /\
  total_cost (snd res) = fsum costs /\
  deref (snd res) (cost_by_model (snd res)) !! "gpt-4.1-mini"
    = Some (fsum costs) /\
  deref (snd res) (cost_by_file (snd res)) !! "b.pdf"
    = Some (fadd zero (float_lit 4 7)).
Proof.
  intros requests res costs.
  assert (Hrun : res = (Return costs, snd res)) by (vm_compute; reflexivity).
  assert (Hne : requests <> []) by discriminate.
  assert (Hnd : NoDup requests.*1).
  { change (NoDup ["a.pdf"; "b.pdf"; "c.pdf"]).
    apply bool_decide_unpack with (dec := NoDup_dec _).
    vm_compute; reflexivity. }
  destruct (log_requests_sums ∅ "gpt-4.1-mini" requests costs (snd res) Hrun)
    as (_ & Htot & Hmodel & Hfile).
  split; [exact Hrun |]. split; [exact Hne |]. split; [exact Hnd |].
  split; [exact Htot |]. split; [exact (Hmodel Hne) |].
  apply (Hfile Hnd 1%nat "b.pdf" (float_lit 4 7)); vm_compute; reflexivity.
Defined.

(** ** The ledger only grows *)

Lemma registry_pricing_ok m p :
  MODEL_PRICING !! m = Some p -> pricing_ok p = true.
Proof.
  intros H. registry_cases H ltac:(vm_compute; reflexivity).
Qed.

Lemma price_ok_inv x :
  price_ok x = true -> good x = true /\ is_infinity x = false.
Proof.
  unfold price_ok. intros H. apply andb_true_iff in H as [Hg Hi].
  apply negb_true_iff in Hi. auto.
Qed.

Lemma calculate_cost_good p a b cached c :
  pricing_ok p = true -> 0 <= a -> 0 <= b ->
  calculate_cost p a b cached = Ok c -> good c = true.
Proof.
  intros Hp Ha Hb. unfold pricing_ok in Hp.
  apply andb_true_iff in Hp as [Hp Hout].
  apply andb_true_iff in Hp as [Hin Hcin].
  apply price_ok_inv in Hin as [Hin Hin'].
  apply price_ok_inv in Hcin as [Hcin Hcin'].
  apply price_ok_inv in Hout as [Hout Hout'].
  unfold calculate_cost, bind.
  destruct (int_truediv a 1000000) as [x | e] eqn:Hx; [| discriminate].
  destruct (int_truediv b 1000000) as [y | e] eqn:Hy; [| discriminate].
  apply int_truediv_good in Hx as [Hx Hx']; [| exact Ha].
  apply int_truediv_good in Hy as [Hy Hy']; [| exact Hb].
  intros H. injection H as <-.
  apply fadd_good.
  - destruct cached; apply fmul_good; assumption.
  - apply fmul_good; assumption.
Qed.

Lemma resolve_pricing_ok m mi p :
  match mi with Some q => pricing_ok q = true | None => True end ->
  resolve m mi = Ok p -> pricing_ok p = true.
Proof.
  destruct mi as [q |]; simpl.
  - intros Hq H. injection H as <-. exact Hq.
  - intros _. unfold get_model_info.
    destruct (MODEL_PRICING !! m) as [q |] eqn:Hm; [| discriminate].
    intros H. injection H as <-. exact (registry_pricing_ok _ _ Hm).
Qed.

Lemma good_nonneg x : good x = true -> fle zero x = true.
Proof. intros H. apply good_inv in H. tauto. Qed.

Lemma good_le_refl x : good x = true -> fle x x = true.
Proof. intros H. apply fle_refl_valid, good_nonneg, H. Qed.

Lemma ledger_le_refl w : ledger_inv w -> ledger_le w w.
Proof.
  intros (_ & Ht & Hm & Hf). repeat split.
  - apply good_le_refl, Ht.
  - intros k v Hk. exists v. split; [exact Hk |]. apply good_le_refl. eauto.
  - intros k v Hk. exists v. split; [exact Hk |]. apply good_le_refl. eauto.
Qed.

Lemma ledger_le_trans w1 w2 w3 :
  ledger_inv w1 -> ledger_inv w2 -> ledger_inv w3 ->
  ledger_le w1 w2 -> ledger_le w2 w3 -> ledger_le w1 w3.
Proof.
  intros (_ & Ht1 & Hm1 & Hf1) (_ & Ht2 & Hm2 & Hf2) (_ & Ht3 & Hm3 & Hf3)
    (Ht12 & Hm12 & Hf12) (Ht23 & Hm23 & Hf23).
  repeat split.
  - apply (fle_trans _ (total_cost w2)); auto using good_nonneg.
  - intros k v Hk. destruct (Hm12 k v Hk) as (v2 & Hk2 & Hle2).
    destruct (Hm23 k v2 Hk2) as (v3 & Hk3 & Hle3).
    exists v3. split; [exact Hk3 |].
    apply (fle_trans _ v2); eauto using good_nonneg.
  - intros k v Hk. destruct (Hf12 k v Hk) as (v2 & Hk2 & Hle2).
    destruct (Hf23 k v2 Hk2) as (v3 & Hk3 & Hle3).
    exists v3. split; [exact Hk3 |].
    apply (fle_trans _ v2); eauto using good_nonneg.
Qed.

Lemma default_zero_good (o : option float) :
  (forall v, o = Some v -> good v = true) -> good (default zero o) = true.
Proof. destruct o as [v |]; simpl; [eauto | reflexivity]. Qed.

Lemma charge_inv m f a b c w :
  ledger_inv w -> good c = true ->
  ledger_inv (charge m f a b c w) /\ ledger_le w (charge m f a b c w).
Proof.
  intros (Hwf & Ht & Hm & Hf) Hc.
  assert (Hgm : good (default zero (deref w (cost_by_model w) !! m)) = true)
    by (apply default_zero_good; eauto).
  assert (Hgf : good (default zero (deref w (cost_by_file w) !! f)) = true)
    by (apply default_zero_good; eauto).
  split.
  - split; [apply charge_wf, Hwf |].
    unfold all_entries.
    rewrite charge_total, charge_cost_by_model, charge_cost_by_file,
      (charge_by_model _ _ _ _ _ _ Hwf), (charge_by_file _ _ _ _ _ _ Hwf).
    repeat split.
    + apply fadd_good; assumption.
    + intros k v. destruct (decide (m = k)) as [<- | Hne].
      * rewrite lookup_insert_eq. intros H. injection H as <-.
        apply fadd_good; assumption.
      * rewrite lookup_insert_ne by exact Hne. apply Hm.
    + intros k v. destruct (decide (f = k)) as [<- | Hne].
      * rewrite lookup_insert_eq. intros H. injection H as <-.
        apply fadd_good; assumption.
      * rewrite lookup_insert_ne by exact Hne. apply Hf.
  - unfold ledger_le.
    rewrite charge_total, charge_cost_by_model, charge_cost_by_file,
      (charge_by_model _ _ _ _ _ _ Hwf), (charge_by_file _ _ _ _ _ _ Hwf).
    repeat split.
    + apply fadd_ge; assumption.
    + intros k v Hk. destruct (decide (m = k)) as [<- | Hne].
      * rewrite lookup_insert_eq, Hk. simpl. eexists. split; [reflexivity |].
        apply fadd_ge; eauto.
      * rewrite lookup_insert_ne by exact Hne. exists v.
        split; [exact Hk | apply good_le_refl; eauto].
    + intros k v Hk. destruct (decide (f = k)) as [<- | Hne].
      * rewrite lookup_insert_eq, Hk. simpl. eexists. split; [reflexivity |].
        apply fadd_ge; eauto.
      * rewrite lookup_insert_ne by exact Hne. exists v.
        split; [exact Hk | apply good_le_refl; eauto].
Qed.

Lemma step_inv o w :
  ledger_inv w -> op_ok o ->
  ledger_inv (step o w) /\ ledger_le w (step o w).
Proof.
  intros Hinv Hok. destruct o as [m f a b cached mi | now | now opened path].
  - destruct Hok as (Ha & Hb & Hmi). unfold step.
    rewrite log_request_unfold.
    destruct (resolve m mi) as [p | e] eqn:Hres;
      [| split; [exact Hinv | apply ledger_le_refl, Hinv]].
    destruct (calculate_cost p a b cached) as [c | e] eqn:Hc;
      [| split; [exact Hinv | apply ledger_le_refl, Hinv]].
    simpl snd. apply charge_inv; [exact Hinv |].
    apply (calculate_cost_good p a b cached); try assumption.
    exact (resolve_pricing_ok _ _ _ Hmi Hres).
  - simpl. split; [exact Hinv | apply ledger_le_refl, Hinv].
  - unfold step.
    destruct opened as [u | e];
      [| rewrite save_summary_raises;
         split; [exact Hinv | apply ledger_le_refl, Hinv]].
    rewrite save_summary_unfold. simpl snd.
    assert (Hsame : ledger_inv
              (logger_info (SavedLine path)
                 (write_file path
                    {| doc_total_cost := total_cost w;
                       doc_cost_by_model := deref w (cost_by_model w);
                       doc_cost_by_file := deref w (cost_by_file w);
                       doc_timestamp := now |} w))) by exact Hinv.
    split; [exact Hsame |]. exact (ledger_le_refl w Hinv).
Qed.

Lemma run_ops_inv ops : forall w,
  ledger_inv w -> Forall op_ok ops ->
  ledger_inv (run_ops ops w) /\ ledger_le w (run_ops ops w).
Proof.
  induction ops as [| o ops IH]; intros w Hinv Hok.
  - split; [exact Hinv | apply ledger_le_refl, Hinv].
  - apply Forall_cons in Hok as [Ho Hops].
    destruct (step_inv o w Hinv Ho) as [Hinv1 Hle1].
    destruct (IH (step o w) Hinv1 Hops) as [Hinv2 Hle2].
    split; [exact Hinv2 |].
    exact (ledger_le_trans _ _ _ Hinv Hinv1 Hinv2 Hle1 Hle2).
Qed.

Lemma init_inv fs : ledger_inv (__init__ fs).
Proof.
  assert (Hm : deref (__init__ fs) (cost_by_model (__init__ fs)) = ∅)
    by reflexivity.
  assert (Hf : deref (__init__ fs) (cost_by_file (__init__ fs)) = ∅)
    by reflexivity.
  split; [apply init_wf |]. split; [reflexivity |].
  rewrite Hm, Hf.
  split; intros k v H; rewrite lookup_empty in H; discriminate H.
Qed.

(** C7, as the code has it: the ledger starts with a zero total and two
    empty dictionaries; after any sequence of operations whose requests
    carry non-negative token counts and, where the caller supplies the
    price record, three finite non-negative prices, the total and every
    entry are non-negative, and any further such operations leave the
    total and every entry at least as large, never removing an entry. *)
Theorem ledger_only_grows fs ops more :
  Forall op_ok ops -> Forall op_ok more ->
  total_cost (__init__ fs) = zero /\
  deref (__init__ fs) (cost_by_model (__init__ fs)) = ∅ /\
  deref (__init__ fs) (cost_by_file (__init__ fs)) = ∅ /\
  ledger_nonneg (run_ops ops (__init__ fs)) /\
  ledger_le (run_ops ops (__init__ fs))
            (run_ops more (run_ops ops (__init__ fs))).
Proof.
  intros Hops Hmore.
  destruct (run_ops_inv ops (__init__ fs) (init_inv fs) Hops) as [Hinv _].
  destruct (run_ops_inv more _ Hinv Hmore) as [_ Hle].
  split; [reflexivity |]. split; [reflexivity |]. split; [reflexivity |].
  split; [| exact Hle].
  destruct Hinv as (_ & Ht & Hm & Hf).
  repeat split; eauto using good_nonneg.
Qed.

Lemma ledger_only_grows_witness :
  let ops := [LogRequest "gpt-4.1-mini" "a.pdf" 1000000 500000 false None;
              GetSummary "2025-05-01T10:00:00";
              LogRequest "in-house-model" "b.pdf" 5 7 true (Some gpt_4_1)] in
  let more := [SaveSummary "2025-05-01T10:00:01" (Ok tt) "cost_summary.json";
               LogRequest "gpt-4.1-mini" "a.pdf" 1 2 false None] in
  Forall op_ok ops /\ Forall op_ok more /\
  ledger_nonneg (run_ops ops (__init__ ∅)) /\
  ledger_le (run_ops ops (__init__ ∅))
            (run_ops more (run_ops ops (__init__ ∅))).
Proof.
  intros ops more.
  assert (Hops : Forall op_ok ops).
  { repeat constructor; simpl; lia. }
  assert (Hmore : Forall op_ok more).
  { repeat constructor; simpl; lia. }
  split; [exact Hops |]. split; [exact Hmore |].
  exact (proj2 (proj2 (proj2 (ledger_only_grows ∅ ops more Hops Hmore)))).
Defined.

(** C7, counterexample: [log_request] takes a supplied price record as
    it is.  With prices that are non-negative but without bound, a
    request of no tokens returns and leaves a total that is not a number,
    so not non-negative; with negative prices a request with a
    non-negative token count returns and lowers the total and both
    entries. *)
Lemma ledger_spoiled_by_supplied_prices :
  prices_nonneg unbounded_pricing = true /\
  (exists c w,
     log_request "in-house-model" "a.pdf" 0 0 false (Some unbounded_pricing)
       (__init__ ∅) = (Return c, w) /\
     total_cost w = S754_nan /\
     fle zero (total_cost w) = false) /\
  ~ ledger_nonneg
      (run_ops [LogRequest "in-house-model" "a.pdf" 0 0 false
                  (Some unbounded_pricing)] (__init__ ∅)) /\
  (exists c0 c1 w1 w2,
     log_request "gpt-4.1" "a.pdf" 1000000 0 false None (__init__ ∅)
       = (Return c0, w1) /\
     log_request "gpt-4.1" "a.pdf" 1000000 0 false (Some negative_pricing) w1
       = (Return c1, w2) /\
     total_cost w1 = float_lit 200 2 /\
     total_cost w2 = float_lit 100 2 /\
     fle (total_cost w1) (total_cost w2) = false) /\
  ~ ledger_le
      (run_ops [LogRequest "gpt-4.1" "a.pdf" 1000000 0 false None] (__init__ ∅))
      (run_ops [LogRequest "gpt-4.1" "a.pdf" 1000000 0 false
                  (Some negative_pricing)]
         (run_ops [LogRequest "gpt-4.1" "a.pdf" 1000000 0 false None]
            (__init__ ∅))).
Proof.
  split; [vm_compute; reflexivity |].
  split.
  { eexists _, _. split; [vm_compute; reflexivity |].
    split; vm_compute; reflexivity. }
  split.
  { intros [H _]. vm_compute in H. discriminate H. }
  split.
  { eexists _, _, _, _. split; [vm_compute; reflexivity |].
    split; [vm_compute; reflexivity |].
    split; [vm_compute; reflexivity |].
    split; vm_compute; reflexivity. }
  intros [H _]. vm_compute in H. discriminate H.
Qed.

(** ** Additivity of the cost up to rounding *)

Lemma price_normal_inv x :
  price_normal x = true ->
  exists m e, x = S754_finite false m e /\
              valid_binary prec emax x = true /\ -64 <= mag m e <= 64.
Proof.
  destruct x as [s | s | | s m e]; try discriminate.
  destruct s; [discriminate |]. unfold price_normal.
  intros H. apply andb_true_iff in H as [H Hup].
  apply andb_true_iff in H as [Hv Hlo].
  apply Z.leb_le in Hup, Hlo. exists m, e. auto.
Qed.

Lemma agree_eq_r u x y y' : (y == y')%Q -> agree u x y -> agree u x y'.
Proof. unfold agree. intros E [H1 H2]. rewrite <- E. auto. Qed.

Lemma fmul_zero_price y :
  price_ok y = true -> exists s, fmul (S754_zero false) y = S754_zero s.
Proof.
  intros H. apply price_ok_inv in H as [Hg Hi].
  destruct (good_cases y Hg) as [[s ->] | [-> | (m & e & -> & _)]];
    [| discriminate |]; simpl; eauto.
Qed.

Lemma int_truediv_zero : int_truediv 0 1000000 = Ok (S754_zero false).
Proof. reflexivity. Qed.

Lemma calculate_cost_zero p :
  price_normal (input_price p) = true ->
  price_ok (output_price p) = true ->
  calculate_cost p 0 0 false = Ok (S754_zero false).
Proof.
  intros Hin Hout.
  destruct (price_normal_inv _ Hin) as (mp & ep & HP & _).
  destruct (fmul_zero_price _ Hout) as [s Hs].
  rewrite (calculate_cost_unfold p 0 0 false _ _ int_truediv_zero
             int_truediv_zero).
  rewrite Hs, HP. destruct s; reflexivity.
Qed.

Lemma u52_nonneg : (0 <= u52)%Q.
Proof. discriminate. Qed.

Lemma calculate_cost_input p a mp ep :
  input_price p = S754_finite false mp ep ->
  valid_binary prec emax (S754_finite false mp ep) = true ->
  -64 <= mag mp ep <= 64 ->
  price_ok (output_price p) = true ->
  0 < a -> Zdigits2 a <= 900 ->
  exists m e,
    calculate_cost p a 0 false = Ok (S754_finite false m e) /\
    Zdigits2 a - 21 + mag mp ep <= mag m e <= Zdigits2 a - 17 + mag mp ep /\
    agree (u52 * u52) (inject_Z (Z.pos m) * 2 ^ e)
      (inject_Z a / 1000000 * (inject_Z (Z.pos mp) * 2 ^ ep)).
Proof.
  intros HP HvP HmagP Hout Ha Hda.
  destruct (int_truediv_agree a Ha ltac:(lia)) as (mx & ex & Hx & Hvx & Hmx & Hax).
  pose proof (Zdigits2_pos a Ha) as Hd.
  destruct (fmul_agree mx ex mp ep Hvx HvP ltac:(lia))
    as (m & e & Hmul & Hv & Hm & Hag).
  destruct (fmul_zero_price _ Hout) as [s Hs].
  exists m, e. split; [| split; [lia |]].
  - rewrite (calculate_cost_unfold p a 0 false _ _ Hx int_truediv_zero).
    rewrite Hs, HP, Hmul. reflexivity.
  - apply (agree_trans _ _ _ _ _ u52_nonneg u52_nonneg Hag).
    apply agree_mul; [| exact Hax].
    apply Qmult_le_0_compat; [| apply Qlt_le_weak, pow2Q_pos].
    change 0%Q with (inject_Z 0). rewrite <- Zle_Qle. lia.
Qed.

Lemma registry_price_normal model p :
  MODEL_PRICING !! model = Some p ->
  price_normal (input_price p) = true /\ price_ok (output_price p) = true.
Proof.
  intros H. registry_cases H ltac:(split; vm_compute; reflexivity).
Qed.

Lemma float_value_finite m e :
  (float_value (S754_finite false m e) == inject_Z (Z.pos m) * 2 ^ e)%Q.
Proof. unfold float_value. ring. Qed.

Lemma float_value_nonneg_finite m e :
  (0 <= inject_Z (Z.pos m) * 2 ^ e)%Q.
Proof.
  apply Qmult_le_0_compat; [| apply Qlt_le_weak, pow2Q_pos].
  change 0%Q with (inject_Z 0). rewrite <- Zle_Qle. lia.
Qed.

Lemma agree_float_value u m1 e1 m2 e2 :
  agree u (inject_Z (Z.pos m1) * 2 ^ e1) (inject_Z (Z.pos m2) * 2 ^ e2) ->
  agree u (float_value (S754_finite false m1 e1))
          (float_value (S754_finite false m2 e2)).
Proof. unfold agree. rewrite !float_value_finite. auto. Qed.

Lemma u52_sq_nonneg : (0 <= u52 * u52)%Q.
Proof. discriminate. Qed.

Lemma u52_cube_nonneg : (0 <= u52 * (u52 * u52))%Q.
Proof. discriminate. Qed.

Lemma u52_five : (u52 * u52 * (u52 * (u52 * u52)) <= u49)%Q.
Proof. vm_compute. discriminate. Qed.

Lemma calculate_cost_additive_up_to_rounding p a b :
  price_normal (input_price p) = true ->
  price_ok (output_price p) = true ->
  0 <= a -> 0 <= b -> a + b < 2 ^ 900 ->
  exists l ca cb,
    calculate_cost p (a + b) 0 false = Ok l /\
    calculate_cost p a 0 false = Ok ca /\
    calculate_cost p b 0 false = Ok cb /\
    is_finite l = true /\
    is_finite (fadd ca cb) = true /\
    agree u49 (float_value l) (float_value (fadd ca cb)) /\
    (a = 0 \/ b = 0 -> l = fadd ca cb).
Proof.
  intros Hin Hout Ha Hb Hab.
  destruct (price_normal_inv _ Hin) as (mp & ep & HP & HvP & HmagP).
  rewrite HP in HvP.
  assert (Hdig : forall n, 0 < n -> n <= a + b -> Zdigits2 n <= 900).
  { intros n Hn Hle. apply Zdigits2_le; lia. }
  assert (Hone : (1 <= u49)%Q) by (vm_compute; discriminate).
  destruct (Z.eq_dec a 0) as [-> | Ha0]; destruct (Z.eq_dec b 0) as [-> | Hb0].
  - exists (S754_zero false), (S754_zero false), (S754_zero false).
    change (0 + 0) with 0. rewrite (calculate_cost_zero p Hin Hout).
    do 5 (split; [reflexivity |]). split; [| intros _; reflexivity].
    apply agree_refl; [exact Hone | discriminate].
  - destruct (calculate_cost_input p b mp ep HP HvP HmagP Hout ltac:(lia)
                (Hdig b ltac:(lia) ltac:(lia))) as (m & e & Hc & _ & _).
    exists (S754_finite false m e), (S754_zero false), (S754_finite false m e).
    rewrite Z.add_0_l, Hc, (calculate_cost_zero p Hin Hout).
    do 5 (split; [reflexivity |]). split; [| intros _; reflexivity].
    simpl fadd. apply agree_float_value.
    apply agree_refl; [exact Hone | apply float_value_nonneg_finite].
  - destruct (calculate_cost_input p a mp ep HP HvP HmagP Hout ltac:(lia)
                (Hdig a ltac:(lia) ltac:(lia))) as (m & e & Hc & _ & _).
    exists (S754_finite false m e), (S754_finite false m e), (S754_zero false).
    rewrite Z.add_0_r, Hc, (calculate_cost_zero p Hin Hout).
    do 5 (split; [reflexivity |]). split; [| intros _; reflexivity].
    simpl fadd. apply agree_float_value.
    apply agree_refl; [exact Hone | apply float_value_nonneg_finite].
  - destruct (calculate_cost_input p (a + b) mp ep HP HvP HmagP Hout
                ltac:(lia) (Hdig (a + b) ltac:(lia) ltac:(lia)))
      as (ml & el & Hl & Hml & Hal).
    destruct (calculate_cost_input p a mp ep HP HvP HmagP Hout ltac:(lia)
                (Hdig a ltac:(lia) ltac:(lia))) as (ma & ea & Hca & Hma & Haa).
    destruct (calculate_cost_input p b mp ep HP HvP HmagP Hout ltac:(lia)
                (Hdig b ltac:(lia) ltac:(lia))) as (mb & eb & Hcb & Hmb & Hbb).
    pose proof (Zdigits2_pos a ltac:(lia)) as Hda.
    pose proof (Zdigits2_pos b ltac:(lia)) as Hdb.
    pose proof (Hdig a ltac:(lia) ltac:(lia)) as Hda'.
    pose proof (Hdig b ltac:(lia) ltac:(lia)) as Hdb'.
    destruct (fadd_agree ma ea mb eb ltac:(lia))
      as (mr & er & Hr & _ & _ & Har).
    exists (S754_finite false ml el), (S754_finite false ma ea),
      (S754_finite false mb eb).
    rewrite Hl, Hca, Hcb, Hr.
    do 5 (split; [reflexivity |]). split; [| lia].
    apply agree_float_value.
    apply agree_weaken with (u52 * u52 * (u52 * (u52 * u52)))%Q;
      [exact u52_five | apply float_value_nonneg_finite
       | apply float_value_nonneg_finite |].
    apply (agree_trans _ _ _ _ _ u52_sq_nonneg u52_cube_nonneg Hal).
    apply agree_sym.
    apply (agree_trans _ _ _ _ _ u52_nonneg u52_sq_nonneg Har).
    apply agree_eq_r
      with (inject_Z a / 1000000 * (inject_Z (Z.pos mp) * 2 ^ ep)
            + inject_Z b / 1000000 * (inject_Z (Z.pos mp) * 2 ^ ep))%Q.
    + rewrite inject_Z_plus. unfold Qdiv. ring.
    + apply agree_add; assumption.
Qed.

(** C4, as the code has it: for a registered price record and token
    counts summing to less than 2^900, the cost of [a + b] input tokens
    and the float sum of the costs of [a] and of [b] are both finite and
    agree within a factor of [1 + 2^-49]; they are the same float when
    [a] or [b] is zero. *)
Theorem calculate_cost_nearly_additive model p a b :
  MODEL_PRICING !! model = Some p ->
  0 <= a -> 0 <= b -> a + b < 2 ^ 900 ->
  exists l ca cb,
    calculate_cost p (a + b) 0 false = Ok l /\
    calculate_cost p a 0 false = Ok ca /\
    calculate_cost p b 0 false = Ok cb /\
    is_finite l = true /\
    is_finite (fadd ca cb) = true /\
    agree u49 (float_value l) (float_value (fadd ca cb)) /\
    (a = 0 \/ b = 0 -> l = fadd ca cb).
Proof.
  intros Hp. destruct (registry_price_normal model p Hp) as [Hin Hout].
  apply calculate_cost_additive_up_to_rounding; assumption.
Qed.

Lemma calculate_cost_nearly_additive_witness :
  exists l ca cb,
    calculate_cost gpt_4_1_mini (1 + 2) 0 false = Ok l /\
    calculate_cost gpt_4_1_mini 1 0 false = Ok ca /\
    calculate_cost gpt_4_1_mini 2 0 false = Ok cb /\
    agree u49 (float_value l) (float_value (fadd ca cb)).
Proof.
  destruct (calculate_cost_nearly_additive "gpt-4.1-mini" gpt_4_1_mini 1 2)
    as (l & ca & cb & Hl & Ha & Hb & _ & _ & Hag & _).
  - vm_compute; reflexivity.
  - lia.
  - lia.
  - vm_compute; reflexivity.
  - exists l, ca, cb. auto.
Defined.

(** C4, counterexample: at the price record of gpt-4.1-mini the cost of
    1 + 2 input tokens is one unit in the last place above the sum of the
    costs of 1 and of 2 input tokens. *)
Lemma calculate_cost_not_additive :
  calculate_cost gpt_4_1_mini (1 + 2) 0 false
    = Ok (S754_finite false 5666839779443575 (-72)) /\
  calculate_cost gpt_4_1_mini 1 0 false
    = Ok (S754_finite false 7555786372591432 (-74)) /\
  calculate_cost gpt_4_1_mini 2 0 false
    = Ok (S754_finite false 7555786372591432 (-73)) /\
  fadd (S754_finite false 7555786372591432 (-74))
       (S754_finite false 7555786372591432 (-73))
    = S754_finite false 5666839779443574 (-72) /\
  feq (S754_finite false 5666839779443575 (-72))
      (S754_finite false 5666839779443574 (-72)) = false.
Proof.
  split; [vm_compute; reflexivity |]. split; [vm_compute; reflexivity |].
  split; [vm_compute; reflexivity |]. split; vm_compute; reflexivity.
Qed.

(** ** Requests return

    No token count below 2^1000 overflows the division, so the cost
    function and a request with a resolved price record return. *)

Lemma log_request_returns m f a b cached mi w p :
  resolve m mi = Ok p ->
  0 <= a < 2 ^ 1000 -> 0 <= b < 2 ^ 1000 ->
  exists c, log_request m f a b cached mi w = (Return c, charge m f a b c w).
Proof.
  intros Hres Ha Hb.
  destruct (calculate_cost_returns p a b cached Ha Hb) as [c Hc].
  exists c. rewrite log_request_unfold, Hres, Hc. reflexivity.
Qed.

(** ** The listing of models and failing requests *)

(** X1: [list_available_models] lists exactly the identifiers
    [get_model_info] accepts, each with the description of its record:
    an identifier is listed with description [d] exactly when
    [get_model_info] returns a record whose description is [d], and it is
    not listed exactly when [get_model_info] raises
    [ValueError("Unknown model: ...")]; the listed identifiers are the
    five of the table. *)
Theorem list_available_models_agrees (model_name : string) :
  (forall d, list_available_models !! model_name = Some d <->
     exists p, get_model_info model_name = Ok p /\ description p = d) /\
  (list_available_models !! model_name = None <->
     get_model_info model_name
       = Raise (ValueError ("Unknown model: " ++ model_name))) /\
  dom list_available_models
    = list_to_set ["gpt-4.1"; "gpt-4.1-mini"; "gpt-4.1-nano"; "o3"; "o4-mini"].
Proof.
  unfold list_available_models, get_model_info, unknown_model.
  rewrite lookup_fmap.
  destruct (MODEL_PRICING !! model_name) as [p |] eqn:Hp; simpl.
  - split; [| split].
    + intros d. split.
      * intros H. injection H as <-. eauto.
      * intros (q & Hq & <-). injection Hq as <-. reflexivity.
    + split; discriminate.
    + rewrite dom_fmap_L. unfold MODEL_PRICING.
      rewrite dom_list_to_map_L. reflexivity.
  - split; [| split].
    + intros d. split; [discriminate |]. intros (q & Hq & _). discriminate.
    + split; reflexivity.
    + rewrite dom_fmap_L. unfold MODEL_PRICING.
      rewrite dom_list_to_map_L. reflexivity.
Qed.

(** X2: a request that raises leaves the whole world as it was: total,
    dictionaries, log and files.  It raises in two ways only: the
    [ValueError] of an identifier outside the registry when no price
    record was supplied, or the [OverflowError] of the division, which
    needs a token count outside the range from 0 to 2^1000. *)
Theorem log_request_raises_atomically m f a b cached mi w e w' :
  log_request m f a b cached mi w = (Raised e, w') ->
  w' = w /\
  ((mi = None /\ MODEL_PRICING !! m = None
    /\ e = ValueError ("Unknown model: " ++ m)) \/
   (e = OverflowError /\ ~ (0 <= a < 2 ^ 1000 /\ 0 <= b < 2 ^ 1000))).
Proof.
  rewrite log_request_unfold.
  destruct (resolve m mi) as [p | e0] eqn:Hres.
  - destruct (calculate_cost p a b cached) as [c | e1] eqn:Hc; [discriminate |].
    intros H. injection H as <- <-. split; [reflexivity |]. right.
    split; [exact (calculate_cost_raises _ _ _ _ _ Hc) |].
    intros [Ha Hb].
    destruct (calculate_cost_returns p a b cached Ha Hb) as [c Hc'].
    congruence.
  - intros H. injection H as <- <-. split; [reflexivity |]. left.
    destruct mi as [q |]; [discriminate |]. simpl in Hres.
    unfold get_model_info in Hres.
    destruct (MODEL_PRICING !! m) as [q |] eqn:Hm; [discriminate |].
    injection Hres as <-. auto.
Qed.

Lemma log_request_raises_atomically_witness :
  snd (log_request "gpt-5" "paper.pdf" 1200 300 false None (__init__ ∅))
  = __init__ ∅.
Proof.
  refine (proj1 (log_request_raises_atomically "gpt-5" "paper.pdf" 1200 300
    false None (__init__ ∅) (ValueError "Unknown model: gpt-5") _ _)).
  vm_compute; reflexivity.
Defined.



(** ** The ledger and its log *)

Lemma step_cases o w :
  step o w = w \/
  (exists m f a b cached mi c,
     o = LogRequest m f a b cached mi /\ step o w = charge m f a b c w) \/
  (exists now u path, o = SaveSummary now (Ok u) path /\
       step o w = logger_info (SavedLine path)
         (write_file path
            {| doc_total_cost := total_cost w;
               doc_cost_by_model := deref w (cost_by_model w);
               doc_cost_by_file := deref w (cost_by_file w);
               doc_timestamp := now |} w)).
Proof.
  destruct o as [m f a b cached mi | now | now [u | e] path].
  - unfold step. rewrite log_request_unfold.
    destruct (resolve m mi) as [p | e]; [| left; reflexivity].
    destruct (calculate_cost p a b cached) as [c | e]; [| left; reflexivity].
    right. left. exists m, f, a, b, cached, mi, c. split; reflexivity.
  - left. reflexivity.
  - right. right. exists now, u, path. split; [reflexivity |].
    unfold step. rewrite save_summary_unfold. reflexivity.
  - left. reflexivity.
Qed.

Lemma run_ops_ind (Inv : world -> Prop) ops : forall w,
  Inv w -> (forall o w, Inv w -> Inv (step o w)) -> Inv (run_ops ops w).
Proof.
  induction ops as [| o ops IH]; intros w Hw Hstep; [exact Hw |].
  apply IH; [apply Hstep, Hw | exact Hstep].
Qed.

Lemma fsum_snoc costs c : fsum (costs ++ [c]) = fadd (fsum costs) c.
Proof. unfold fsum, fsum_from. rewrite fold_left_app. reflexivity. Qed.

Lemma logged_costs_snoc keep lines line :
  logged_costs keep (lines ++ [line])
  = logged_costs keep lines ++ logged_costs keep [line].
Proof. unfold logged_costs. apply omap_app. Qed.

Lemma logged_costs_request keep m f a b c :
  logged_costs keep [RequestLine m f a b c] = if keep m f then [c] else [].
Proof. unfold logged_costs. simpl. destruct (keep m f); reflexivity. Qed.

Lemma logged_costs_saved keep path : logged_costs keep [SavedLine path] = [].
Proof. reflexivity. Qed.

Lemma entry_after_charge (old : option float) costs c :
  old = entry_of costs ->
  Some (fadd (default zero old) c) = entry_of (costs ++ [c]).
Proof.
  intros ->. destruct costs as [| c0 costs]; [reflexivity |].
  change (entry_of ((c0 :: costs) ++ [c]))
    with (Some (fsum ((c0 :: costs) ++ [c]))).
  rewrite fsum_snoc. reflexivity.
Qed.

Lemma charge_matches_log m f a b c w :
  matches_log w -> matches_log (charge m f a b c w).
Proof.
  intros (Hwf & Ht & Hm & Hf).
  split; [apply charge_wf, Hwf |].
  rewrite charge_total, charge_cost_by_model, charge_cost_by_file,
    (charge_by_model _ _ _ _ _ _ Hwf), (charge_by_file _ _ _ _ _ _ Hwf),
    charge_logger.
  split; [| split].
  - rewrite logged_costs_snoc, logged_costs_request, fsum_snoc, Ht.
    reflexivity.
  - intros k. rewrite logged_costs_snoc, logged_costs_request.
    destruct (decide (m = k)) as [<- | Hne].
    + rewrite lookup_insert_eq, bool_decide_eq_true_2 by reflexivity.
      apply entry_after_charge, Hm.
    + rewrite lookup_insert_ne by exact Hne.
      rewrite bool_decide_eq_false_2 by exact Hne.
      rewrite app_nil_r. apply Hm.
  - intros k. rewrite logged_costs_snoc, logged_costs_request.
    destruct (decide (f = k)) as [<- | Hne].
    + rewrite lookup_insert_eq, bool_decide_eq_true_2 by reflexivity.
      apply entry_after_charge, Hf.
    + rewrite lookup_insert_ne by exact Hne.
      rewrite bool_decide_eq_false_2 by exact Hne.
      rewrite app_nil_r. apply Hf.
Qed.

Lemma init_matches_log fs : matches_log (__init__ fs).
Proof.
  split; [apply init_wf |]. split; [reflexivity |].
  split; intros k; reflexivity.
Qed.

Lemma step_matches_log o w : matches_log w -> matches_log (step o w).
Proof.
  intros Hw.
  destruct (step_cases o w)
    as [-> | [(m & f & a & b & cached & mi & c & _ & ->)
             | (now & u & path & _ & ->)]].
  - exact Hw.
  - apply charge_matches_log, Hw.
  - destruct Hw as (Hwf & Ht & Hm & Hf).
    split; [exact Hwf |].
    unfold logger_info, write_file, deref. simpl.
    split; [| split]; [| intros k ..];
      rewrite logged_costs_snoc, logged_costs_saved, app_nil_r;
      [exact Ht | apply Hm | apply Hf].
Qed.

(** X4: whatever operations ran since the monitor was created, the total
    is the sum, in log order, of the costs of all request lines of the
    log; a model has an entry exactly when the log has a request line
    for it, and the entry is the sum of the costs of those lines; the
    same holds of files. *)
Theorem ledger_matches_log fs ops :
  let w := run_ops ops (__init__ fs) in
  total_cost w = fsum (logged_costs (fun _ _ => true) (logger w)) /\
  (forall model_name,
     deref w (cost_by_model w) !! model_name =
     entry_of (logged_costs (fun m _ => bool_decide (m = model_name))
                 (logger w))) /\
  (forall file_path,
     deref w (cost_by_file w) !! file_path =
     entry_of (logged_costs (fun _ f => bool_decide (f = file_path))
                 (logger w))).
Proof.
  intros w.
  assert (H : matches_log w).
  { apply run_ops_ind; [apply init_matches_log |].
    intros o w0. apply step_matches_log. }
  destruct H as (_ & Ht & Hm & Hf). auto.
Qed.

(** ** Files *)






(** ** Accuracy of the cost *)

Lemma registry_prices_normal model p :
  MODEL_PRICING !! model = Some p ->
  price_normal (input_price p) = true /\
  price_normal (cached_input_price p) = true /\
  price_normal (output_price p) = true.
Proof.
  intros H.
  registry_cases H
    ltac:(split; [vm_compute; reflexivity |]; split; vm_compute; reflexivity).
Qed.

(** One term of the cost: a positive token count at a price of ordinary
    size. *)
Lemma cost_term n mp ep :
  valid_binary prec emax (S754_finite false mp ep) = true ->
  -64 <= mag mp ep <= 64 ->
  0 < n -> Zdigits2 n <= 900 ->
  exists mx ex m e,
    int_truediv n 1000000 = Ok (S754_finite false mx ex) /\
    fmul (S754_finite false mx ex) (S754_finite false mp ep)
      = S754_finite false m e /\
    valid_binary prec emax (S754_finite false m e) = true /\
    -84 <= mag m e <= 947 /\
    agree (u52 * u52) (inject_Z (Z.pos m) * 2 ^ e)
      (inject_Z n / 1000000 * (inject_Z (Z.pos mp) * 2 ^ ep)).
Proof.
  intros HvP HmagP Hn Hdn.
  destruct (int_truediv_agree n Hn ltac:(lia)) as (mx & ex & Hx & Hvx & Hmx & Hax).
  pose proof (Zdigits2_pos n Hn) as Hd.
  destruct (fmul_agree mx ex mp ep Hvx HvP ltac:(lia))
    as (m & e & Hmul & Hv & Hm & Hag).
  exists mx, ex, m, e.
  split; [exact Hx |]. split; [exact Hmul |]. split; [exact Hv |].
  split; [lia |].
  apply (agree_trans _ _ _ _ _ u52_nonneg u52_nonneg Hag).
  apply agree_mul; [| exact Hax].
  apply float_value_nonneg_finite.
Qed.

Lemma fmul_zero_finite m e :
  fmul (S754_zero false) (S754_finite false m e) = S754_zero false.
Proof. reflexivity. Qed.

Lemma u52_cube_le_u50 : (u52 * (u52 * u52) <= u50)%Q.
Proof. vm_compute. discriminate. Qed.

Lemma u52_sq_le_u50 : (u52 * u52 <= u50)%Q.
Proof. vm_compute. discriminate. Qed.

Lemma agree_value_l u m e x :
  agree u (inject_Z (Z.pos m) * 2 ^ e) x ->
  agree u (float_value (S754_finite false m e)) x.
Proof. unfold agree. rewrite float_value_finite. auto. Qed.

Lemma inject_Z_nonneg n : 0 <= n -> (0 <= inject_Z n)%Q.
Proof. intros H. change 0%Q with (inject_Z 0). rewrite <- Zle_Qle. exact H. Qed.

Lemma cost_term_nonneg n m e :
  0 <= n -> (0 <= inject_Z n / 1000000 * (inject_Z (Z.pos m) * 2 ^ e))%Q.
Proof.
  intros Hn. apply Qmult_le_0_compat; [| apply float_value_nonneg_finite].
  unfold Qdiv. apply Qmult_le_0_compat; [| discriminate].
  apply inject_Z_nonneg, Hn.
Qed.

Lemma Qsum_nonneg (x y : Q) : (0 <= x -> 0 <= y -> 0 <= x + y)%Q.
Proof. intros. lra. Qed.

Lemma calculate_cost_accurate_finite p a b (cached : bool) m1 e1 m2 e2 :
  (if cached then cached_input_price p else input_price p)
    = S754_finite false m1 e1 ->
  output_price p = S754_finite false m2 e2 ->
  valid_binary prec emax (S754_finite false m1 e1) = true ->
  valid_binary prec emax (S754_finite false m2 e2) = true ->
  -64 <= mag m1 e1 <= 64 -> -64 <= mag m2 e2 <= 64 ->
  0 <= a < 2 ^ 900 -> 0 <= b < 2 ^ 900 ->
  exists c,
    calculate_cost p a b cached = Ok c /\
    is_finite c = true /\
    fle zero c = true /\
    agree u50 (float_value c)
      (inject_Z a / 1000000 * (inject_Z (Z.pos m1) * 2 ^ e1)
       + inject_Z b / 1000000 * (inject_Z (Z.pos m2) * 2 ^ e2)).
Proof.
  intros HP1 HP2 Hv1 Hv2 Hmag1 Hmag2 [Ha Ha'] [Hb Hb'].
  assert (Hdig : forall n, 0 < n -> n < 2 ^ 900 -> Zdigits2 n <= 900).
  { intros n Hn Hle. apply Zdigits2_le; lia. }
  destruct (Z.eq_dec a 0) as [-> | Ha0]; destruct (Z.eq_dec b 0) as [-> | Hb0].
  - exists (S754_zero false).
    rewrite (calculate_cost_unfold p 0 0 cached _ _ int_truediv_zero
               int_truediv_zero), HP1, HP2.
    split; [reflexivity |]. split; [reflexivity |]. split; [reflexivity |].
    simpl float_value. change (inject_Z 0) with 0%Q.
    unfold agree, Qdiv. split; ring_simplify; discriminate.
  - destruct (cost_term b m2 e2 Hv2 Hmag2 ltac:(lia) (Hdig b ltac:(lia) Hb'))
      as (my & ey & m & e & Hy & Hmul & Hv & _ & Hag).
    exists (S754_finite false m e).
    rewrite (calculate_cost_unfold p 0 b cached _ _ int_truediv_zero Hy),
      HP1, HP2, Hmul.
    split; [reflexivity |]. split; [reflexivity |]. split; [reflexivity |].
    apply agree_value_l.
    apply agree_weaken with (u52 * u52)%Q;
      [exact u52_sq_le_u50 | apply float_value_nonneg_finite | |].
    + apply Qsum_nonneg; apply cost_term_nonneg; lia.
    + eapply agree_eq_r; [| exact Hag].
      change (inject_Z 0) with 0%Q. unfold Qdiv. ring.
  - destruct (cost_term a m1 e1 Hv1 Hmag1 ltac:(lia) (Hdig a ltac:(lia) Ha'))
      as (mx & ex & m & e & Hx & Hmul & Hv & _ & Hag).
    exists (S754_finite false m e).
    rewrite (calculate_cost_unfold p a 0 cached _ _ Hx int_truediv_zero),
      HP1, HP2, Hmul.
    split; [reflexivity |]. split; [reflexivity |]. split; [reflexivity |].
    apply agree_value_l.
    apply agree_weaken with (u52 * u52)%Q;
      [exact u52_sq_le_u50 | apply float_value_nonneg_finite | |].
    + apply Qsum_nonneg; apply cost_term_nonneg; lia.
    + eapply agree_eq_r; [| exact Hag].
      change (inject_Z 0) with 0%Q. unfold Qdiv. ring.
  - destruct (cost_term a m1 e1 Hv1 Hmag1 ltac:(lia) (Hdig a ltac:(lia) Ha'))
      as (mx & ex & ma & ea & Hx & Hmula & Hva & Hmaga & Haga).
    destruct (cost_term b m2 e2 Hv2 Hmag2 ltac:(lia) (Hdig b ltac:(lia) Hb'))
      as (my & ey & mb & eb & Hy & Hmulb & Hvb & Hmagb & Hagb).
    destruct (fadd_agree ma ea mb eb ltac:(lia)) as (m & e & Hadd & _ & _ & Hag).
    exists (S754_finite false m e).
    rewrite (calculate_cost_unfold p a b cached _ _ Hx Hy), HP1, HP2,
      Hmula, Hmulb, Hadd.
    split; [reflexivity |]. split; [reflexivity |]. split; [reflexivity |].
    apply agree_value_l.
    apply agree_weaken with (u52 * (u52 * u52))%Q;
      [exact u52_cube_le_u50 | apply float_value_nonneg_finite | |].
    + apply Qsum_nonneg; apply cost_term_nonneg; lia.
    + apply (agree_trans _ _ _ _ _ u52_nonneg u52_sq_nonneg Hag).
      apply agree_add; assumption.
Qed.

Lemma calculate_cost_accurate_normal p a b (cached : bool) :
  price_normal (if cached then cached_input_price p else input_price p)
    = true ->
  price_normal (output_price p) = true ->
  0 <= a < 2 ^ 900 -> 0 <= b < 2 ^ 900 ->
  exists c,
    calculate_cost p a b cached = Ok c /\
    is_finite c = true /\
    fle zero c = true /\
    agree u50 (float_value c) (exact_cost p a b cached).
Proof.
  intros Hin Hout Ha Hb.
  destruct (price_normal_inv _ Hin) as (m1 & e1 & HP1 & Hv1 & Hmag1).
  destruct (price_normal_inv _ Hout) as (m2 & e2 & HP2 & Hv2 & Hmag2).
  rewrite HP1 in Hv1. rewrite HP2 in Hv2.
  destruct (calculate_cost_accurate_finite p a b cached m1 e1 m2 e2
              HP1 HP2 Hv1 Hv2 Hmag1 Hmag2 Ha Hb) as (c & Hc & Hfin & Hpos & Hag).
  exists c. split; [exact Hc |]. split; [exact Hfin |]. split; [exact Hpos |].
  unfold exact_cost. rewrite HP1, HP2.
  eapply agree_eq_r; [| exact Hag].
  rewrite !float_value_finite. reflexivity.
Qed.

(** X6: for a registered price record and token counts below 2^900 the
    cost is computed without overflow, is finite and not negative, and
    agrees with the cost in exact arithmetic, at the values of the
    binary64 prices, within a factor of [1 + 2^-50]. *)
Theorem calculate_cost_accurate model p a b cached :
  MODEL_PRICING !! model = Some p ->
  0 <= a < 2 ^ 900 -> 0 <= b < 2 ^ 900 ->
  exists c,
    calculate_cost p a b cached = Ok c /\
    is_finite c = true /\
    fle zero c = true /\
    agree u50 (float_value c) (exact_cost p a b cached).
Proof.
  intros Hp.
  destruct (registry_prices_normal model p Hp) as (Hin & Hcin & Hout).
  apply calculate_cost_accurate_normal; [| exact Hout].
  destruct cached; assumption.
Qed.

Lemma calculate_cost_accurate_witness :
  exists c,
    calculate_cost gpt_4_1_mini 219 1500 false = Ok c /\
    agree u50 (float_value c) (exact_cost gpt_4_1_mini 219 1500 false).
Proof.
  destruct (calculate_cost_accurate "gpt-4.1-mini" gpt_4_1_mini 219 1500 false)
    as (c & Hc & _ & _ & Hag).
  - vm_compute; reflexivity.
  - split; [lia | vm_compute; reflexivity].
  - split; [lia | vm_compute; reflexivity].
  - exists c. auto.
Defined.

(** ** Negative token counts *)

Lemma binary_round_aux_opp mx ex lx :
  binary_round_aux prec emax true mx ex lx
  = SFopp (binary_round_aux prec emax false mx ex lx).
Proof.
  unfold binary_round_aux.
  destruct (shr_fexp prec emax mx ex lx) as [mrs' e'].
  destruct (shr_fexp prec emax _ e' loc_Exact) as [mrs'' e''].
  destruct (shr_m mrs'') as [| m | m]; try reflexivity.
  destruct (e'' <=? emax - prec); reflexivity.
Qed.

Lemma int_truediv_opp a mx ex :
  0 < a ->
  int_truediv a 1000000 = Ok (S754_finite false mx ex) ->
  int_truediv (- a) 1000000 = Ok (S754_finite true mx ex).
Proof.
  intros Ha. destruct a as [| q | q]; try lia.
  unfold int_truediv. simpl (1000000 =? 0). cbv iota.
  change (- Z.pos q) with (Z.neg q).
  unfold fdiv, SFdiv, exact_int. simpl xorb.
  destruct (SFdiv_core_binary prec emax (Z.pos q) 0 1000000 0) as [[mz ez] lz].
  rewrite binary_round_aux_opp.
  destruct (binary_round_aux prec emax false mz ez lz) as [s | s | | s m e];
    simpl; try discriminate.
  intros H. injection H as -> -> ->. reflexivity.
Qed.

Lemma fmul_opp mx ex my ey m e :
  fmul (S754_finite false mx ex) (S754_finite false my ey)
    = S754_finite false m e ->
  fmul (S754_finite true mx ex) (S754_finite false my ey)
    = S754_finite true m e.
Proof.
  unfold fmul, SFmul. simpl xorb. rewrite binary_round_aux_opp.
  intros ->. reflexivity.
Qed.

Lemma calculate_cost_opp p a mp ep :
  input_price p = S754_finite false mp ep ->
  valid_binary prec emax (S754_finite false mp ep) = true ->
  -64 <= mag mp ep <= 64 ->
  price_ok (output_price p) = true ->
  0 < a < 2 ^ 900 ->
  exists m e,
    calculate_cost p a 0 false = Ok (S754_finite false m e) /\
    calculate_cost p (- a) 0 false = Ok (S754_finite true m e).
Proof.
  intros HP Hv Hmag Hout [Ha Ha'].
  destruct (cost_term a mp ep Hv Hmag Ha ltac:(apply Zdigits2_le; lia))
    as (mx & ex & m & e & Hx & Hmul & _).
  destruct (fmul_zero_price _ Hout) as [s Hs].
  exists m, e. split.
  - rewrite (calculate_cost_unfold p a 0 false _ _ Hx int_truediv_zero),
      HP, Hmul, Hs. reflexivity.
  - rewrite (calculate_cost_unfold p (- a) 0 false _ _
               (int_truediv_opp a mx ex Ha Hx) int_truediv_zero),
      HP, (fmul_opp _ _ _ _ _ _ Hmul), Hs. reflexivity.
Qed.

(** X7: token counts are not validated.  For a registered model a
    request with [-a] input tokens returns, and is charged, the negation
    of the cost of [a] input tokens: a negative amount, which is added
    to the total. *)
Theorem log_request_negative_tokens model p file_path a w :
  MODEL_PRICING !! model = Some p ->
  0 < a < 2 ^ 900 ->
  exists m e,
    calculate_cost p a 0 false = Ok (S754_finite false m e) /\
    log_request model file_path (- a) 0 false None w
      = (Return (S754_finite true m e),
         charge model file_path (- a) 0 (S754_finite true m e) w) /\
    fle zero (S754_finite true m e) = false /\
    total_cost (charge model file_path (- a) 0 (S754_finite true m e) w)
      = fadd (total_cost w) (S754_finite true m e).
Proof.
  intros Hp Ha.
  destruct (registry_prices_normal model p Hp) as (Hin & _ & Hout).
  destruct (price_normal_inv _ Hin) as (mp & ep & HP & Hv & Hmag).
  rewrite HP in Hv.
  assert (Hok : price_ok (output_price p) = true).
  { apply registry_price_normal in Hp. apply Hp. }
  destruct (calculate_cost_opp p a mp ep HP Hv Hmag Hok Ha)
    as (m & e & Hpos & Hneg).
  exists m, e. split; [exact Hpos |]. split; [| split; reflexivity].
  rewrite log_request_unfold. simpl resolve.
  rewrite (get_model_info_known _ _ Hp), Hneg. reflexivity.
Qed.

Lemma log_request_negative_tokens_witness :
  exists m e,
    log_request "gpt-4.1-mini" "paper.pdf" (- 1000) 0 false None (__init__ ∅)
    = (Return (S754_finite true m e),
       charge "gpt-4.1-mini" "paper.pdf" (- 1000) 0 (S754_finite true m e)
         (__init__ ∅)) /\
    fle zero (S754_finite true m e) = false.
Proof.
  destruct (log_request_negative_tokens "gpt-4.1-mini" gpt_4_1_mini
              "paper.pdf" 1000 (__init__ ∅))
    as (m & e & _ & Hrun & Hneg & _).
  - vm_compute; reflexivity.
  - split; [lia | vm_compute; reflexivity].
  - exists m, e. auto.
Defined.

(** ** Counting words *)

Lemma split_from_spec s : forall word,
  Forall (fun c => py_isspace c = false) word ->
  Forall (fun w => w <> [] /\ Forall (fun c => py_isspace c = false) w)
         (split_from word s) /\
  concat (split_from word s) = rev word ++ List.filter (fun c => negb (py_isspace c)) s /\
  (split_from word s = [] <->
     word = [] /\ Forall (fun c => py_isspace c = true) s) /\
  (2 * length (split_from word s)
   <= length s + match word with [] => 1 | _ => 2 end)%nat.
Proof.
  induction s as [| c rest IH]; intros word Hword.
  - simpl. destruct word as [| c0 word].
    + split; [constructor |]. split; [reflexivity |].
      split; [| simpl; lia].
      split; [intros _; split; [reflexivity | constructor] | reflexivity].
    + split; [| split; [| split]].
      * constructor; [| constructor]. split.
        -- intros H. apply (f_equal (@length N)) in H.
           rewrite length_rev in H. discriminate.
        -- apply Forall_rev. exact Hword.
      * simpl. rewrite !app_nil_r. reflexivity.
      * split; [discriminate |]. intros [H _]. discriminate.
      * simpl. lia.
  - simpl split_from. simpl List.filter.
    destruct (py_isspace c) eqn:Hc; simpl negb; cbv iota.
    + destruct word as [| c0 word].
      * destruct (IH [] Hword) as (Hall & Hcat & Hnil & Hlen).
        split; [exact Hall |]. split; [exact Hcat |]. split.
        -- rewrite Hnil. split.
           ++ intros [_ H]. split; [reflexivity |]. constructor; assumption.
           ++ intros [_ H]. apply Forall_cons in H as [_ H]. auto.
        -- simpl length. simpl in Hlen. lia.
      * destruct (IH [] ltac:(constructor)) as (Hall & Hcat & Hnil & Hlen).
        split; [| split; [| split]].
        -- constructor; [| exact Hall]. split.
           ++ intros H. apply (f_equal (@length N)) in H.
              rewrite length_rev in H. discriminate.
           ++ apply Forall_rev. exact Hword.
        -- simpl concat. rewrite Hcat. reflexivity.
        -- split; [discriminate |]. intros [H _]. discriminate.
        -- simpl length. simpl in Hlen. lia.
    + assert (Hword' : Forall (fun c => py_isspace c = false) (c :: word))
        by (constructor; assumption).
      destruct (IH (c :: word) Hword') as (Hall & Hcat & Hnil & Hlen).
      split; [exact Hall |]. split; [| split].
      * rewrite Hcat. simpl rev. rewrite <- app_assoc. reflexivity.
      * rewrite Hnil. split.
        -- intros [H _]. discriminate.
        -- intros [_ H]. apply Forall_cons in H as [H _]. congruence.
      * simpl length. destruct word; lia.
Qed.

(** X8: tokens are counted as the words of [str.split]: the words are
    not empty and hold no whitespace, together they are the text without
    its whitespace, the count is zero exactly for a text of whitespace
    only, and never more than half the length of the text, rounded up.
    The prompt counts 219 words. *)
Theorem str_split_words (s : text) :
  Forall (fun w => w <> [] /\ Forall (fun c => py_isspace c = false) w)
         (str_split s) /\
  concat (str_split s) = List.filter (fun c => negb (py_isspace c)) s /\
  (len (str_split s) = 0 <-> Forall (fun c => py_isspace c = true) s) /\
  2 * len (str_split s) <= len s + 1 /\
  len (str_split prompt) = 219.
Proof.
  destruct (split_from_spec s [] ltac:(constructor)) as (Hall & Hcat & Hnil & Hlen).
  split; [exact Hall |]. split; [exact Hcat |]. split; [| split].
  - fold (str_split s) in Hnil. unfold len. split.
    + intros H. apply Hnil. destruct (str_split s); [reflexivity | discriminate].
    + intros H. destruct Hnil as [_ Hnil]. rewrite Hnil by auto. reflexivity.
  - unfold len. fold (str_split s) in Hlen. lia.
  - vm_compute. reflexivity.
Qed.

(** ** Base64 *)

Section Base64.

Import Stdlib.Strings.Ascii.










End Base64.



(** ** Processing one PDF *)

Lemma prompt_words : len (str_split prompt) = 219.
Proof. vm_compute. reflexivity. Qed.

Lemma on_monitor_log_request m f a b p s :
  on_monitor (log_request m f a b false (Some p)) s =
  match calculate_cost p a b false with
  | Ok cost =>
      (PReturn cost,
       {| monitor := charge m f a b cost (monitor s); trace := trace s |})
  | Raise e => (PRaised (Builtin e), s)
  end.
Proof.
  unfold on_monitor. rewrite log_request_unfold. simpl resolve. cbv iota beta.
  destruct (calculate_cost p a b false); [reflexivity |].
  destruct s; reflexivity.
Qed.

Lemma process_single_pdf_unfold E pdf_path model_name s :
  process_single_pdf E pdf_path model_name s =
  match open_rb E s pdf_path with
  | inr strerror => (PRaised (OSError strerror), s)
  | inl content =>
      match get_model_info model_name with
      | Raise e => (PRaised (Builtin e), s)
      | Ok model_info =>
          let request := request_for pdf_path model_name content in
          match responses_parse E s request with
          | inr message => (PReturn (failed message pdf_path), sent request s)
          | inl response =>
              let output_tokens := len (str_split (output_text response)) in
              match calculate_cost model_info 219 output_tokens false with
              | Raise e =>
                  (PReturn (failed (str_of_exception (Builtin e)) pdf_path),
                   sent request s)
              | Ok cost =>
                  (PReturn (answered response cost),
                   {| monitor := charge model_name pdf_path 219 output_tokens
                                   cost (monitor s);
                      trace := trace s ++ [ResponsesParse request] |})
              end
          end
      end
  end.
Proof.
  unfold process_single_pdf, pbind at 1, encode_pdf_to_base64.
  destruct (open_rb E s pdf_path) as [content | strerror]; [| reflexivity].
  unfold pbind at 1, lift_result.
  destruct (get_model_info model_name) as [model_info | e]; [| reflexivity].
  unfold try_except, pbind at 1, client_responses_parse.
  fold (request_for pdf_path model_name content).
  destruct (responses_parse E s _) as [response | message]; [| reflexivity].
  unfold pbind. rewrite on_monitor_log_request, prompt_words. simpl trace.
  destruct (calculate_cost model_info 219 _ false) as [cost | e];
    reflexivity.
Qed.


Lemma failed_lookup message pdf_path :
  failed message pdf_path !! "error" = Some (VStr message) /\
  failed message pdf_path !! "file" = Some (VStr pdf_path) /\
  failed message pdf_path !! "data" = None /\
  failed message pdf_path !! "cost" = None.
Proof. repeat split; reflexivity. Qed.

Lemma answered_lookup response cost :
  answered response cost !! "cost" = Some (VFloat cost) /\
  answered response cost !! "file" = None /\
  match output_parsed response with
  | Some parsed =>
      answered response cost !! "data" = Some (VList (data parsed)) /\
      answered response cost !! "error" = None
  | None =>
      answered response cost !! "data" = None /\
      answered response cost !! "error"
        = Some (VStr "No data parsed from response") /\
      answered response cost !! "raw_response"
        = Some (VText (output_text response))
  end.
Proof.
  unfold answered. destruct (output_parsed response); repeat split; reflexivity.
Qed.

(** X11: when the API answers, with fewer than 2^1000 words, the request
    is charged to the ledger, whether or not anything was parsed: the
    cost of 219 input tokens, the words of the prompt, and of the words
    of the output text, at the registry's prices, is returned under
    ["cost"] and added to the total, to the entry of the model and to
    the entry of the file.  The result holds ["data"] and no ["error"]
    when the output was parsed, and the error "No data parsed from
    response" with the raw text otherwise. *)
Theorem process_single_pdf_charges E pdf_path model_name s content p response :
  wf (monitor s) ->
  open_rb E s pdf_path = inl content ->
  MODEL_PRICING !! model_name = Some p ->
  responses_parse E s (request_for pdf_path model_name content)
    = inl response ->
  len (str_split (output_text response)) < 2 ^ 1000 ->
  exists cost result s',
    process_single_pdf E pdf_path model_name s = (PReturn result, s') /\
    calculate_cost p (len (str_split prompt))
      (len (str_split (output_text response))) false = Ok cost /\
    len (str_split prompt) = 219 /\
    result !! "cost" = Some (VFloat cost) /\
    total_cost (monitor s') = fadd (total_cost (monitor s)) cost /\
    deref (monitor s') (cost_by_model (monitor s')) !! model_name
      = Some (fadd (default zero
                      (deref (monitor s) (cost_by_model (monitor s))
                         !! model_name)) cost) /\
    deref (monitor s') (cost_by_file (monitor s')) !! pdf_path
      = Some (fadd (default zero
                      (deref (monitor s) (cost_by_file (monitor s))
                         !! pdf_path)) cost) /\
    match output_parsed response with
    | Some parsed =>
        result !! "data" = Some (VList (data parsed)) /\
        result !! "error" = None
    | None =>
        result !! "data" = None /\
        result !! "error" = Some (VStr "No data parsed from response") /\
        result !! "raw_response" = Some (VText (output_text response))
    end.
Proof.
  intros Hwf Hopen Hp Hapi Hwords.
  set (output_tokens := len (str_split (output_text response))) in *.
  destruct (calculate_cost_returns p 219 output_tokens false)
    as [cost Hcost]; [lia | unfold output_tokens, len in *; lia |].
  exists cost, (answered response cost),
    {| monitor := charge model_name pdf_path 219 output_tokens cost (monitor s);
       trace := trace s ++
                [ResponsesParse (request_for pdf_path model_name content)] |}.
  split.
  { rewrite process_single_pdf_unfold, Hopen, (get_model_info_known _ _ Hp).
    cbv zeta. rewrite Hapi. fold output_tokens. rewrite Hcost. reflexivity. }
  rewrite prompt_words. split; [exact Hcost |]. split; [reflexivity |].
  destruct (answered_lookup response cost) as (Hc & _ & Hshape).
  split; [exact Hc |]. simpl monitor.
  rewrite charge_total, charge_cost_by_model, charge_cost_by_file,
    (charge_by_model _ _ _ _ _ _ Hwf), (charge_by_file _ _ _ _ _ _ Hwf),
    !lookup_insert_eq.
  split; [reflexivity |]. split; [reflexivity |]. split; [reflexivity |].
  exact Hshape.
Qed.

Lemma process_single_pdf_charges_witness :
  exists cost result s',
    process_single_pdf example_env "papers/a.pdf" "gpt-4.1" example_state
      = (PReturn result, s') /\
    result !! "cost" = Some (VFloat cost) /\
    total_cost (monitor s') = fadd zero cost.
Proof.
  destruct (process_single_pdf_charges example_env "papers/a.pdf" "gpt-4.1"
              example_state [Byte.x25; Byte.x50; Byte.x44; Byte.x46]
              gpt_4_1 example_response)
    as (cost & result & s' & Hrun & _ & _ & Hcost & Htotal & _).
  - apply init_wf.
  - reflexivity.
  - vm_compute; reflexivity.
  - vm_compute; reflexivity.
  - vm_compute; reflexivity.
  - exists cost, result, s'. auto.
Defined.

(** Goals about which keys a returned dictionary has, once the lookups
    are evaluated. *)
Ltac shape :=
  repeat match goal with
         | |- _ /\ _ => split
         | |- _ <-> _ => split
         end;
  try discriminate;
  try (intros [? ?]; discriminate);
  try (intros _);
  eauto.

(** X12: with a readable file and a registered model the call returns a
    dictionary; the one thing it adds to the trace is a request for that
    file, and it leaves the saved summaries as they are.  An exception of
    the API comes back as
    [{"error": str(e), "file": pdf_path}]; a result holds ["data"]
    exactly when it holds no ["error"], and it holds ["file"] exactly
    when it holds no ["cost"], in which case the ledger is untouched. *)
Theorem process_single_pdf_returns E pdf_path model_name s content p :
  open_rb E s pdf_path = inl content ->
  MODEL_PRICING !! model_name = Some p ->
  exists result s',
    process_single_pdf E pdf_path model_name s = (PReturn result, s') /\
    trace s' = trace s
                 ++ [ResponsesParse (request_for pdf_path model_name content)] /\
    files (monitor s') = files (monitor s) /\
    (forall message,
       responses_parse E s (request_for pdf_path model_name content)
         = inr message ->
       result = {[ "error" := VStr message; "file" := VStr pdf_path ]}) /\
    (result !! "error" = None <-> is_Some (result !! "data")) /\
    (result !! "cost" = None <-> is_Some (result !! "file")) /\
    (is_Some (result !! "file") ->
       is_Some (result !! "error") /\ monitor s' = monitor s).
Proof.
  intros Hopen Hp.
  rewrite process_single_pdf_unfold, Hopen, (get_model_info_known _ _ Hp).
  cbv zeta.
  set (request := request_for pdf_path model_name content).
  assert (Hfailed : forall message,
    (failed message pdf_path !! "error" = None
       <-> is_Some (failed message pdf_path !! "data")) /\
    (failed message pdf_path !! "cost" = None
       <-> is_Some (failed message pdf_path !! "file")) /\
    (is_Some (failed message pdf_path !! "file") ->
       is_Some (failed message pdf_path !! "error") /\
       monitor (sent request s) = monitor s)).
  { intros message.
    destruct (failed_lookup message pdf_path) as (He & Hf & Hd & Hc).
    rewrite He, Hf, Hd, Hc. shape. }
  destruct (responses_parse E s request) as [response | message].
  - destruct (calculate_cost p 219 _ false) as [cost | e].
    + eexists _, _. split; [reflexivity |]. split; [reflexivity |].
      split; [reflexivity |]. split; [discriminate |].
      destruct (answered_lookup response cost) as (Hc & Hf & Hshape).
      rewrite Hc, Hf.
      destruct (output_parsed response) as [parsed |].
      * destruct Hshape as [-> ->]. shape.
      * destruct Hshape as (-> & -> & _). shape.
    + eexists _, _. split; [reflexivity |]. split; [reflexivity |].
      split; [reflexivity |]. split; [discriminate |]. apply Hfailed.
  - eexists _, _. split; [reflexivity |]. split; [reflexivity |].
    split; [reflexivity |].
    split; [intros m H; injection H as <-; reflexivity |]. apply Hfailed.
Qed.

Lemma process_single_pdf_returns_witness :
  exists result s',
    process_single_pdf example_env "bad.pdf" "gpt-4.1" example_state
      = (PReturn result, s') /\
    result = {[ "error" := VStr "Connection error."; "file" := VStr "bad.pdf" ]}.
Proof.
  destruct (process_single_pdf_returns example_env "bad.pdf" "gpt-4.1"
              example_state [Byte.x25; Byte.x50; Byte.x44; Byte.x46] gpt_4_1)
    as (result & s' & Hrun & _ & _ & Herr & _).
  - reflexivity.
  - vm_compute; reflexivity.
  - exists result, s'. split; [exact Hrun |].
    apply Herr. vm_compute; reflexivity.
Defined.

(** ** Processing a batch *)

Lemma process_pdfs_body_unfold E model_name output_file pdf_path s :
  process_pdfs_body E model_name output_file pdf_path s =
  match process_single_pdf E pdf_path model_name s with
  | (PReturn result, s') =>
      match csv_of pdf_path output_file result with
      | Some e =>
          match write_raises E s' e with
          | None =>
              (PReturn tt,
               {| monitor := monitor s';
                  trace := trace s' ++ report pdf_path output_file result |})
          | Some message =>
              (PRaised (WriteError message),
               {| monitor := monitor s';
                  trace := trace s'
                           ++ [WriteFailed (csv_name pdf_path output_file)] |})
          end
      | None =>
          (PReturn tt,
           {| monitor := monitor s';
              trace := trace s' ++ report pdf_path output_file result |})
      end
  | (PRaised e, s') => (PRaised e, s')
  end.
Proof.
  unfold process_pdfs_body, pbind at 1.
  destruct (process_single_pdf E pdf_path model_name s) as [[result | e] s'];
    [| reflexivity].
  unfold csv_of, report.
  destruct (result !! "error") as [error |]; [reflexivity |].
  cbv zeta. destruct (truthy _); [| reflexivity].
  unfold pbind, write.
  destruct (write_raises E s' _) as [message |]; [reflexivity |].
  unfold print, emit. simpl. rewrite <- app_assoc. reflexivity.
Qed.

Lemma for_each_cons E model_name output_file pdf_path rest s :
  for_each (pdf_path :: rest) (process_pdfs_body E model_name output_file) s =
  match process_pdfs_body E model_name output_file pdf_path s with
  | (PReturn _, s') =>
      for_each rest (process_pdfs_body E model_name output_file) s'
  | (PRaised e, s') => (PRaised e, s')
  end.
Proof. reflexivity. Qed.

Lemma process_pdfs_unfold E pdf_paths model_name output_file s :
  process_pdfs E pdf_paths model_name output_file s =
  match for_each pdf_paths (process_pdfs_body E model_name output_file)
          (with_new_monitor s) with
  | (PReturn _, s1) =>
      (PReturn [],
       {| monitor :=
            logger_info (SavedLine "cost_summary.json")
              (write_file "cost_summary.json"
                 {| doc_total_cost := total_cost (monitor s1);
                    doc_cost_by_model :=
                      deref (monitor s1) (cost_by_model (monitor s1));
                    doc_cost_by_file :=
                      deref (monitor s1) (cost_by_file (monitor s1));
                    doc_timestamp := isoformat_now E s1 |} (monitor s1));
          trace := trace s1 |})
  | (PRaised e, s1) => (PRaised e, s1)
  end.
Proof.
  unfold process_pdfs, pbind at 1, new_cost_monitor.
  fold (with_new_monitor s). unfold pbind at 1.
  destruct (for_each pdf_paths _ (with_new_monitor s)) as [[[] | e] s1];
    reflexivity.
Qed.

Lemma model_dump_keys item : (model_dump item).*1 = polymer_fieldnames.
Proof. reflexivity. Qed.

Lemma report_failed pdf_path output_file message :
  report pdf_path output_file (failed message pdf_path)
  = [Printed ("Error processing " ++ pdf_path ++ ": " ++ message)].
Proof. reflexivity. Qed.

Lemma report_answered pdf_path output_file response cost :
  report pdf_path output_file (answered response cost) =
  match output_parsed response with
  | None =>
      [Printed ("Error processing " ++ pdf_path
                ++ ": No data parsed from response")]
  | Some parsed =>
      match data parsed with
      | [] => [Printed ("No data extracted from " ++ pdf_path)]
      | _ =>
          [CsvWritten (csv_name pdf_path output_file) polymer_fieldnames
             (model_dump <$> data parsed);
           Printed ("CSV file saved: " ++ csv_name pdf_path output_file)]
      end
  end.
Proof.
  unfold answered.
  destruct (output_parsed response) as [[items] |]; [| reflexivity].
  destruct items as [| item items]; reflexivity.
Qed.

Lemma csv_of_failed pdf_path output_file message :
  csv_of pdf_path output_file (failed message pdf_path) = None.
Proof. reflexivity. Qed.

Lemma csv_of_answered pdf_path output_file response cost :
  csv_of pdf_path output_file (answered response cost) =
  match output_parsed response with
  | None => None
  | Some parsed =>
      match data parsed with
      | [] => None
      | _ =>
          Some (CsvWritten (csv_name pdf_path output_file) polymer_fieldnames
                  (model_dump <$> data parsed))
      end
  end.
Proof.
  unfold answered.
  destruct (output_parsed response) as [[items] |]; [| reflexivity].
  destruct items as [| item items]; reflexivity.
Qed.

Lemma csv_of_inv pdf_path output_file result e :
  is_result pdf_path result ->
  csv_of pdf_path output_file result = Some e ->
  exists rows,
    e = CsvWritten (csv_name pdf_path output_file) polymer_fieldnames rows /\
    rows <> [] /\
    Forall (fun row => row.*1 = polymer_fieldnames) rows /\
    report pdf_path output_file result
    = [e; Printed ("CSV file saved: " ++ csv_name pdf_path output_file)].
Proof.
  intros [(message & ->) | (response & cost & ->)].
  - rewrite csv_of_failed. discriminate.
  - rewrite csv_of_answered, report_answered.
    destruct (output_parsed response) as [parsed |]; [| discriminate].
    destruct (data parsed) as [| item items] eqn:Hdata; [discriminate |].
    intros H. injection H as <-. eexists. split; [reflexivity |].
    split; [discriminate |]. split; [| reflexivity].
    apply Forall_forall. intros row Hrow.
    change (row ∈ model_dump <$> (item :: items)) in Hrow.
    apply list_elem_of_fmap in Hrow as (x & -> & _). apply model_dump_keys.
Qed.

Lemma report_without_csv pdf_path output_file result :
  is_result pdf_path result ->
  csv_of pdf_path output_file result = None ->
  exists line, report pdf_path output_file result = [Printed line].
Proof.
  intros [(message & ->) | (response & cost & ->)].
  - intros _. rewrite report_failed. eauto.
  - rewrite csv_of_answered, report_answered.
    destruct (output_parsed response) as [parsed |]; [| eauto].
    destruct (data parsed) as [| item items]; [eauto | discriminate].
Qed.

(** [process_single_pdf] either raises before anything happened, or
    sends one request and returns a dictionary, having charged the
    request or not. *)
Lemma process_single_pdf_cases E model_name pdf_path s :
  (exists e,
     process_single_pdf E pdf_path model_name s = (PRaised e, s) /\
     ((exists strerror,
         open_rb E s pdf_path = inr strerror /\ e = OSError strerror) \/
      (exists content,
         open_rb E s pdf_path = inl content /\
         MODEL_PRICING !! model_name = None /\
         e = Builtin (ValueError ("Unknown model: " ++ model_name))))) \/
  (exists content p result w,
     open_rb E s pdf_path = inl content /\
     MODEL_PRICING !! model_name = Some p /\
     process_single_pdf E pdf_path model_name s
     = (PReturn result,
        {| monitor := w;
           trace := trace s
                    ++ [ResponsesParse
                          (request_for pdf_path model_name content)] |}) /\
     ((w = monitor s /\
       exists message, result = failed message pdf_path /\
         (responses_parse E s (request_for pdf_path model_name content)
            = inr message \/
          exists response,
            responses_parse E s (request_for pdf_path model_name content)
              = inl response /\
            calculate_cost p 219 (len (str_split (output_text response)))
              false = Raise OverflowError /\
            message = "integer division result too large for a float")) \/
      (exists response cost,
         responses_parse E s (request_for pdf_path model_name content)
           = inl response /\
         calculate_cost p 219 (len (str_split (output_text response))) false
           = Ok cost /\
         w = charge model_name pdf_path 219
               (len (str_split (output_text response))) cost (monitor s) /\
         result = answered response cost))).
Proof.
  rewrite process_single_pdf_unfold.
  destruct (open_rb E s pdf_path) as [content | strerror];
    [| left; eexists; split; [reflexivity | left; eauto]].
  unfold get_model_info, unknown_model.
  destruct (MODEL_PRICING !! model_name) as [p |];
    [| left; eexists; split; [reflexivity | right; eauto]].
  right. exists content, p. cbv zeta.
  destruct (responses_parse E s _) as [response | message].
  - destruct (calculate_cost p 219 _ false) as [cost | e] eqn:Hcost.
    + eexists _, _. split; [reflexivity |]. split; [reflexivity |].
      split; [reflexivity |].
      right. exists response, cost. auto.
    + pose proof (calculate_cost_raises _ _ _ _ _ Hcost) as ->.
      eexists _, _. split; [reflexivity |]. split; [reflexivity |].
      split; [reflexivity |].
      left. split; [reflexivity |]. eexists. split; [reflexivity |].
      right. exists response. auto.
  - eexists _, _. split; [reflexivity |]. split; [reflexivity |].
    split; [reflexivity |].
    left. split; [reflexivity |]. eexists. split; [reflexivity |]. auto.
Qed.

(** A round of the loop either raises before anything happened, or goes
    through the events of a round, charging at most one request; it then
    returns, unless writing the CSV file raised. *)
Lemma process_pdfs_body_cases E model_name output_file pdf_path s :
  (exists e,
     process_pdfs_body E model_name output_file pdf_path s = (PRaised e, s) /\
     ((exists strerror,
         open_rb E s pdf_path = inr strerror /\ e = OSError strerror) \/
      (exists content,
         open_rb E s pdf_path = inl content /\
         MODEL_PRICING !! model_name = None /\
         e = Builtin (ValueError ("Unknown model: " ++ model_name))))) \/
  (exists content p o w events charged,
     open_rb E s pdf_path = inl content /\
     MODEL_PRICING !! model_name = Some p /\
     process_pdfs_body E model_name output_file pdf_path s
     = (o, {| monitor := w; trace := trace s ++ events |}) /\
     round model_name output_file pdf_path events /\
     ((w = monitor s /\ charged = []) \/
      (exists output_tokens cost,
         w = charge model_name pdf_path 219 output_tokens cost (monitor s) /\
         charged = [(pdf_path, output_tokens, cost)])) /\
     (o = PReturn tt \/
      exists message s1 fieldnames rows,
        write_raises E s1
          (CsvWritten (csv_name pdf_path output_file) fieldnames rows)
        = Some message /\
        o = PRaised (WriteError message))).
Proof.
  rewrite process_pdfs_body_unfold.
  destruct (process_single_pdf_cases E model_name pdf_path s)
    as [(e & -> & He)
       | (content & p & result & w & Hopen & Hp & -> & Hw)];
    [left; eauto |].
  right.
  assert (Hres : is_result pdf_path result).
  { destruct Hw as [(_ & msg & -> & _) | (r & c & _ & _ & _ & ->)];
      [left | right]; eauto. }
  assert (Hcharged : exists charged,
    (w = monitor s /\ charged = []) \/
    (exists output_tokens cost,
       w = charge model_name pdf_path 219 output_tokens cost (monitor s) /\
       charged = [(pdf_path, output_tokens, cost)])).
  { destruct Hw as [(-> & _) | (r & c & _ & _ & -> & _)];
      eexists; [left | right]; eauto. }
  destruct Hcharged as [charged Hcharged].
  set (request := request_for pdf_path model_name content).
  destruct (csv_of pdf_path output_file result) as [e |] eqn:Hcsv.
  - destruct (csv_of_inv _ _ _ _ Hres Hcsv)
      as (rows & -> & Hrows & Hkeys & Hreport).
    destruct (write_raises E _ _) as [message |] eqn:Hwrite.
    + exists content, p, (PRaised (WriteError message)), w,
        [ResponsesParse request;
         WriteFailed (csv_name pdf_path output_file)], charged.
      split; [exact Hopen |]. split; [exact Hp |].
      split; [simpl; rewrite <- app_assoc; reflexivity |].
      split; [exists content, [WriteFailed (csv_name pdf_path output_file)];
              split; [reflexivity | right; left; reflexivity] |].
      split; [exact Hcharged |]. right.
      eexists _, _, _, _. split; [exact Hwrite | reflexivity].
    + exists content, p, (PReturn tt), w,
        (ResponsesParse request :: report pdf_path output_file result),
        charged.
      split; [exact Hopen |]. split; [exact Hp |].
      split; [simpl; rewrite <- app_assoc; reflexivity |].
      split; [| split; [exact Hcharged | left; reflexivity]].
      exists content, (report pdf_path output_file result).
      split; [reflexivity |]. left. exists rows. auto.
  - destruct (report_without_csv _ _ _ Hres Hcsv) as [line Hline].
    exists content, p, (PReturn tt), w,
      (ResponsesParse request :: report pdf_path output_file result),
      charged.
    split; [exact Hopen |]. split; [exact Hp |].
    split; [simpl; rewrite <- app_assoc; reflexivity |].
    split; [| split; [exact Hcharged | left; reflexivity]].
    exists content, (report pdf_path output_file result).
    split; [reflexivity |]. right. right. eauto.
Qed.

Lemma api_calls_app l1 l2 : api_calls (l1 ++ l2) = api_calls l1 ++ api_calls l2.
Proof. unfold api_calls. apply omap_app. Qed.

Lemma api_calls_round m out pdf_path events :
  round m out pdf_path events ->
  exists request, requests m pdf_path request /\ api_calls events = [request].
Proof.
  intros (content & after & -> & Hafter).
  exists (request_for pdf_path m content).
  split; [exists content; reflexivity |].
  destruct Hafter as [(rows & _ & _ & ->) | [-> | (line & ->)]]; reflexivity.
Qed.

Lemma api_calls_rounds m out done segments :
  Forall2 (round m out) done segments ->
  Forall2 (requests m) done (api_calls (concat segments)).
Proof.
  induction 1 as [| pdf_path events done segments Hround _ IH];
    [constructor |].
  destruct (api_calls_round _ _ _ _ Hround) as (request & Hreq & Hcalls).
  simpl concat. rewrite api_calls_app, Hcalls.
  constructor; [exact Hreq | exact IH].
Qed.

(** What holds of the loop once it stopped, however it stopped: it went
    through the rounds of the files [done], the first ones of the list,
    and charged the requests [charged], at most one for each of them. *)
Lemma for_each_inv E m out pdf_paths : forall s o s',
  for_each pdf_paths (process_pdfs_body E m out) s = (o, s') ->
  matches_log (monitor s) ->
  exists done segments charged,
    trace s' = trace s ++ concat segments /\
    Forall2 (round m out) done segments /\
    done `prefix_of` pdf_paths /\
    logger (monitor s') = logger (monitor s) ++ (request_line m <$> charged) /\
    charged.*1.*1 `sublist_of` done /\
    matches_log (monitor s') /\
    files (monitor s') = files (monitor s) /\
    match o with
    | PReturn _ => done = pdf_paths
    | PRaised e =>
        (exists strerror, e = OSError strerror) \/
        (MODEL_PRICING !! m = None /\
         e = Builtin (ValueError ("Unknown model: " ++ m))) \/
        (exists message, e = WriteError message)
    end.
Proof.
  induction pdf_paths as [| pdf_path rest IH]; intros s o s' Hrun Hlog.
  - simpl in Hrun. unfold pret in Hrun. injection Hrun as <- <-.
    exists [], [], []. simpl. rewrite !app_nil_r.
    split; [reflexivity |]. split; [constructor |].
    split; [reflexivity |]. split; [reflexivity |].
    split; [constructor |]. split; [exact Hlog |]. split; reflexivity.
  - rewrite for_each_cons in Hrun.
    destruct (process_pdfs_body_cases E m out pdf_path s)
      as [(e & Hbody & He)
         | (content & p & o1 & w & events & charged0 & Hopen & Hp & Hbody
            & Hround & Hw & Ho1)];
      rewrite Hbody in Hrun.
    + injection Hrun as <- <-. exists [], [], []. simpl. rewrite !app_nil_r.
      split; [reflexivity |]. split; [constructor |].
      split; [apply prefix_nil |]. split; [reflexivity |].
      split; [constructor |]. split; [exact Hlog |]. split; [reflexivity |].
      destruct He as [(msg & _ & ->) | (c & _ & Hm & ->)]; eauto.
    + assert (Hw' : matches_log w /\ files w = files (monitor s) /\
                logger w = logger (monitor s) ++ (request_line m <$> charged0) /\
                forall done, charged0.*1.*1 ++ done `sublist_of` pdf_path :: done).
      { destruct Hw as [(-> & ->) | (b & c & -> & ->)].
        - split; [exact Hlog |]. split; [reflexivity |].
          split; [simpl; rewrite app_nil_r; reflexivity |].
          intros done. simpl. apply sublist_cons. reflexivity.
        - split; [apply charge_matches_log, Hlog |].
          split; [apply charge_files |].
          split; [apply charge_logger |].
          intros done. simpl. reflexivity. }
      destruct Hw' as (Hlogw & Hfiles & Hlines0 & Hsub0).
      destruct Ho1 as [-> | (message & s1 & fieldnames & rows & _ & ->)].
      * destruct (IH _ _ _ Hrun Hlogw)
          as (done & segments & charged & Htrace & Hrounds & Hprefix & Hlines
              & Hsub & Hlog' & Hfiles' & Hout).
        simpl monitor in *. simpl trace in Htrace.
        exists (pdf_path :: done), (events :: segments), (charged0 ++ charged).
        split; [rewrite Htrace, <- app_assoc; reflexivity |].
        split; [constructor; assumption |].
        split; [apply prefix_cons, Hprefix |].
        split; [rewrite Hlines, Hlines0, fmap_app, <- app_assoc; reflexivity |].
        split.
        { rewrite !fmap_app. etransitivity; [| apply Hsub0].
          apply sublist_app; [reflexivity | exact Hsub]. }
        split; [exact Hlog' |].
        split; [rewrite Hfiles', Hfiles; reflexivity |].
        destruct o as [u | e]; [rewrite Hout; reflexivity | exact Hout].
      * injection Hrun as <- <-. simpl monitor. simpl trace.
        exists [pdf_path], [events], charged0. simpl concat.
        rewrite !app_nil_r.
        split; [reflexivity |].
        split; [repeat constructor; exact Hround |].
        split; [apply prefix_cons, prefix_nil |].
        split; [exact Hlines0 |].
        split; [specialize (Hsub0 []); rewrite app_nil_r in Hsub0;
                exact Hsub0 |].
        split; [exact Hlogw |]. split; [exact Hfiles |].
        right. right. eauto.
Qed.



Lemma with_new_monitor_matches_log s : matches_log (monitor (with_new_monitor s)).
Proof. apply init_matches_log. Qed.

(** X13: whatever the files yield, the list [process_pdfs] returns is
    empty.  When it returns, the requests it sent are, in the order of
    the list, one request for each path of the list, and as its last act
    it has saved at [cost_summary.json] the ledger as the run leaves it,
    and logged the save. *)
Theorem process_pdfs_returns_nothing E pdf_paths model_name output_file s
    results s' :
  process_pdfs E pdf_paths model_name output_file s = (PReturn results, s') ->
  results = [] /\
  exists new now,
    trace s' = trace s ++ new /\
    Forall2 (requests model_name) pdf_paths (api_calls new) /\
    files (monitor s') !! "cost_summary.json"
    = Some {| doc_total_cost := total_cost (monitor s');
              doc_cost_by_model :=
                deref (monitor s') (cost_by_model (monitor s'));
              doc_cost_by_file :=
                deref (monitor s') (cost_by_file (monitor s'));
              doc_timestamp := now |} /\
    last (logger (monitor s')) = Some (SavedLine "cost_summary.json").
Proof.
  rewrite process_pdfs_unfold.
  destruct (for_each pdf_paths _ (with_new_monitor s)) as [[[] | e] s1] eqn:Hloop;
    [| discriminate].
  intros H. injection H as <- <-. split; [reflexivity |].
  destruct (for_each_inv _ _ _ _ _ _ _ Hloop (with_new_monitor_matches_log s))
    as (done & segments & charged & Htrace & Hrounds & _ & _ & _ & _ & _
        & ->).
  exists (concat segments), (isoformat_now E s1).
  split; [exact Htrace |].
  split; [exact (api_calls_rounds _ _ _ _ Hrounds) |].
  split; [simpl; apply lookup_insert_eq |].
  simpl. apply last_snoc.
Qed.

Lemma process_pdfs_returns_nothing_witness :
  let res := process_pdfs example_env ["a.pdf"; "bad.pdf"] "gpt-4.1"
               "results.csv" example_state in
  exists new now,
    trace (snd res) = trace example_state ++ new /\
    Forall2 (requests "gpt-4.1") ["a.pdf"; "bad.pdf"] (api_calls new) /\
    doc_timestamp <$> files (monitor (snd res)) !! "cost_summary.json"
    = Some now.
Proof.
  intros res.
  destruct (process_pdfs_returns_nothing example_env ["a.pdf"; "bad.pdf"]
              "gpt-4.1" "results.csv" example_state [] (snd res))
    as (_ & new & now & Htrace & Hcalls & Hfile & _).
  - vm_compute; reflexivity.
  - exists new, now. rewrite Hfile. auto.
Defined.







Lemma logged_costs_app keep l1 l2 :
  logged_costs keep (l1 ++ l2) = logged_costs keep l1 ++ logged_costs keep l2.
Proof. unfold logged_costs. apply omap_app. Qed.

Lemma charged_lines_model m charged k :
  logged_costs (fun m' _ => bool_decide (m' = k)) (request_line m <$> charged)
  = if decide (m = k)
    then logged_costs (fun _ _ => true) (request_line m <$> charged)
    else [].
Proof.
  induction charged as [| [[f b] c] charged IH].
  - destruct (decide (m = k)); reflexivity.
  - rewrite fmap_cons.
    change (request_line m (f, b, c) :: (request_line m <$> charged))
      with ([RequestLine m f 219 b c] ++ (request_line m <$> charged)).
    rewrite !logged_costs_app, IH, !logged_costs_request.
    destruct (decide (m = k)) as [-> | Hne].
    + rewrite bool_decide_eq_true_2 by reflexivity. reflexivity.
    + rewrite bool_decide_eq_false_2 by exact Hne. reflexivity.
Qed.

Lemma charged_lines_file m charged k :
  k ∉ charged.*1.*1 ->
  logged_costs (fun _ f => bool_decide (f = k)) (request_line m <$> charged)
  = [].
Proof.
  induction charged as [| [[f b] c] charged IH]; intros Hk; [reflexivity |].
  rewrite !fmap_cons in Hk. apply not_elem_of_cons in Hk as [Hne Hk].
  rewrite fmap_cons.
  change (request_line m (f, b, c) :: (request_line m <$> charged))
    with ([RequestLine m f 219 b c] ++ (request_line m <$> charged)).
  rewrite logged_costs_app, (IH Hk), logged_costs_request.
  rewrite bool_decide_eq_false_2; [reflexivity |].
  intros ->. apply Hne. reflexivity.
Qed.

Lemma charged_lines_costs m charged :
  logged_costs (fun _ _ => true) (request_line m <$> charged) = charged.*2.
Proof.
  induction charged as [| [[f b] c] charged IH]; [reflexivity |].
  rewrite !fmap_cons.
  change (request_line m (f, b, c) :: (request_line m <$> charged))
    with ([RequestLine m f 219 b c] ++ (request_line m <$> charged)).
  rewrite logged_costs_app, IH, logged_costs_request. reflexivity.
Qed.

(** X14: when [process_pdfs] returns, what it saved at
    [cost_summary.json] is the ledger of this run alone.  The requests
    that were charged belong to paths of the list, in the order of the
    list and at most one to each place in it; each has its line in the
    log, with 219 input tokens under the given model.  The saved total
    is the sum of their costs, in that order; [cost_by_model] holds that
    sum under the model, or nothing when no request was charged;
    [cost_by_file] holds under each path the sum of the costs charged to
    it, and nothing under a path outside the list.  The log ends with the
    line of the save. *)
Theorem process_pdfs_summary E pdf_paths model_name output_file s results s' :
  process_pdfs E pdf_paths model_name output_file s = (PReturn results, s') ->
  exists charged doc,
    let lines := request_line model_name <$> charged in
    let costs := charged.*2 in
    charged.*1.*1 `sublist_of` pdf_paths /\
    logger (monitor s') = lines ++ [SavedLine "cost_summary.json"] /\
    files (monitor s') !! "cost_summary.json" = Some doc /\
    doc_total_cost doc = fsum costs /\
    doc_cost_by_model doc
      = match entry_of costs with
        | Some total => {[ model_name := total ]}
        | None => ∅
        end /\
    (forall pdf_path,
       doc_cost_by_file doc !! pdf_path
       = entry_of (logged_costs (fun _ f => bool_decide (f = pdf_path)) lines)) /\
    (forall pdf_path,
       pdf_path ∉ pdf_paths -> doc_cost_by_file doc !! pdf_path = None).
Proof.
  rewrite process_pdfs_unfold.
  destruct (for_each pdf_paths _ (with_new_monitor s)) as [[[] | e] s1] eqn:Hloop;
    [| discriminate].
  intros H. injection H as <- <-.
  destruct (for_each_inv _ _ _ _ _ _ _ Hloop (with_new_monitor_matches_log s))
    as (done & segments & charged & _ & _ & _ & Hlines & Hsub & Hlog & _
        & ->).
  change (logger (monitor (with_new_monitor s)) ++ _)
    with (request_line model_name <$> charged) in Hlines.
  destruct Hlog as (_ & Htotal & Hmodel & Hfile). rewrite Hlines in *.
  rewrite charged_lines_costs in Htotal.
  eexists charged, _. cbv zeta.
  split; [exact Hsub |].
  split; [simpl; rewrite Hlines; reflexivity |].
  split; [simpl; apply lookup_insert_eq |].
  split; [exact Htotal |]. split; [| split].
  - simpl. apply map_eq. intros k.
    rewrite Hmodel, charged_lines_model, charged_lines_costs.
    destruct (decide (model_name = k)) as [<- | Hne].
    + destruct (entry_of _) as [total |];
        [rewrite lookup_singleton_eq | rewrite lookup_empty]; reflexivity.
    + destruct (entry_of charged.*2) as [total |];
        [rewrite lookup_singleton_ne by exact Hne | rewrite lookup_empty];
        reflexivity.
  - intros pdf_path. simpl. apply Hfile.
  - intros pdf_path Hout. simpl.
    rewrite Hfile, charged_lines_file; [reflexivity |].
    intros Hin. apply Hout. exact (elem_of_sublist _ _ _ Hin Hsub).
Qed.

Lemma process_pdfs_summary_witness :
  let res := process_pdfs example_env ["a.pdf"; "bad.pdf"] "gpt-4.1"
               "results.csv" example_state in
  exists (charged : list (string * Z * float)) doc,
    charged.*1.*1 `sublist_of` ["a.pdf"; "bad.pdf"] /\
    files (monitor (snd res)) !! "cost_summary.json" = Some doc /\
    doc_total_cost doc = fsum charged.*2.
Proof.
  intros res.
  destruct (process_pdfs_summary example_env ["a.pdf"; "bad.pdf"] "gpt-4.1"
              "results.csv" example_state [] (snd res))
    as (charged & doc & Hsub & _ & Hfiles & Htotal & _).
  - vm_compute; reflexivity.
  - exists charged, doc. auto.
Defined.

(** X15: however [process_pdfs] ends, what it adds to the trace is one
    round for each of the files it got to, which are the first ones of
    the list, in the order of the list, and all of them when it returns.
    A round is one parse request for its file, followed by the CSV file
    named after it, with the eighteen field names of [PolymerData] as its
    header and at least one row, and the line announcing it, or by a
    failed attempt to write that CSV file, or by one printed line.  So
    it sends no other request and, besides what the cost monitor writes,
    sets out to write no other file. *)
Theorem process_pdfs_events E pdf_paths model_name output_file s :
  exists done segments,
    trace (snd (process_pdfs E pdf_paths model_name output_file s))
      = trace s ++ concat segments /\
    done `prefix_of` pdf_paths /\
    Forall2 (round model_name output_file) done segments /\
    (forall results,
       fst (process_pdfs E pdf_paths model_name output_file s)
         = PReturn results -> done = pdf_paths).
Proof.
  rewrite process_pdfs_unfold.
  destruct (for_each pdf_paths _ (with_new_monitor s)) as [o s1] eqn:Hloop.
  destruct (for_each_inv _ _ _ _ _ _ _ Hloop (with_new_monitor_matches_log s))
    as (done & segments & charged & Htrace & Hrounds & Hprefix & _ & _ & _ & _
        & Hout).
  exists done, segments.
  destruct o as [[] | e]; (split; [exact Htrace |]);
    (split; [exact Hprefix |]); (split; [exact Hrounds |]).
  - intros _ _. exact Hout.
  - intros results H. discriminate H.
Qed.



(** ** Names of the CSV files *)

Section Names.

Import Stdlib.Strings.Ascii.

Lemma chars_app (s1 s2 : string) :
  String.list_ascii_of_string (s1 ++ s2)
  = String.list_ascii_of_string s1 ++ String.list_ascii_of_string s2.
Proof.
  induction s1 as [| c s1 IH]; [reflexivity |].
  simpl. rewrite IH. reflexivity.
Qed.

Lemma rfind1_absent (c : ascii) s : c ∉ s -> rfind1 c s = 0%nat.
Proof.
  induction s as [| x s IH]; [reflexivity |].
  intros Hnot. apply not_elem_of_cons in Hnot as [Hne Hnot].
  simpl. rewrite (IH Hnot).
  destruct (Ascii.eqb_spec x c) as [-> | _]; [contradiction | reflexivity].
Qed.

Lemma rfind1_last (c : ascii) s1 s2 :
  c ∉ s2 -> rfind1 c (s1 ++ c :: s2) = S (length s1).
Proof.
  intros Hnot. induction s1 as [| x s1 IH].
  - simpl. rewrite (rfind1_absent c s2 Hnot), Ascii.eqb_refl. reflexivity.
  - simpl. rewrite IH. reflexivity.
Qed.

Lemma drop_past {A : Type} (l1 : list A) x l2 :
  drop (S (length l1)) (l1 ++ x :: l2) = l2.
Proof. induction l1 as [| y l1 IH]; [reflexivity | exact IH]. Qed.

Lemma basename_plain name :
  "/"%char ∉ String.list_ascii_of_string name -> basename name = name.
Proof.
  intros Hnot. unfold basename. rewrite (rfind1_absent _ _ Hnot).
  apply String.string_of_list_ascii_of_string.
Qed.

Lemma basename_in_directory dir name :
  "/"%char ∉ String.list_ascii_of_string name ->
  basename (dir ++ "/" ++ name) = name.
Proof.
  intros Hnot. unfold basename. rewrite !chars_app.
  change (String.list_ascii_of_string "/") with ["/"%char].
  rewrite (rfind1_last _ _ _ Hnot).
  rewrite <- (String.string_of_list_ascii_of_string name) at 2.
  f_equal. apply drop_past.
Qed.

Lemma splitext_extension stem ext :
  "/"%char ∉ String.list_ascii_of_string stem ->
  "/"%char ∉ String.list_ascii_of_string ext ->
  "."%char ∉ String.list_ascii_of_string ext ->
  (exists c, c ∈ String.list_ascii_of_string stem /\ c <> "."%char) ->
  splitext (stem ++ "." ++ ext) = (stem, ("." ++ ext)%string).
Proof.
  intros Hs He Hd (c & Hc & Hne). unfold splitext. rewrite !chars_app.
  change (String.list_ascii_of_string ".") with ["."%char].
  set (ls := String.list_ascii_of_string stem) in *.
  set (le := String.list_ascii_of_string ext) in *.
  change (ls ++ ["."%char] ++ le) with (ls ++ "."%char :: le).
  cbv zeta.
  rewrite (rfind1_last _ ls le Hd).
  rewrite (rfind1_absent "/"%char).
  2:{ rewrite not_elem_of_app, not_elem_of_cons. split; [exact Hs |].
      split; [discriminate | exact He]. }
  replace (S (length ls) - 1 - 0)%nat with (length ls) by lia.
  replace (S (length ls) - 1)%nat with (length ls) by lia.
  change (drop 0 (ls ++ "."%char :: le))
    with (ls ++ "."%char :: le).
  rewrite take_app_length, drop_app_length.
  assert (Hex : existsb (fun c => negb (c =? ".")%char) ls = true).
  { apply existsb_exists. exists c. split; [apply list_elem_of_In, Hc |].
    apply negb_true_iff, Ascii.eqb_neq, Hne. }
  rewrite Hex. simpl andb. cbv iota.
  unfold ls. rewrite String.string_of_list_ascii_of_string.
  f_equal.
  change ("."%char :: le) with (String.list_ascii_of_string ("." ++ ext)).
  apply String.string_of_list_ascii_of_string.
Qed.

Lemma splitext_plain name :
  "."%char ∉ String.list_ascii_of_string name -> splitext name = (name, "").
Proof.
  intros Hd. unfold splitext. cbv zeta.
  rewrite (rfind1_absent "."%char _ Hd). reflexivity.
Qed.

(** X20: the CSV file is named after the last component of the path
    alone, so that files of the same name in different directories
    share one CSV file; for a name [stem.ext] with a character other
    than a dot in [stem] and no dot in [ext] the CSV file is
    [stem_output_file], and for a name without a dot it is
    [name_output_file]. *)
Theorem csv_name_of_path (dir name stem ext output_file : string) :
  "/"%char ∉ String.list_ascii_of_string name ->
  csv_name (dir ++ "/" ++ name) output_file = csv_name name output_file /\
  (name = (stem ++ "." ++ ext)%string ->
   "."%char ∉ String.list_ascii_of_string ext ->
   (exists c, c ∈ String.list_ascii_of_string stem /\ c <> "."%char) ->
   csv_name name output_file = (stem ++ "_" ++ output_file)%string) /\
  ("."%char ∉ String.list_ascii_of_string name ->
   csv_name name output_file = (name ++ "_" ++ output_file)%string).
Proof.
  intros Hname. unfold csv_name.
  rewrite (basename_in_directory dir name Hname), (basename_plain name Hname).
  split; [reflexivity |]. split.
  - intros -> Hd Hc. rewrite !chars_app in Hname.
    apply not_elem_of_app in Hname as [Hs He].
    apply not_elem_of_app in He as [_ He].
    rewrite (splitext_extension stem ext Hs He Hd Hc). reflexivity.
  - intros Hd. rewrite (splitext_plain name Hd). reflexivity.
Qed.

Lemma csv_name_of_path_witness :
  csv_name ("papers/2024" ++ "/" ++ "membrane.v2.pdf") "results.csv"
  = "membrane.v2_results.csv".
Proof.
  assert (Hname : "/"%char ∉ String.list_ascii_of_string "membrane.v2.pdf")
    by (refine (bool_decide_unpack _ _); vm_compute; reflexivity).
  destruct (csv_name_of_path "papers/2024" "membrane.v2.pdf" "membrane.v2"
              "pdf" "results.csv" Hname) as (Hdir & Hext & _).
  rewrite Hdir. apply Hext.
  - reflexivity.
  - refine (bool_decide_unpack _ _). vm_compute; reflexivity.
  - exists "m"%char. split; [| discriminate].
    refine (bool_decide_unpack _ _). vm_compute; reflexivity.
Defined.

End Names.

(** ** The markdown report *)











Lemma parse_csv_to_markdown_unfold E csv_file markdown_file s :
  parse_csv_to_markdown E csv_file markdown_file s =
  (PReturn tt,
   {| monitor := monitor s;
      trace := trace s ++
        match csv_reader E s csv_file with
        | inr message => [Printed ("Error reading CSV file: " ++ message)]
        | inl [] => [Printed ("No data found in " ++ csv_file)]
        | inl (fieldnames :: rows) =>
            if bool_decide (fieldnames = []) then
              [Printed ("No data found in " ++ csv_file)]
            else
              let input_text :=
                report_prompt (markdown_table fieldnames rows) in
              ResponsesCreate "gpt-4.1-nano" input_text ::
              match responses_create E s "gpt-4.1-nano" input_text with
              | inl output_text =>
                  match write_raises E
                          {| monitor := monitor s;
                             trace := trace s ++
                               [ResponsesCreate "gpt-4.1-nano" input_text] |}
                          (TextWritten markdown_file output_text) with
                  | None =>
                      [TextWritten markdown_file output_text;
                       Printed ("Markdown report saved to " ++ markdown_file)]
                  | Some message =>
                      [WriteFailed markdown_file;
                       Printed ("Error interpreting results: " ++ message)]
                  end
              | inr message =>
                  [Printed ("Error interpreting results: " ++ message)]
              end
        end |}).
Proof.
  unfold parse_csv_to_markdown, try_except at 1, pbind at 1, read_csv.
  destruct (csv_reader E s csv_file) as [[| fieldnames rows] | message];
    try reflexivity.
  destruct (bool_decide (fieldnames = [])); [reflexivity |].
  cbv zeta. unfold try_except, pbind at 1, client_responses_create.
  destruct (responses_create E s "gpt-4.1-nano" _) as [output_text | message].
  - unfold pbind, write.
    destruct (write_raises E _ _) as [message |].
    + unfold print, emit. simpl. rewrite <- !app_assoc. reflexivity.
    + unfold print, emit. simpl. rewrite <- !app_assoc. reflexivity.
  - unfold print, emit. simpl. rewrite <- !app_assoc. reflexivity.
Qed.

(** Membership in a list that is written out. *)
Ltac listed :=
  repeat match goal with
         | H : _ ∈ _ :: _ |- _ => apply elem_of_cons in H; destruct H as [H | H]
         | H : _ ∈ [] |- _ => apply elem_of_nil in H; destruct H
         end.

(** The parts of a statement on the events of a written-out trace that
    follow from the shape of the events alone. *)
Ltac by_shape :=
  try solve [ intros; intros ?; listed; discriminate
            | intros ? ? ?; listed; try discriminate;
              match goal with
              | H : ResponsesCreate _ _ = ResponsesCreate _ _ |- _ =>
                  injection H as -> _; reflexivity
              end ].

(** X22: [parse_csv_to_markdown] always returns and leaves the ledger
    untouched: its request is not charged.  The markdown file is written
    exactly when the CSV file was read with a header that is not empty,
    the API answered the prompt for its table and writing the file did
    not raise, and then it holds the text of that answer.  When writing
    raised, the file is left in an unknown condition and the exception is
    printed as an error of interpreting the results.  It sets out to
    write no other file, and its only request goes to "gpt-4.1-nano". *)
Theorem parse_csv_to_markdown_effects E csv_file markdown_file s :
  exists new,
    parse_csv_to_markdown E csv_file markdown_file s
      = (PReturn tt, {| monitor := monitor s; trace := trace s ++ new |}) /\
    (forall path content,
       TextWritten path content ∈ new <->
       path = markdown_file /\
       exists fieldnames rows,
         let input_text := report_prompt (markdown_table fieldnames rows) in
         csv_reader E s csv_file = inl (fieldnames :: rows) /\
         fieldnames <> [] /\
         responses_create E s "gpt-4.1-nano" input_text = inl content /\
         write_raises E
           {| monitor := monitor s;
              trace := trace s ++ [ResponsesCreate "gpt-4.1-nano" input_text] |}
           (TextWritten markdown_file content) = None) /\
    (forall path,
       WriteFailed path ∈ new <->
       path = markdown_file /\
       exists fieldnames rows content message,
         let input_text := report_prompt (markdown_table fieldnames rows) in
         csv_reader E s csv_file = inl (fieldnames :: rows) /\
         fieldnames <> [] /\
         responses_create E s "gpt-4.1-nano" input_text = inl content /\
         write_raises E
           {| monitor := monitor s;
              trace := trace s ++ [ResponsesCreate "gpt-4.1-nano" input_text] |}
           (TextWritten markdown_file content) = Some message /\
         Printed ("Error interpreting results: " ++ message) ∈ new) /\
    (forall model input_text,
       ResponsesCreate model input_text ∈ new -> model = "gpt-4.1-nano") /\
    (forall request, ResponsesParse request ∉ new) /\
    (forall path fieldnames rows, CsvWritten path fieldnames rows ∉ new).
Proof.
  rewrite parse_csv_to_markdown_unfold. eexists. split; [reflexivity |].
  destruct (csv_reader E s csv_file) as [[| fieldnames rows] | message].
  - split; [| split; [| split; [| split]]]; by_shape.
    + intros path content. split; [intros H; listed; discriminate |].
      intros (_ & f & r & H & _). discriminate H.
    + intros path. split; [intros H; listed; discriminate |].
      intros (_ & f & r & c & m & H & _). discriminate H.
  - destruct (decide (fieldnames = [])) as [-> | Hne].
    + rewrite bool_decide_eq_true_2 by reflexivity.
      split; [| split; [| split; [| split]]]; by_shape.
      * intros path content. split; [intros H; listed; discriminate |].
        intros (_ & f & r & H & Hf & _). injection H as <- <-. contradiction.
      * intros path. split; [intros H; listed; discriminate |].
        intros (_ & f & r & c & m & H & Hf & _). injection H as <- <-.
        contradiction.
    + rewrite bool_decide_eq_false_2 by exact Hne. cbv zeta.
      destruct (responses_create E s "gpt-4.1-nano" _)
        as [output_text | message] eqn:Hcreate.
      * destruct (write_raises E _ _) as [message |] eqn:Hwrite.
        -- split; [| split; [| split; [| split]]]; by_shape.
           ++ intros path content. split; [intros H; listed; discriminate |].
              intros (_ & f & r & H & _ & Hc & Hw).
              injection H as <- <-. rewrite Hcreate in Hc. injection Hc as <-.
              rewrite Hwrite in Hw. discriminate Hw.
           ++ intros path. split.
              ** intros H. listed; try discriminate.
                 injection H as ->. split; [reflexivity |].
                 exists fieldnames, rows, output_text, message.
                 split; [reflexivity |]. split; [exact Hne |].
                 split; [exact Hcreate |]. split; [exact Hwrite |].
                 apply elem_of_cons. right. apply elem_of_cons. right.
                 apply elem_of_cons. left. reflexivity.
              ** intros (-> & _). apply elem_of_cons. right.
                 apply elem_of_cons. left. reflexivity.
        -- split; [| split; [| split; [| split]]]; by_shape.
           ++ intros path content. split.
              ** intros H. listed; try discriminate.
                 injection H as -> ->. split; [reflexivity |].
                 exists fieldnames, rows. auto.
              ** intros (-> & f & r & H & _ & Hc & _).
                 injection H as <- <-. rewrite Hcreate in Hc.
                 injection Hc as <-.
                 apply elem_of_cons. right. apply elem_of_cons. left.
                 reflexivity.
           ++ intros path. split; [intros H; listed; discriminate |].
              intros (_ & f & r & c & m & H & _ & Hc & Hw & _).
              injection H as <- <-. rewrite Hcreate in Hc. injection Hc as <-.
              rewrite Hwrite in Hw. discriminate Hw.
      * split; [| split; [| split; [| split]]]; by_shape.
        -- intros path content. split; [intros H; listed; discriminate |].
           intros (_ & f & r & H & _ & Hc & _).
           injection H as <- <-. rewrite Hcreate in Hc. discriminate Hc.
        -- intros path. split; [intros H; listed; discriminate |].
           intros (_ & f & r & c & m & H & _ & Hc & _).
           injection H as <- <-. rewrite Hcreate in Hc. discriminate Hc.
  - split; [| split; [| split; [| split]]]; by_shape.
    + intros path content. split; [intros H; listed; discriminate |].
      intros (_ & f & r & H & _). discriminate H.
    + intros path. split; [intros H; listed; discriminate |].
      intros (_ & f & r & c & m & H & _). discriminate H.
Qed.

Lemma parse_csv_to_markdown_effects_witness :
  parse_csv_to_markdown example_env "a_results.csv" "locked_results.md"
    example_state
  = (PReturn tt,
     {| monitor := monitor example_state;
        trace :=
          [ ResponsesCreate "gpt-4.1-nano"
              (report_prompt
                 (markdown_table ["sample_id"; "linkage_type"] [["TTT-PEMP"]]));
            WriteFailed "locked_results.md";
            Printed "Error interpreting results: [Errno 13] Permission denied: 'locked_results.md'" ] |}).
Proof.
  destruct (parse_csv_to_markdown_effects example_env "a_results.csv"
              "locked_results.md" example_state) as (new & Hrun & _).
  rewrite Hrun. vm_compute in Hrun. injection Hrun as <-. reflexivity.
Defined.
